(** * Verification of the metrics engine and the data-access routes

    A shallow embedding of [server/src/metrics.js], [server/src/redis.js],
    [server/src/routes/recommendations.js] (under [unnamed/part_002]),
    [server/src/routes/checkout.js] (under [unnamed/part_003]) and
    [server/src/routes/products.js].

    Numbers.  JavaScript numbers are IEEE doubles.  Durations and timestamps
    are differences and values of [Date.now()], hence integers: they are [Z]
    here, and are taken to be representable as doubles.  The statistics
    derived from them are modelled twice.

    Module [Metrics] computes them as exact rationals [Q].  It carries the
    statements about counts, ranks, order and range: these hold of the
    doubles as well, since every operation involved is correctly rounded,
    hence monotone, and the values and bounds concerned are integers.  The
    guards of the source against division by zero are kept as they are
    written, so no quotient with a zero divisor is ever formed.
    [Math.ceil (0.95 * n)] is taken as the exact ceiling of [95 n / 100]: the
    double nearest to 0.95 lies below 0.95 by less than 5e-17, so the product
    does not cross an integer for any array length; [double_index_exact]
    checks the index in binary64 arithmetic for the lengths up to 10000.

    Module [Binary64] computes them in binary64, operation by operation as
    the source does, on the primitive floats of Rocq.  It carries the
    statements about the value of a rounded quotient, where the two models
    part: the double product [x * 100] can fall just below a half that the
    exact product reaches ([binary64_rounds_below_ties]).

    Prices and order totals are exact rationals.  The code adds doubles, so
    a total such as 0.10 + 0.20 is sent as 0.30000000000000004; the
    statements about the checkout compare the two modes, which run the same
    operations in the same order, and do not depend on it. *)

From Stdlib Require Import ZArith QArith Qround Lia Lqa List Permutation Sorted.
From Stdlib Require Import Floats Uint63.
From stdpp Require Import gmap strings pretty sorting.
Import ListNotations.

Local Open Scope Z_scope.

(** ** [metrics.js] *)

Module Metrics.

(** The entries pushed by [recordRequest]. *)
Record RequestSample := {
  method : string;
  path : string;
  duration : Z;
  timestamp : Z;
  statusCode : Z
}.

(** The entries pushed by [recordDbQuery]. *)
Record QuerySample := {
  query : string;
  q_duration : Z;
  q_timestamp : Z
}.

(** The module-level [metrics] object. *)
Record metrics := {
  requests : list RequestSample;
  dbQueries : list QuerySample;
  cacheHits : nat;
  cacheMisses : nat
}.

(** The object as the module creates it. *)
Definition initial : metrics :=
  {| requests := []; dbQueries := []; cacheHits := 0; cacheMisses := 0 |}.

(** [recordRequest(req, res, duration)]; [now] is the value of [Date.now()]. *)
Definition recordRequest (m p : string) (status d now : Z) (s : metrics) : metrics :=
  {| requests := requests s ++
       [{| method := m; path := p; duration := d; timestamp := now;
           statusCode := status |}];
     dbQueries := dbQueries s;
     cacheHits := cacheHits s;
     cacheMisses := cacheMisses s |}.

(** [recordDbQuery(query, duration)]: the text is cut to 100 characters. *)
Definition recordDbQuery (q : string) (d now : Z) (s : metrics) : metrics :=
  {| requests := requests s;
     dbQueries := dbQueries s ++
       [{| query := String.substring 0 100 q; q_duration := d; q_timestamp := now |}];
     cacheHits := cacheHits s;
     cacheMisses := cacheMisses s |}.

Definition recordCacheHit (s : metrics) : metrics :=
  {| requests := requests s; dbQueries := dbQueries s;
     cacheHits := S (cacheHits s); cacheMisses := cacheMisses s |}.

Definition recordCacheMiss (s : metrics) : metrics :=
  {| requests := requests s; dbQueries := dbQueries s;
     cacheHits := cacheHits s; cacheMisses := S (cacheMisses s) |}.

(** [arr[i]] on a JavaScript array: [undefined] ([None]) outside the array. *)
Definition js_index (arr : list Z) (i : Z) : option Z :=
  if i <? 0 then None else arr !! Z.to_nat i.

(** [function percentile(arr, p)]. *)
Definition percentile (arr : list Z) (p : Q) : option Z :=
  if (length arr =? 0)%nat then Some 0
  else
    let idx := Qceiling (p * inject_Z (Z.of_nat (length arr))) - 1 in
    js_index arr (Z.min idx (Z.of_nat (length arr) - 1)).

(** The same index computed in binary64, as JavaScript does: the exact
    ceiling of the double [0.95 * n], minus one.  [0x1.e666666666666p-1] is
    the double that the literal [0.95] denotes. *)
Definition double_ceil (x : float) : option Z :=
  match Prim2SF x with
  | S754_zero _ => Some 0
  | S754_finite s m e =>
      let v := if s then - Z.pos m else Z.pos m in
      Some (if 0 <=? e then v * 2 ^ e else - ((- v) / 2 ^ (- e)))
  | _ => None
  end.

Definition double_index (n : nat) : option Z :=
  option_map (fun c => c - 1)
    (double_ceil
       (PrimFloat.mul 0x1.e666666666666p-1%float
          (PrimFloat.of_uint63 (Uint63.of_Z (Z.of_nat n))))).

(** [Math.round(x)] on an exact value: the nearest integer, halves towards
    plus infinity. *)
Definition Math_round (x : Q) : Z := Qfloor (x + (1 # 2)).

(** [Math.round(x * 100) / 100] in exact arithmetic; [Binary64.round2] is the
    operation on doubles. *)
Definition round2 (x : Q) : Q := inject_Z (Math_round (x * 100)) / 100.

(** [arr.reduce((a, b) => a + b, 0)]. *)
Definition sum_of (arr : list Z) : Z := fold_left Z.add arr 0.

(** [arr.sort((a, b) => a - b)]: ascending numeric order. *)
Definition sort_numeric (arr : list Z) : list Z := merge_sort Z.le arr.

(** The object returned by [calculateStats].  [p95Latency] is [None] when
    JavaScript would produce [NaN] (rounding an [undefined] array slot). *)
Record Stats := {
  requestCount : nat;
  errorCount : nat;
  avgLatency : Q;
  p95Latency : option Q;
  throughput : Q;
  avgDbTime : Q;
  cacheHitRatio : Q
}.

Definition zeroStats : Stats :=
  {| requestCount := 0; errorCount := 0; avgLatency := 0; p95Latency := Some 0%Q;
     throughput := 0; avgDbTime := 0; cacheHitRatio := 0 |}.

Definition Qnat (n : nat) : Q := inject_Z (Z.of_nat n).

(** The throughput block of [calculateStats], in exact arithmetic. *)
Definition throughput_raw (reqs : list RequestSample) : Q :=
  match reqs with
  | first :: _ :: _ =>
      let timeSpan :=
        (inject_Z (timestamp (List.last reqs first) - timestamp first) / 1000)%Q in
      if Qlt_le_dec 0 timeSpan then (Qnat (length reqs) / timeSpan)%Q else 0%Q
  | _ => 0%Q
  end.

Definition calculateStats (s : metrics) : Stats :=
  match requests s with
  | [] => zeroStats
  | _ :: _ =>
      let durations := sort_numeric (map duration (requests s)) in
      let avgLatency := (inject_Z (sum_of durations) / Qnat (length durations))%Q in
      let p95Latency := percentile durations (95 # 100) in
      let dbDurations := map q_duration (dbQueries s) in
      let avgDbTime :=
        if (0 <? length dbDurations)%nat
        then (inject_Z (sum_of dbDurations) / Qnat (length dbDurations))%Q
        else 0%Q in
      let totalCacheOps := (cacheHits s + cacheMisses s)%nat in
      let cacheHitRatio :=
        if (0 <? totalCacheOps)%nat
        then (Qnat (cacheHits s) / Qnat totalCacheOps * 100)%Q
        else 0%Q in
      let throughput := throughput_raw (requests s) in
      let errorCount :=
        length (List.filter (fun r => 400 <=? statusCode r) (requests s)) in
      {| requestCount := length (requests s);
         errorCount := errorCount;
         avgLatency := round2 avgLatency;
         p95Latency := option_map (fun v => round2 (inject_Z v)) p95Latency;
         throughput := round2 throughput;
         avgDbTime := round2 avgDbTime;
         cacheHitRatio := round2 cacheHitRatio |}
  end.

End Metrics.

(** ** [metrics.js] in binary64 *)

Module Binary64.

Import Metrics.

(** The double an integer denotes: the integer itself when it is
    representable (every integer up to 2^53 in absolute value is), the
    nearest double otherwise. *)
Definition of_Z (z : Z) : float := SF2Prim (binary_normalize prec emax z 0 false).

Definition of_nat (n : nat) : float := of_Z (Z.of_nat n).

(** [Math.round(x)] on a double: the integer nearest to the exact value of
    [x], halves towards plus infinity; a double with a non-negative exponent
    is an integer already, and zeros, infinities and [NaN] are returned as
    they are.  The sign of a zero result is that of [x]. *)
Definition Math_round (x : float) : float :=
  match Prim2SF x with
  | S754_finite s m e =>
      if 0 <=? e then x
      else
        let v := if s then Z.neg m else Z.pos m in
        let k := (v + 2 ^ (- e - 1)) / 2 ^ (- e) in
        if s then PrimFloat.opp (of_Z (- k)) else of_Z k
  | _ => x
  end.

(** [Math.round(x * 100) / 100]. *)
Definition round2 (x : float) : float := (Math_round (x * 100) / 100)%float.

(** [arr.reduce((a, b) => a + b, 0)]. *)
Definition sum_of (arr : list Z) : float :=
  fold_left (fun a b => (a + of_Z b)%float) arr 0%float.

(** [function percentile(arr, p)]; [None] is [undefined]. *)
Definition percentile (arr : list Z) (p : float) : option Z :=
  if (length arr =? 0)%nat then Some 0
  else
    match double_ceil (p * of_nat (length arr))%float with
    | Some c => js_index arr (Z.min (c - 1) (Z.of_nat (length arr) - 1))
    | None => None
    end.

(** The number an array slot is read as in arithmetic: [undefined * 100] is
    [NaN]. *)
Definition number (v : option Z) : float :=
  match v with Some z => of_Z z | None => nan end.

(** The object returned by [calculateStats]. *)
Record Stats := {
  requestCount : nat;
  errorCount : nat;
  avgLatency : float;
  p95Latency : float;
  throughput : float;
  avgDbTime : float;
  cacheHitRatio : float
}.

Definition zeroStats : Stats :=
  {| requestCount := 0; errorCount := 0; avgLatency := 0; p95Latency := 0;
     throughput := 0; avgDbTime := 0; cacheHitRatio := 0 |}.

(** The throughput block of [calculateStats].  The difference of two
    timestamps is the double of their exact difference: subtraction is
    correctly rounded and the timestamps are representable. *)
Definition throughput_raw (reqs : list RequestSample) : float :=
  match reqs with
  | first :: _ :: _ =>
      let timeSpan :=
        (of_Z (timestamp (List.last reqs first) - timestamp first) / 1000)%float in
      if (0 <? timeSpan)%float then (of_nat (length reqs) / timeSpan)%float
      else 0%float
  | _ => 0%float
  end.

Definition calculateStats (s : metrics) : Stats :=
  match requests s with
  | [] => zeroStats
  | _ :: _ =>
      let durations := sort_numeric (map duration (requests s)) in
      let avgLatency := (sum_of durations / of_nat (length durations))%float in
      let p95Latency := percentile durations 0x1.e666666666666p-1%float in
      let dbDurations := map q_duration (dbQueries s) in
      let avgDbTime :=
        if (0 <? length dbDurations)%nat
        then (sum_of dbDurations / of_nat (length dbDurations))%float
        else 0%float in
      let totalCacheOps := (cacheHits s + cacheMisses s)%nat in
      let cacheHitRatio :=
        if (0 <? totalCacheOps)%nat
        then (of_nat (cacheHits s) / of_nat totalCacheOps * 100)%float
        else 0%float in
      let throughput := throughput_raw (requests s) in
      let errorCount :=
        length (List.filter (fun r => 400 <=? statusCode r) (requests s)) in
      {| requestCount := length (requests s);
         errorCount := errorCount;
         avgLatency := round2 avgLatency;
         p95Latency := round2 (number p95Latency);
         throughput := round2 throughput;
         avgDbTime := round2 avgDbTime;
         cacheHitRatio := round2 cacheHitRatio |}
  end.

End Binary64.

(** ** Mode selection: [process.env] *)

Module Config.

(** [process.env]: a finite map from variable names to their text. *)
Abbreviation Env := (gmap string string).

(** [process.env.NAME === value]. *)
Definition env_is (env : Env) (name value : string) : bool :=
  bool_decide (env !! name = Some value).

(** [redis.js] line 7 and [recommendations.js] line 7. *)
Definition ENABLE_REDIS_CACHE (env : Env) : bool :=
  env_is env "ENABLE_REDIS_CACHE" "1" || env_is env "APP_VERSION" "optimized".

(** [dashboard.js] line 6. *)
Definition ENABLE_BATCH_DASHBOARD (env : Env) : bool :=
  env_is env "ENABLE_BATCH_DASHBOARD" "1" || env_is env "APP_VERSION" "optimized".

(** [products.js] line 7. *)
Definition ENABLE_OPT_SEARCH (env : Env) : bool :=
  env_is env "ENABLE_OPT_SEARCH" "1" || env_is env "APP_VERSION" "optimized".

(** [process.env.APP_VERSION || 'baseline']: an unset or empty variable is
    falsy. *)
Definition APP_VERSION (env : Env) : string :=
  match env !! "APP_VERSION" with
  | Some v => if bool_decide (v = "") then "baseline" else v
  | None => "baseline"
  end.

(** The test [APP_VERSION === 'optimized'] that selects the checkout route:
    the write path has no switch of its own. *)
Definition checkout_is_optimized (env : Env) : bool :=
  bool_decide (APP_VERSION env = "optimized").

End Config.

(** ** The data store, the cache and the request handlers *)

Module Routes.

Import Metrics Config.

(** JSON values: request and response bodies, cached text. *)
#[warnings="-register-all"] Inductive Json :=
| JNull
| JBool (b : bool)
| JNum (q : Q)
| JStr (s : string)
| JArr (l : list Json)
| JObj (fields : list (string * Json)).

(** What [res.status(..).json(..)] sends. *)
Record Response := { status : Z; body : Json }.

(** Rows of the three tables the handlers touch. *)
Record Product := { product_id : Z; product_price : Q }.
Record Order := { order_id : Z; user_id : Z; total_amount : Q; order_status : string }.
Record OrderItem := {
  item_order_id : Z; item_product_id : Z; item_quantity : Z; item_price : Q
}.

Record Db := {
  products : list Product;
  orders : list Order;
  order_items : list OrderItem
}.

(** A row of the recommendations query. *)
Record ProductRow := {
  row_id : Z; row_name : string; row_price : Q; row_category_id : Z;
  relevance_score : Q; popularity : Z
}.

(** A value held by the Redis server together with its expiry instant. *)
Record CacheEntry := { cached_value : Json; expires_at : Z }.

(** Everything a handler can read or change.  [db] is the committed content
    of the tables and [txn] the content seen by the statements of the open
    transaction of the checked-out client; the sequence behind [orders.id] is
    not transactional.  [faults k] tells whether the [k]-th awaited round-trip
    of the process rejects (connection loss, constraint violation, timeout)
    and [latency k] how many milliseconds it takes; [trips] counts the
    round-trips awaited so far and [now] is the clock [Date.now()] reads. *)
Record World := {
  db : Db;
  txn : option Db;
  orders_id_seq : Z;
  redis_store : gmap string CacheEntry;
  redis_ready : bool;
  collected : metrics;
  now : Z;
  faults : nat -> bool;
  latency : nat -> Z;
  trips : nat
}.

Definition set_db (d : Db) (w : World) : World :=
  {| db := d; txn := txn w; orders_id_seq := orders_id_seq w;
     redis_store := redis_store w; redis_ready := redis_ready w;
     collected := collected w; now := now w; faults := faults w;
     latency := latency w; trips := trips w |}.

Definition set_txn (t : option Db) (w : World) : World :=
  {| db := db w; txn := t; orders_id_seq := orders_id_seq w;
     redis_store := redis_store w; redis_ready := redis_ready w;
     collected := collected w; now := now w; faults := faults w;
     latency := latency w; trips := trips w |}.

Definition set_orders_id_seq (n : Z) (w : World) : World :=
  {| db := db w; txn := txn w; orders_id_seq := n;
     redis_store := redis_store w; redis_ready := redis_ready w;
     collected := collected w; now := now w; faults := faults w;
     latency := latency w; trips := trips w |}.

Definition set_redis_store (s : gmap string CacheEntry) (w : World) : World :=
  {| db := db w; txn := txn w; orders_id_seq := orders_id_seq w;
     redis_store := s; redis_ready := redis_ready w;
     collected := collected w; now := now w; faults := faults w;
     latency := latency w; trips := trips w |}.

Definition set_redis_ready (b : bool) (w : World) : World :=
  {| db := db w; txn := txn w; orders_id_seq := orders_id_seq w;
     redis_store := redis_store w; redis_ready := b;
     collected := collected w; now := now w; faults := faults w;
     latency := latency w; trips := trips w |}.

Definition set_collected (m : metrics) (w : World) : World :=
  {| db := db w; txn := txn w; orders_id_seq := orders_id_seq w;
     redis_store := redis_store w; redis_ready := redis_ready w;
     collected := m; now := now w; faults := faults w;
     latency := latency w; trips := trips w |}.

Definition set_now (t : Z) (w : World) : World :=
  {| db := db w; txn := txn w; orders_id_seq := orders_id_seq w;
     redis_store := redis_store w; redis_ready := redis_ready w;
     collected := collected w; now := t; faults := faults w;
     latency := latency w; trips := trips w |}.

Definition set_trips (n : nat) (w : World) : World :=
  {| db := db w; txn := txn w; orders_id_seq := orders_id_seq w;
     redis_store := redis_store w; redis_ready := redis_ready w;
     collected := collected w; now := now w; faults := faults w;
     latency := latency w; trips := n |}.

(** *** Asynchronous code: state passing with exceptions *)

Inductive Outcome (A : Type) :=
| Returned (a : A)
| Thrown (err : string).
Arguments Returned {A} a.
Arguments Thrown {A} err.

Definition M (A : Type) : Type := World -> Outcome A * World.

Definition ret {A} (a : A) : M A := fun w => (Returned a, w).

Definition bind {A B} (c : M A) (k : A -> M B) : M B := fun w =>
  match c w with
  | (Returned a, w') => k a w'
  | (Thrown e, w') => (Thrown e, w')
  end.

Definition throw {A} (err : string) : M A := fun w => (Thrown err, w).

(** [try { c } catch (error) { h }]. *)
Definition try_catch {A} (c : M A) (h : string -> M A) : M A := fun w =>
  match c w with
  | (Returned a, w') => (Returned a, w')
  | (Thrown e, w') => h e w'
  end.

Notation "'let*' x := c 'in' k" := (bind c (fun x => k))
  (at level 10, x name, c at level 100, k at level 200).

(** The passing of one round-trip: the clock advances by its latency. *)
Definition tick (w : World) : World :=
  set_now (now w + latency w (trips w)) (set_trips (S (trips w)) w).

(** [await op]: one round-trip to a backend.  It rejects when the fault plan
    says so, leaving the backend as it was, and runs [op] otherwise. *)
Definition await {A} (op : M A) : M A := fun w =>
  if faults w (trips w) then (Thrown "rejected", tick w) else op (tick w).

(** Synchronous reads and writes of process state. *)
Definition Date_now : M Z := fun w => (Returned (now w), w).

Definition record (f : metrics -> metrics) : M unit := fun w =>
  (Returned tt, set_collected (f (collected w)) w).

(** *** PostgreSQL *)

(** The tables a statement of the checked-out client works on. *)
Definition client_tables (w : World) : Db :=
  match txn w with Some t => t | None => db w end.

Definition set_client_tables (d : Db) (w : World) : World :=
  match txn w with Some _ => set_txn (Some d) w | None => set_db d w end.

(** [client.query('BEGIN')], ['COMMIT'], ['ROLLBACK']. *)
Definition client_BEGIN : M unit :=
  await (fun w =>
    (Returned tt, match txn w with Some _ => w | None => set_txn (Some (db w)) w end)).

Definition client_COMMIT : M unit :=
  await (fun w =>
    (Returned tt, match txn w with Some t => set_txn None (set_db t w) | None => w end)).

Definition client_ROLLBACK : M unit :=
  await (fun w => (Returned tt, set_txn None w)).

(** [SELECT price FROM products WHERE id = $1] through the pool. *)
Definition pool_select_price (id : Z) : M (list Q) :=
  await (fun w =>
    (Returned (map product_price
                 (List.filter (fun p => product_id p =? id) (products (db w)))), w)).

(** [SELECT id, price FROM products WHERE id IN (...)] on the client. *)
Definition client_select_products (ids : list Z) : M (list Product) :=
  await (fun w =>
    (Returned (List.filter (fun p => bool_decide (product_id p ∈ ids))
                 (products (client_tables w))), w)).

Definition add_order (o : Order) (d : Db) : Db :=
  {| products := products d; orders := orders d ++ [o]; order_items := order_items d |}.

Definition add_order_items (l : list OrderItem) (d : Db) : Db :=
  {| products := products d; orders := orders d; order_items := order_items d ++ l |}.

(** [INSERT INTO orders (user_id, total_amount, status) ... RETURNING id]. *)
Definition pool_insert_order (userId : Z) (total : Q) (st : string) : M Z :=
  await (fun w =>
    let oid := orders_id_seq w in
    let o := {| order_id := oid; user_id := userId; total_amount := total;
                order_status := st |} in
    (Returned oid, set_db (add_order o (db w)) (set_orders_id_seq (oid + 1) w))).

Definition client_insert_order (userId : Z) (total : Q) (st : string) : M Z :=
  await (fun w =>
    let oid := orders_id_seq w in
    let o := {| order_id := oid; user_id := userId; total_amount := total;
                order_status := st |} in
    (Returned oid,
     set_client_tables (add_order o (client_tables w)) (set_orders_id_seq (oid + 1) w))).

(** [INSERT INTO order_items (order_id, product_id, quantity, price)]: one
    row through the pool, or one statement for all rows on the client. *)
Definition pool_insert_order_item (i : OrderItem) : M unit :=
  await (fun w => (Returned tt, set_db (add_order_items [i] (db w)) w)).

Definition client_insert_order_items (l : list OrderItem) : M unit :=
  await (fun w =>
    (Returned tt, set_client_tables (add_order_items l (client_tables w)) w)).

(** [pool.connect()]: checks a client out of the pool. *)
Definition pool_connect : M unit := await (ret tt).

(** *** Redis *)

(** [isRedisAvailable()]: the client exists (it is created only when the
    cache switch resolves to true) and reports itself ready. *)
Definition isRedisAvailable (env : Env) : M bool := fun w =>
  (Returned (ENABLE_REDIS_CACHE env && redis_ready w), w).

(** [redis.get(key)]: [null] for a missing or expired key. *)
Definition redis_get (key : string) : M (option Json) :=
  await (fun w =>
    (Returned match redis_store w !! key with
              | Some e => if now w <? expires_at e then Some (cached_value e) else None
              | None => None
              end, w)).

(** [redis.setEx(key, seconds, value)]. *)
Definition redis_setEx (key : string) (seconds : Z) (v : Json) : M unit :=
  await (fun w =>
    (Returned tt,
     set_redis_store
       (<[key := {| cached_value := v; expires_at := now w + seconds * 1000 |}]>
          (redis_store w)) w)).

(** [redis.del(key)]. *)
Definition redis_del (key : string) : M unit :=
  await (fun w => (Returned tt, set_redis_store (delete key (redis_store w)) w)).

(** The template [`recommendations:${userId}`], used by both routes. *)
Definition cacheKey (userId : Z) : string := "recommendations:" +:+ pretty userId.

(** *** [routes/checkout.js] *)

(** The request body [{ userId, items }]: [None] stands for a field that is
    absent (or, for [items], not an array). *)
Record Item := { productId : Z; quantity : Z }.
Record CheckoutBody := { userId : option Z; items : option (list Item) }.

(** The guard [!userId || !items || !Array.isArray(items) || items.length === 0]:
    the accepted user id and items, if any. *)
Definition accepted (b : CheckoutBody) : option (Z * list Item) :=
  match userId b, items b with
  | Some u, Some (i :: l) => if u =? 0 then None else Some (u, i :: l)
  | _, _ => None
  end.

Definition error_body (msg : string) : Json := JObj [("error", JStr msg)].

Definition order_body (orderId : Z) (total : Q) : Json :=
  JObj [("orderId", JNum (inject_Z orderId)); ("total", JNum total);
        ("status", JStr "pending")].

Definition not_found (id : Z) : string := "Product " +:+ pretty id +:+ " not found".

(** Baseline, first loop: one price lookup per item; a missing product ends
    the handler with a 400 response ([inl]), else the total is returned. *)
Fixpoint baseline_total (l : list Item) (total : Q) : M (Response + Q) :=
  match l with
  | [] => ret (inr total)
  | item :: rest =>
      let* rows := pool_select_price (productId item) in
      match rows with
      | [] => ret (inl {| status := 400; body := error_body (not_found (productId item)) |})
      | price :: _ =>
          baseline_total rest (total + price * inject_Z (quantity item))%Q
      end
  end.

(** Baseline, second loop: the price is read again, then the row is inserted.
    [productResult.rows[0].price] throws a [TypeError] on an empty result. *)
Fixpoint baseline_insert_items (orderId : Z) (l : list Item) : M unit :=
  match l with
  | [] => ret tt
  | item :: rest =>
      let* rows := pool_select_price (productId item) in
      match rows with
      | [] => throw "TypeError"
      | price :: _ =>
          let* _ := pool_insert_order_item
            {| item_order_id := orderId; item_product_id := productId item;
               item_quantity := quantity item; item_price := price |} in
          baseline_insert_items orderId rest
      end
  end.

Definition checkout_baseline (b : CheckoutBody) : M Response :=
  match accepted b with
  | None => ret {| status := 400; body := error_body "Invalid request" |}
  | Some (uid, l) =>
      try_catch
        (let* r := baseline_total l 0%Q in
         match r with
         | inl early => ret early
         | inr total =>
             let* orderId := pool_insert_order uid total "pending" in
             let* _ := baseline_insert_items orderId l in
             ret {| status := 200; body := order_body orderId total |}
         end)
        (fun _ => ret {| status := 500; body := error_body "Internal server error" |})
  end.

(** [new Map(rows.map(p => [p.id, parseFloat(p.price)]))]: a later pair
    replaces an earlier one with the same key. *)
Definition productMap_of (rows : list Product) : gmap Z Q :=
  fold_left (fun m p => <[product_id p := product_price p]> m) rows ∅.

(** The loop that throws on the first item absent from the map. *)
Fixpoint validate_products (m : gmap Z Q) (l : list Item) : M unit :=
  match l with
  | [] => ret tt
  | item :: rest =>
      match m !! productId item with
      | None => throw (not_found (productId item))
      | Some _ => validate_products m rest
      end
  end.

(** [productMap.get(id)] read as a number; the loop above has already thrown
    when a key is absent. *)
Definition productMap_get (m : gmap Z Q) (id : Z) : Q := default 0%Q (m !! id).

Definition optimized_total (m : gmap Z Q) (l : list Item) : Q :=
  fold_left
    (fun sum item => (sum + productMap_get m (productId item) * inject_Z (quantity item))%Q)
    l 0%Q.

Definition optimized_rows (m : gmap Z Q) (orderId : Z) (l : list Item) : list OrderItem :=
  map (fun item =>
         {| item_order_id := orderId; item_product_id := productId item;
            item_quantity := quantity item;
            item_price := productMap_get m (productId item) |}) l.

(** The body of the [try] block of the optimized handler. *)
Definition checkout_optimized_try (env : Env) (uid : Z) (l : list Item) : M Response :=
  let* _ := client_BEGIN in
  let* productsResult := client_select_products (map productId l) in
  let productMap := productMap_of productsResult in
  let* _ := validate_products productMap l in
  let total := optimized_total productMap l in
  let* orderId := client_insert_order uid total "pending" in
  let* _ := client_insert_order_items (optimized_rows productMap orderId l) in
  let* _ := client_COMMIT in
  let* ready := isRedisAvailable env in
  let* _ := (if ready : bool then redis_del (cacheKey uid) else ret tt) in
  ret {| status := 200; body := order_body orderId total |}.

(** The optimized handler.  [client.release()] of the [finally] block and the
    [console.error] calls do not touch the modelled state. *)
Definition checkout_optimized (env : Env) (b : CheckoutBody) : M Response :=
  match accepted b with
  | None => ret {| status := 400; body := error_body "Invalid request" |}
  | Some (uid, l) =>
      let* _ := pool_connect in
      try_catch (checkout_optimized_try env uid l)
        (fun _ =>
           let* _ := client_ROLLBACK in
           ret {| status := 500; body := error_body "Internal server error" |})
  end.

(** The route that [checkout.js] registers for [POST /checkout]. *)
Definition checkout (env : Env) : CheckoutBody -> M Response :=
  if checkout_is_optimized env then checkout_optimized env else checkout_baseline.

(** *** [routes/recommendations.js] *)

Section Recommendations.

(** The rows PostgreSQL answers to the recommendations query for a user, and
    the text [new Date(t).toISOString()] of an instant: both belong to the
    platform and are left open. *)
Variable sql_recommendations : Db -> Z -> list ProductRow.
Variable toISOString : Z -> string.

(** The query text of both branches. *)
Definition recommendations_sql : string := "
        SELECT 
          p.id,
          p.name,
          p.price,
          p.category_id,
          COALESCE(SUM(up.preference_score), 0) as relevance_score,
          COUNT(DISTINCT oi.order_id) as popularity
        FROM products p
        LEFT JOIN user_preferences up ON p.category_id = up.category_id AND up.user_id = $1
        LEFT JOIN order_items oi ON p.id = oi.product_id
        LEFT JOIN orders o ON oi.order_id = o.id
        GROUP BY p.id, p.name, p.price, p.category_id
        ORDER BY relevance_score DESC, popularity DESC
        LIMIT 20
      ".

(** [pool.query(query, [userId])]. *)
Definition pool_recommendations (uid : Z) : M (list ProductRow) :=
  await (fun w => (Returned (sql_recommendations (db w) uid), w)).

(** [{ ...product, score: ... }]. *)
Definition with_score (product : ProductRow) : Json :=
  JObj [("id", JNum (inject_Z (row_id product)));
        ("name", JStr (row_name product));
        ("price", JNum (row_price product));
        ("category_id", JNum (inject_Z (row_category_id product)));
        ("relevance_score", JNum (relevance_score product));
        ("popularity", JNum (inject_Z (popularity product)));
        ("score", JNum (relevance_score product
                        + inject_Z (popularity product) * (1 # 10))%Q)].

(** The timed query of either branch, with its [recordDbQuery] call. *)
Definition timed_query (uid : Z) : M (list ProductRow) :=
  let* dbStart := Date_now in
  let* result := pool_recommendations uid in
  let* dbEnd := Date_now in
  let* stamp := Date_now in
  let* _ := record (recordDbQuery recommendations_sql (dbEnd - dbStart) stamp) in
  ret result.

(** The branch taken when [ENABLE_REDIS_CACHE] is true.  The cache holds the
    text [JSON.stringify(response)] and a hit sends [JSON.parse] of it: the
    store is modelled as holding the parsed value. *)
Definition recommendations_cached (env : Env) (uid : Z) : M Response :=
  let key := cacheKey uid in
  try_catch
    (let* ready := isRedisAvailable env in
     let* hit :=
       (if ready : bool then
          let* cached := redis_get key in
          match cached with
          | Some v => let* _ := record recordCacheHit in ret (Some v)
          | None => let* _ := record recordCacheMiss in ret None
          end
        else ret None) in
     match hit with
     | Some v => ret {| status := 200; body := v |}
     | None =>
         let* result := timed_query uid in
         let recommendations := map with_score result in
         let* generatedAt := Date_now in
         let response :=
           JObj [("recommendations", JArr recommendations);
                 ("generatedAt", JStr (toISOString generatedAt));
                 ("cached", JBool false)] in
         let* ready' := isRedisAvailable env in
         let* _ := (if ready' : bool then redis_setEx key 300 response else ret tt) in
         ret {| status := 200; body := response |}
     end)
    (fun _ => ret {| status := 500; body := error_body "Internal server error" |}).

(** The branch taken when [ENABLE_REDIS_CACHE] is false. *)
Definition recommendations_baseline (uid : Z) : M Response :=
  try_catch
    (let* result := timed_query uid in
     let recommendations := map with_score result in
     let* generatedAt := Date_now in
     ret {| status := 200;
            body := JObj [("recommendations", JArr recommendations);
                          ("generatedAt", JStr (toISOString generatedAt))] |})
    (fun _ => ret {| status := 500; body := error_body "Internal server error" |}).

(** The route registered for [GET /recommendations/:userId]. *)
Definition recommendations (env : Env) : Z -> M Response :=
  if ENABLE_REDIS_CACHE env then recommendations_cached env
  else recommendations_baseline.

End Recommendations.

End Routes.

Import Metrics Config Routes.

(** ** The claims, in the specification's words *)

Module Claims.

(** Throughput as specified: (sample count - 1) over the elapsed seconds
    between the first and the last sample, 0 below two samples or when no
    time has elapsed. *)
Definition throughput_claimed (reqs : list RequestSample) : Q :=
  match reqs with
  | first :: _ :: _ =>
      let elapsed := timestamp (List.last reqs first) - timestamp first in
      if elapsed =? 0 then 0%Q
      else ((Qnat (length reqs) - 1) / (inject_Z elapsed / 1000))%Q
  | _ => 0%Q
  end.

(** Hit ratio as specified: hits / (hits + misses) x 100 to two decimals,
    0 without cache operations. *)
Definition hit_ratio_claimed (hits misses : nat) : Q :=
  if (hits + misses =? 0)%nat then 0%Q
  else round2 (Qnat hits / Qnat (hits + misses) * 100)%Q.

(** The nearest-rank index of the 95th percentile among [n] values, and the
    clamping of an index to a range. *)
Definition rank95 (n : nat) : Z := Qceiling ((95 # 100) * Qnat n) - 1.
Definition clamp (lo hi x : Z) : Z := Z.max lo (Z.min x hi).

(** The blanket mode: what every capability is when no switch is set. *)
Definition mode_default (env : Env) : bool := env_is env "APP_VERSION" "optimized".

(** The reading of a capability switch that is set: ['1'] enables, any other
    text ('0' in the scripts) disables. *)
Definition override_value (v : string) : bool := bool_decide (v = "1").

(** Precedence as the specification words it: a switch that is set decides,
    the blanket mode decides otherwise. *)
Definition resolve_with_precedence (env : Env) (name : string) : bool :=
  match env !! name with
  | Some v => override_value v
  | None => mode_default env
  end.

(** The capabilities of the mode selector, the switch of each and what the
    code resolves it to. *)
Inductive Capability := RedisCache | BatchDashboard | OptSearch | BatchWrite.

Definition switch (c : Capability) : option string :=
  match c with
  | RedisCache => Some "ENABLE_REDIS_CACHE"
  | BatchDashboard => Some "ENABLE_BATCH_DASHBOARD"
  | OptSearch => Some "ENABLE_OPT_SEARCH"
  | BatchWrite => None
  end.

Definition resolved (c : Capability) (env : Env) : bool :=
  match c with
  | RedisCache => ENABLE_REDIS_CACHE env
  | BatchDashboard => ENABLE_BATCH_DASHBOARD env
  | OptSearch => ENABLE_OPT_SEARCH env
  | BatchWrite => checkout_is_optimized env
  end.

(** The naive write as specified: the rows of the first two items are in the
    table after the request. *)
Definition first_two_persisted (l : list Item) (before after : Db) : Prop :=
  map item_product_id (order_items after) =
  map item_product_id (order_items before) ++ map productId (take 2 l).

End Claims.

(** ** Vocabulary of the statements about the handlers *)

Module Runs.

(** Whether a product with this id is in the table, and whether every item
    of a list names such a product. *)
Definition has_product (d : Db) (id : Z) : bool :=
  existsb (fun p => product_id p =? id) (products d).

Definition all_products_exist (d : Db) (l : list Item) : bool :=
  forallb (fun item => has_product d (productId item)) l.

(** The price map the optimized handler builds for a list of items, and the
    order header, rows and tables it commits from world [w]. *)
Definition selected (d : Db) (l : list Item) : gmap Z Q :=
  productMap_of
    (List.filter (fun p => bool_decide (product_id p ∈ map productId l)) (products d)).

Definition placed_order (w : World) (uid : Z) (l : list Item) : Order :=
  {| order_id := orders_id_seq w; user_id := uid;
     total_amount := optimized_total (selected (db w) l) l;
     order_status := "pending" |}.

Definition placed_rows (w : World) (l : list Item) : list OrderItem :=
  optimized_rows (selected (db w) l) (orders_id_seq w) l.

Definition committed (w : World) (uid : Z) (l : list Item) : Db :=
  add_order_items (placed_rows w l) (add_order (placed_order w uid l) (db w)).

(** What [redis.get] answers in world [w]. *)
Definition live_entry (w : World) (key : string) : option Json :=
  match redis_store w !! key with
  | Some e => if now w <? expires_at e then Some (cached_value e) else None
  | None => None
  end.

(** The fields both recommendation branches compute from the rows the
    query answers on tables [d], at instant [t]. *)
Definition computed_fields (sql : Db -> Z -> list ProductRow) (iso : Z -> string)
    (d : Db) (uid t : Z) : list (string * Json) :=
  [("recommendations", JArr (map with_score (sql d uid)));
   ("generatedAt", JStr (iso t))].

Definition internal_error : Response :=
  {| status := 500; body := error_body "Internal server error" |}.

End Runs.

(** ** Concrete states used by the examples *)

Module Samples.

Definition sample (d t code : Z) : RequestSample :=
  {| method := "GET"; path := "/health"; duration := d; timestamp := t;
     statusCode := code |}.

Definition two_requests : metrics :=
  {| requests := [sample 5 0 200; sample 7 1000 200]; dbQueries := [];
     cacheHits := 0; cacheMisses := 0 |}.

Definition one_request : metrics :=
  {| requests := [sample 5 0 200]; dbQueries := []; cacheHits := 3; cacheMisses := 7 |}.

Definition no_request : metrics :=
  {| requests := [];
     dbQueries := [{| query := "SELECT 1"; q_duration := 12; q_timestamp := 0 |}];
     cacheHits := 3; cacheMisses := 7 |}.

(** Fifty requests with the durations 50, 49, ..., 1. *)
Definition fifty : metrics :=
  {| requests := map (fun i => sample (51 - Z.of_nat i) (Z.of_nat i) 200) (seq 1 50);
     dbQueries := []; cacheHits := 0; cacheMisses := 0 |}.

Definition product (i : Z) (p : Q) : Product :=
  {| product_id := i; product_price := p |}.

Definition item (i q : Z) : Item := {| productId := i; quantity := q |}.

(** A shop without product 3 and without orders. *)
Definition shop : Db :=
  {| products := [product 1 10; product 2 20; product 4 40; product 5 50];
     orders := []; order_items := [] |}.

Definition quiet : nat -> bool := fun _ => false.
Definition order_insert_rejects : nat -> bool := fun k => (k =? 3)%nat.
Definition third_insert_rejects : nat -> bool := fun k => (k =? 11)%nat.

Definition world_with (store : gmap string CacheEntry) (ready : bool)
    (plan : nat -> bool) : World :=
  {| db := shop; txn := None; orders_id_seq := 1; redis_store := store;
     redis_ready := ready; collected := initial; now := 1000;
     faults := plan; latency := fun _ => 5; trips := 0 |}.

Definition stale_entry : CacheEntry :=
  {| cached_value :=
       JObj [("recommendations", JArr []); ("generatedAt", JStr "900");
             ("cached", JBool false)];
     expires_at := 300900 |}.

Definition world0 : World := world_with ∅ true quiet.
Definition world_order_fault : World := world_with ∅ true order_insert_rejects.
Definition world_item_fault : World := world_with ∅ true third_insert_rejects.
Definition world_redis_down : World :=
  world_with {[cacheKey 7 := stale_entry]} false quiet.
Definition world_cached : World :=
  world_with {[cacheKey 7 := stale_entry]} true quiet.

Definition five_items : list Item :=
  [item 1 1; item 2 1; item 3 1; item 4 1; item 5 1].
Definition five_items_body : CheckoutBody :=
  {| userId := Some 7; items := Some five_items |}.
Definition two_items_body : CheckoutBody :=
  {| userId := Some 7; items := Some [item 1 1; item 2 3] |}.
Definition all_present_body : CheckoutBody :=
  {| userId := Some 7;
     items := Some [item 1 1; item 2 1; item 4 1; item 5 1; item 1 2] |}.

Definition env_optimized : Env := {["APP_VERSION" := "optimized"]}.
Definition env_baseline : Env := {["APP_VERSION" := "baseline"]}.
Definition env_cache_off : Env :=
  {["APP_VERSION" := "optimized"; "ENABLE_REDIS_CACHE" := "0"]}.

(** An instance of the two platform functions of the recommendations route:
    one row whose popularity is the number of order rows in the tables, and
    the decimal text of an instant. *)
Definition sample_rows (d : Db) (uid : Z) : list ProductRow :=
  [{| row_id := 1; row_name := "Widget"; row_price := 10; row_category_id := 2;
      relevance_score := 1 # 2;
      popularity := Z.of_nat (length (order_items d)) |}].

Definition sample_iso (t : Z) : string := pretty t.

(** Seven requests over 2240 ms, with 23 hits and 137 misses counted. *)
Definition seven_requests : metrics :=
  {| requests := map (fun t => sample 5 t 200) [0; 400; 800; 1200; 1600; 2000; 2240];
     dbQueries := []; cacheHits := 23; cacheMisses := 137 |}.

(** The items insert (fifth round-trip) is rejected; so is, in the second
    plan, the ROLLBACK that follows it. *)
Definition items_insert_rejects : nat -> bool := fun k => (k =? 4)%nat.
Definition rollback_rejects_too : nat -> bool :=
  fun k => (k =? 4)%nat || (k =? 5)%nat.

Definition world_items_fault : World := world_with ∅ true items_insert_rejects.
Definition world_rollback_fault : World := world_with ∅ true rollback_rejects_too.

(** A world whose round-trips take less than a millisecond: the clock reads
    1000 throughout a request. *)
Definition world_instant : World :=
  {| db := shop; txn := None; orders_id_seq := 1; redis_store := ∅;
     redis_ready := true; collected := initial; now := 1000;
     faults := quiet; latency := fun _ => 0; trips := 0 |}.

End Samples.

Import Claims Runs Samples.

(** ** The request middleware of [metrics.js] and histories of recordings *)

Module Middleware.

(** [metricsMiddleware]: what the ['finish'] listener records for a request
    that entered the middleware at instant [start]; [finish] is the instant
    read by the listener, [stamp] the one read by [recordRequest]. *)
Definition metricsMiddleware (m p : string) (status start finish stamp : Z)
    (s : metrics) : metrics :=
  recordRequest m p status (finish - start) stamp s.

(** What can happen to the collector: a response finishes, a handler reports
    a query, a cache lookup hits or misses. *)
Inductive Event :=
| Finished (m p : string) (status start finish stamp : Z)
| Queried (q : string) (d t : Z)
| Hit
| Miss.

Definition apply_event (s : metrics) (e : Event) : metrics :=
  match e with
  | Finished m p status start finish stamp =>
      metricsMiddleware m p status start finish stamp s
  | Queried q d t => recordDbQuery q d t s
  | Hit => recordCacheHit s
  | Miss => recordCacheMiss s
  end.

(** The collector after a history of events. *)
Definition replay (evs : list Event) (s : metrics) : metrics :=
  fold_left apply_event evs s.

End Middleware.

(** ** [routes/products.js] *)

Module Products.

(** The query string of [GET /products]: the text of [search], and what
    [parseInt] makes of [page] and [limit] ([None] for [NaN], which is also
    what an absent parameter parses to). *)
Record ProductsQuery := {
  search : option string;
  page : option Z;
  limit : option Z
}.

(** [req.query.search || '']. *)
Definition search_param (q : ProductsQuery) : string := default "" (search q).

(** [parseInt(x) || d]: [NaN] and 0 are falsy. *)
Definition or_default (x : option Z) (d : Z) : Z :=
  match x with
  | Some v => if v =? 0 then d else v
  | None => d
  end.

Definition page_param (q : ProductsQuery) : Z := or_default (page q) 1.
Definition limit_param (q : ProductsQuery) : Z := or_default (limit q) 20.
Definition offset_param (q : ProductsQuery) : Z := (page_param q - 1) * limit_param q.

(** [Math.ceil(total / limit)], as an exact quotient. *)
Definition total_pages (total lim : Z) : Z := Qceiling (inject_Z total / inject_Z lim).

Definition search_sql : string := "
        SELECT 
          p.id,
          p.name,
          p.price,
          p.category_id,
          p.stock_quantity,
          c.name as category_name
        FROM products p
        JOIN categories c ON p.category_id = c.id
        WHERE to_tsvector('english', p.name || ' ' || COALESCE(p.description, '')) @@ plainto_tsquery('english', $1)
           OR p.name ILIKE $2
        ORDER BY p.created_at DESC
        LIMIT $3 OFFSET $4
      ".

Definition like_sql : string := "
        SELECT p.*, c.name as category_name, c.parent_id
        FROM products p
        JOIN categories c ON p.category_id = c.id
        WHERE p.name LIKE $1 OR p.description LIKE $1
        ORDER BY p.created_at DESC
      ".

(** The pattern [`%${search}%`]. *)
Definition pattern (s : string) : string := "%" +:+ s +:+ "%".

Section Handlers.

(** What PostgreSQL answers to the page query (search text, pattern, limit,
    offset), to the count query and to the baseline query: left open.  A
    statement the server refuses (a negative [LIMIT], say) is a rejected
    round-trip of the fault plan. *)
Variable sql_page : Db -> string -> string -> Z -> Z -> list Json.
Variable sql_count : Db -> string -> string -> Z.
Variable sql_like : Db -> string -> list Json.

(** The handler registered when [ENABLE_OPT_SEARCH] is true. *)
Definition products_optimized (q : ProductsQuery) : M Response :=
  let search := search_param q in
  let page := page_param q in
  let limit := limit_param q in
  let offset := offset_param q in
  try_catch
    (let* dbStart := Date_now in
     let* result :=
       await (fun w => (Returned (sql_page (db w) search (pattern search) limit offset), w)) in
     let* dbEnd := Date_now in
     let* stamp := Date_now in
     let* _ := record (recordDbQuery search_sql (dbEnd - dbStart) stamp) in
     let* total :=
       await (fun w => (Returned (sql_count (db w) search (pattern search)), w)) in
     ret {| status := 200;
            body := JObj [("products", JArr result);
                          ("pagination",
                           JObj [("page", JNum (inject_Z page));
                                 ("limit", JNum (inject_Z limit));
                                 ("total", JNum (inject_Z total));
                                 ("totalPages",
                                  JNum (inject_Z (total_pages total limit)))])] |})
    (fun _ => ret {| status := 500; body := error_body "Internal server error" |}).

(** The handler registered when [ENABLE_OPT_SEARCH] is false. *)
Definition products_baseline (q : ProductsQuery) : M Response :=
  let search := search_param q in
  try_catch
    (let* dbStart := Date_now in
     let* result := await (fun w => (Returned (sql_like (db w) (pattern search)), w)) in
     let* dbEnd := Date_now in
     let* stamp := Date_now in
     let* _ := record (recordDbQuery like_sql (dbEnd - dbStart) stamp) in
     ret {| status := 200;
            body := JObj [("products", JArr result);
                          ("count", JNum (Qnat (length result)))] |})
    (fun _ => ret {| status := 500; body := error_body "Internal server error" |}).

(** The route registered for [GET /products]. *)
Definition products_route (env : Env) : ProductsQuery -> M Response :=
  if ENABLE_OPT_SEARCH env then products_optimized else products_baseline.

End Handlers.

End Products.

Import Middleware Products.

(** ** Vocabulary of the statements about whole runs *)

Module Ledger.

(** How many recorded requests took at most [v] milliseconds, and how many
    at least [v]. *)
Definition at_most (v : Z) (s : metrics) : nat :=
  length (filter (fun d => d <= v) (map duration (requests s))).

Definition at_least (v : Z) (s : metrics) : nat :=
  length (filter (fun d => v <= d) (map duration (requests s))).

(** The request samples a history leaves, and its numbers of hits, misses
    and reported queries. *)
Definition finished_samples (evs : list Event) : list RequestSample :=
  flat_map (fun e => match e with
                     | Finished m p status start finish stamp =>
                         [{| method := m; path := p; duration := finish - start;
                             timestamp := stamp; statusCode := status |}]
                     | _ => []
                     end) evs.

Definition count_hits (evs : list Event) : nat :=
  length (List.filter (fun e => match e with Hit => true | _ => false end) evs).

Definition count_misses (evs : list Event) : nat :=
  length (List.filter (fun e => match e with Miss => true | _ => false end) evs).

Definition count_queries (evs : list Event) : nat :=
  length (List.filter (fun e => match e with Queried _ _ _ => true | _ => false end) evs).

(** A double that is neither a zero nor a [NaN], with sign [s]. *)
Definition signed (s : bool) (x : spec_float) : Prop :=
  (exists m e, x = S754_finite s m e) \/ x = S754_infinity s.

(** A computation keeps a relation between the world before and after it. *)
Definition keeps {A} (R : relation World) (c : M A) : Prop :=
  forall w, R w (snd (c w)).

(** What the baseline checkout leaves alone: the cache, the metrics, the
    product table, the transaction state of the client. *)
Definition baseline_frame (w w' : World) : Prop :=
  redis_store w' = redis_store w /\ collected w' = collected w /\
  products (db w') = products (db w) /\ txn w' = txn w /\
  redis_ready w' = redis_ready w /\ faults w' = faults w /\ latency w' = latency w /\
  (trips w <= trips w')%nat.

(** No round-trip among the next [n] is rejected. *)
Definition calm (n : nat) (w : World) : Prop :=
  forall k, (k < n)%nat -> faults w (trips w + k) = false.

(** The price the baseline handler reads for a product: that of the first
    row the lookup returns. *)
Definition first_price (ps : list Product) (id : Z) : Q :=
  hd 0%Q (map product_price (List.filter (fun p => product_id p =? id) ps)).

(** The total the baseline handler accumulates and the rows it inserts, one
    by one, when every lookup finds its product. *)
Definition baseline_sum (ps : list Product) (l : list Item) (total : Q) : Q :=
  fold_left
    (fun t i => (t + first_price ps (productId i) * inject_Z (quantity i))%Q) l total.

Definition baseline_rows (ps : list Product) (oid : Z) (l : list Item) : list OrderItem :=
  map (fun i => {| item_order_id := oid; item_product_id := productId i;
                   item_quantity := quantity i;
                   item_price := first_price ps (productId i) |}) l.

Definition baseline_order (w : World) (uid : Z) (l : list Item) : Order :=
  {| order_id := orders_id_seq w; user_id := uid;
     total_amount := baseline_sum (products (db w)) l 0;
     order_status := "pending" |}.

Definition baseline_committed (w : World) (uid : Z) (l : list Item) : Db :=
  add_order_items (baseline_rows (products (db w)) (orders_id_seq w) l)
    (add_order (baseline_order w uid l) (db w)).

End Ledger.

(** ** Further concrete states *)

Module MoreSamples.

Definition two_requests_swapped : metrics :=
  {| requests := [sample 7 1000 200; sample 5 0 200]; dbQueries := [];
     cacheHits := 0; cacheMisses := 0 |}.

(** Two finished requests, one of them failed, around one reported query,
    one miss and one hit. *)
Definition history : list Event :=
  [Finished "GET" "/recommendations" 200 0 5 5; Miss; Queried "SELECT 1" 3 4;
   Finished "POST" "/checkout" 500 10 17 18; Hit].

Definition first_call_rejects : nat -> bool := fun k => (k =? 0)%nat.
Definition second_call_rejects : nat -> bool := fun k => (k =? 1)%nat.
Definition third_call_rejects : nat -> bool := fun k => (k =? 2)%nat.

Definition world_get_rejected : World := world_with ∅ true first_call_rejects.
Definition world_count_rejected : World := world_with ∅ true second_call_rejects.
Definition world_setEx_rejected : World := world_with ∅ true third_call_rejects.

(** A store holding an entry for user 7 and one for user 8. *)
Definition world_two_users : World :=
  world_with {[cacheKey 7 := stale_entry; cacheKey 8 := stale_entry]} true quiet.

(** The cache switched on by hand under the baseline mode. *)
Definition env_cache_in_baseline : Env :=
  {["APP_VERSION" := "baseline"; "ENABLE_REDIS_CACHE" := "1"]}.

Definition empty_items_body : CheckoutBody := {| userId := Some 7; items := Some [] |}.

(** The answer to the first recommendations request of user 7 in [world0]:
    the query returns at instant 1010. *)
Definition first_answer : Response :=
  {| status := 200;
     body := JObj (computed_fields sample_rows sample_iso shop 7 1010
                   ++ [("cached", JBool false)]) |}.

(** An instance of the platform functions of the products route: the ids of
    the products, whatever the search text. *)
Definition sample_page (d : Db) (s pat : string) (lim off : Z) : list Json :=
  map (fun p => JNum (inject_Z (product_id p)))
    (take (Z.to_nat lim) (drop (Z.to_nat off) (products d))).

Definition sample_count (d : Db) (s pat : string) : Z :=
  Z.of_nat (length (products d)).

Definition sample_like (d : Db) (pat : string) : list Json :=
  map (fun p => JNum (inject_Z (product_id p))) (products d).

Definition third_page : ProductsQuery :=
  {| search := None; page := Some 3; limit := Some 0 |}.

End MoreSamples.

Import Ledger MoreSamples.

(** * Properties *)

(** ** Rounding and ranks *)

Lemma Math_round_inject_Z (z : Z) : Math_round (inject_Z z * 100) = 100 * z.
Proof.
  unfold Math_round, Qfloor, inject_Z, Qmult, Qplus. simpl.
  rewrite Z.mul_1_r.
  replace ((z * 100) * 2 + 1) with (1 + (100 * z) * 2) by lia.
  rewrite Z.div_add by lia. reflexivity.
Qed.

(** Rounding to two decimals leaves an integer as it is. *)
Lemma round2_inject_Z (z : Z) : (round2 (inject_Z z) == inject_Z z)%Q.
Proof.
  unfold round2. rewrite Math_round_inject_Z.
  unfold Qeq, Qdiv, Qmult, Qinv, inject_Z. simpl. lia.
Qed.

(** [round2] picks the nearest multiple of 1/100, halves upwards. *)
Lemma round2_nearest (x : Q) :
  exists k : Z, round2 x = (inject_Z k / 100)%Q /\
    (x * 100 - (1 # 2) < inject_Z k)%Q /\ (inject_Z k <= x * 100 + (1 # 2))%Q.
Proof.
  exists (Math_round (x * 100)). split; [reflexivity |].
  unfold Math_round. split.
  - pose proof (Qlt_floor (x * 100 + (1 # 2))) as H.
    rewrite inject_Z_plus in H. change (inject_Z 1) with 1%Q in H. lra.
  - apply Qfloor_le.
Qed.

Lemma Qceiling_95 (n : Z) : Qceiling ((95 # 100) * inject_Z n) = (95 * n + 99) / 100.
Proof.
  unfold Qceiling, Qfloor, Qopp, Qmult, inject_Z. simpl.
  Z.to_euclidean_division_equations. lia.
Qed.

Lemma rank95_eq (n : nat) : rank95 n = (95 * Z.of_nat n + 99) / 100 - 1.
Proof. unfold rank95, Qnat. rewrite Qceiling_95. reflexivity. Qed.

Lemma rank95_in_range (n : nat) :
  (0 < n)%nat -> 0 <= rank95 n <= Z.of_nat n - 1.
Proof.
  intros H. rewrite rank95_eq. Z.to_euclidean_division_equations. lia.
Qed.

(** On every array length up to 10000 the index computed in doubles is the
    exact one. *)
Example double_index_exact :
  forallb (fun n => bool_decide (double_index n = Some (rank95 n))) (seq 1 (100 * 100)) = true.
Proof. vm_compute. reflexivity. Qed.

(** ** [calculateStats] *)

Lemma sort_numeric_Sorted (arr : list Z) : Sorted Z.le (sort_numeric arr).
Proof. apply (Sorted_merge_sort Z.le). Qed.

Lemma sort_numeric_Permutation (arr : list Z) : sort_numeric arr ≡ₚ arr.
Proof. apply (merge_sort_Permutation Z.le). Qed.

(** The snapshot once a request has been recorded. *)
Lemma calculateStats_cons (s : metrics) :
  requests s <> [] ->
  calculateStats s =
  {| requestCount := length (requests s);
     errorCount := length (List.filter (fun r => 400 <=? statusCode r) (requests s));
     avgLatency :=
       round2 (inject_Z (sum_of (sort_numeric (map duration (requests s))))
               / Qnat (length (sort_numeric (map duration (requests s)))));
     p95Latency :=
       option_map (fun v => round2 (inject_Z v))
         (percentile (sort_numeric (map duration (requests s))) (95 # 100));
     throughput := round2 (throughput_raw (requests s));
     avgDbTime :=
       round2 (if (0 <? length (map q_duration (dbQueries s)))%nat
               then inject_Z (sum_of (map q_duration (dbQueries s)))
                    / Qnat (length (map q_duration (dbQueries s)))
               else 0);
     cacheHitRatio :=
       round2 (if (0 <? cacheHits s + cacheMisses s)%nat
               then Qnat (cacheHits s) / Qnat (cacheHits s + cacheMisses s) * 100
               else 0) |}.
Proof.
  intros H. unfold calculateStats. destruct (requests s); [congruence | reflexivity].
Qed.

Lemma throughput_raw_short (reqs : list RequestSample) :
  (length reqs < 2)%nat -> throughput_raw reqs = 0%Q.
Proof.
  destruct reqs as [| a [| b l]]; simpl; intros; try reflexivity; lia.
Qed.

Lemma last_cons_app (first lst : RequestSample) (mid : list RequestSample) d :
  List.last (first :: mid ++ [lst]) d = lst.
Proof.
  change (first :: mid ++ [lst]) with ((first :: mid) ++ [lst]).
  apply List.last_last.
Qed.

Lemma Qlt_0_div_1000 (z : Z) : (0 < inject_Z z / 1000)%Q <-> 0 < z.
Proof.
  unfold Qlt, Qdiv, Qmult, Qinv, inject_Z. simpl. lia.
Qed.

Lemma throughput_raw_span (first lst : RequestSample) (mid : list RequestSample) :
  throughput_raw (first :: mid ++ [lst]) =
  if Qlt_le_dec 0 (inject_Z (timestamp lst - timestamp first) / 1000)
  then (Qnat (length (first :: mid ++ [lst]))
        / (inject_Z (timestamp lst - timestamp first) / 1000))%Q
  else 0%Q.
Proof.
  unfold throughput_raw. rewrite last_cons_app.
  destruct mid; reflexivity.
Qed.

Lemma percentile_95 (arr : list Z) :
  arr <> [] ->
  percentile arr (95 # 100) = arr !! Z.to_nat (rank95 (length arr)).
Proof.
  intros H. unfold percentile.
  destruct arr as [| a l]; [congruence |].
  change (length (a :: l) =? 0)%nat with false. cbv iota.
  fold (Qnat (length (a :: l))). fold (rank95 (length (a :: l))).
  pose proof (rank95_in_range (length (a :: l))) as R.
  assert (0 < length (a :: l))%nat as Hp by (simpl; lia). specialize (R Hp).
  rewrite Z.min_l by lia. unfold js_index.
  destruct (Z.ltb_spec (rank95 (length (a :: l))) 0); [lia | reflexivity].
Qed.

(** The scenario of the specification: durations 1 to 50 in any order give
    a 95th percentile of 48. *)
Example p95_fifty : p95Latency (calculateStats fifty) = Some (4800 # 100)%Q.
Proof. vm_compute. reflexivity. Qed.

(** ** [calculateStats] in binary64 *)

(** The snapshot in binary64 once a request has been recorded. *)
Lemma calculateStats_binary64_cons (s : metrics) :
  requests s <> [] ->
  Binary64.calculateStats s =
  {| Binary64.requestCount := length (requests s);
     Binary64.errorCount :=
       length (List.filter (fun r => 400 <=? statusCode r) (requests s));
     Binary64.avgLatency :=
       Binary64.round2
         (Binary64.sum_of (sort_numeric (map duration (requests s)))
          / Binary64.of_nat (length (sort_numeric (map duration (requests s)))))%float;
     Binary64.p95Latency :=
       Binary64.round2
         (Binary64.number
            (Binary64.percentile (sort_numeric (map duration (requests s)))
               0x1.e666666666666p-1%float));
     Binary64.throughput := Binary64.round2 (Binary64.throughput_raw (requests s));
     Binary64.avgDbTime :=
       Binary64.round2
         (if (0 <? length (map q_duration (dbQueries s)))%nat
          then (Binary64.sum_of (map q_duration (dbQueries s))
                / Binary64.of_nat (length (map q_duration (dbQueries s))))%float
          else 0%float);
     Binary64.cacheHitRatio :=
       Binary64.round2
         (if (0 <? cacheHits s + cacheMisses s)%nat
          then (Binary64.of_nat (cacheHits s)
                / Binary64.of_nat (cacheHits s + cacheMisses s) * 100)%float
          else 0%float) |}.
Proof.
  intros H. unfold Binary64.calculateStats.
  destruct (requests s); [congruence | reflexivity].
Qed.

Lemma round2_binary64_zero : Binary64.round2 0%float = 0%float.
Proof. vm_compute. reflexivity. Qed.

Lemma throughput_raw_binary64_short (reqs : list RequestSample) :
  (length reqs < 2)%nat -> Binary64.throughput_raw reqs = 0%float.
Proof.
  destruct reqs as [| a [| b l]]; simpl; intros; try reflexivity; lia.
Qed.

Lemma throughput_raw_binary64_span (first lst : RequestSample)
    (mid : list RequestSample) :
  Binary64.throughput_raw (first :: mid ++ [lst]) =
  if (0 <? Binary64.of_Z (timestamp lst - timestamp first) / 1000)%float
  then (Binary64.of_nat (length (first :: mid ++ [lst]))
        / (Binary64.of_Z (timestamp lst - timestamp first) / 1000))%float
  else 0%float.
Proof.
  unfold Binary64.throughput_raw. rewrite last_cons_app.
  destruct mid; reflexivity.
Qed.

(** *** Doubles of integers and their quotients *)

Lemma digits2_pos_bounds (p : positive) :
  2 ^ (Z.pos (digits2_pos p) - 1) <= Z.pos p < 2 ^ Z.pos (digits2_pos p).
Proof.
  induction p as [p IH | p IH |]; cbn [digits2_pos].
  - rewrite Pos2Z.inj_succ.
    replace (Z.succ (Z.pos (digits2_pos p)) - 1) with (Z.succ (Z.pos (digits2_pos p) - 1))
      by lia.
    rewrite !Z.pow_succ_r by lia. lia.
  - rewrite Pos2Z.inj_succ.
    replace (Z.succ (Z.pos (digits2_pos p)) - 1) with (Z.succ (Z.pos (digits2_pos p) - 1))
      by lia.
    rewrite !Z.pow_succ_r by lia. lia.
  - simpl. lia.
Qed.

Lemma digits2_pos_unique (p : positive) (k : Z) :
  2 ^ (k - 1) <= Z.pos p < 2 ^ k -> Z.pos (digits2_pos p) = k.
Proof.
  intros [Hlo Hhi]. pose proof (digits2_pos_bounds p) as [Dlo Dhi].
  assert (0 < k) as Hk.
  { destruct (Z.ltb_spec 0 k); [assumption |].
    destruct (Z.eq_dec k 0) as [-> | Hne]; [simpl in Hhi; lia |].
    rewrite (Z.pow_neg_r 2 k) in Hhi by lia. lia. }
  assert (Z.pos (digits2_pos p) - 1 < k) as H1.
  { apply (Z.pow_lt_mono_r_iff 2); lia. }
  assert (k - 1 < Z.pos (digits2_pos p)) as H2.
  { apply (Z.pow_lt_mono_r_iff 2); lia. }
  lia.
Qed.

(** Rounding a mantissa of 53 or 54 bits drops at most one bit. *)
Lemma shr_fexp_short (m : positive) (e : Z) (l : location) :
  2 ^ 52 <= Z.pos m < 2 ^ 54 -> SpecFloat.emin prec emax <= e ->
  exists m' r s n,
    shr_fexp prec emax (Z.pos m) e l = (Build_shr_record (Z.pos m') r s, e + n) /\
    0 <= n <= 1 /\ 2 ^ 52 <= Z.pos m' < 2 ^ 53.
Proof.
  intros Hm He. unfold shr_fexp, fexp. cbn [Zdigits2].
  assert (Z.pos (digits2_pos m) = 53 \/ Z.pos (digits2_pos m) = 54) as [D | D].
  { destruct (Z.ltb_spec (Z.pos m) (2 ^ 53)).
    - left. apply digits2_pos_unique. change (53 - 1) with 52. lia.
    - right. apply digits2_pos_unique. change (54 - 1) with 53. lia. }
  - rewrite D.
    assert (2 ^ 52 <= Z.pos m < 2 ^ 53) as Hm'.
    { pose proof (digits2_pos_bounds m) as B. rewrite D in B. exact B. }
    replace (Z.max (53 + e - prec) (SpecFloat.emin prec emax) - e) with 0
      by (unfold prec, SpecFloat.emin, emax in *; lia).
    destruct l as [| []]; cbn; eexists m, _, _, 0; rewrite Z.add_0_r;
      (split; [reflexivity | split; [lia | exact Hm']]).
  - rewrite D.
    assert (2 ^ 53 <= Z.pos m < 2 ^ 54) as Hm'.
    { pose proof (digits2_pos_bounds m) as B. rewrite D in B. exact B. }
    replace (Z.max (54 + e - prec) (SpecFloat.emin prec emax) - e) with 1
      by (unfold prec, SpecFloat.emin, emax in *; lia).
    unfold shr. cbn [iter_pos].
    destruct m as [m | m |]; [| | lia].
    + destruct l as [| []]; cbn; eexists m, _, _, 1;
        (split; [reflexivity | split; [lia |]]);
        change (2 ^ 53) with (2 * 2 ^ 52) in Hm'; change (2 ^ 54) with (2 * 2 ^ 53) in Hm'; lia.
    + destruct l as [| []]; cbn; eexists m, _, _, 1;
        (split; [reflexivity | split; [lia |]]);
        change (2 ^ 53) with (2 * 2 ^ 52) in Hm'; change (2 ^ 54) with (2 * 2 ^ 53) in Hm'; lia.
Qed.

Lemma round_nearest_even_short (m : positive) (l : location) :
  2 ^ 52 <= Z.pos m < 2 ^ 53 ->
  exists m', round_nearest_even (Z.pos m) l = Z.pos m' /\ 2 ^ 52 <= Z.pos m' < 2 ^ 54.
Proof.
  intros Hm. assert (2 ^ 53 < 2 ^ 54) by (vm_compute; reflexivity).
  destruct l as [| []]; cbn [round_nearest_even].
  - exists m. lia.
  - destruct (Z.even (Z.pos m)); [exists m; lia |].
    exists (m + 1)%positive. rewrite Pos2Z.inj_add. split; [reflexivity | lia].
  - exists m. lia.
  - exists (m + 1)%positive. rewrite Pos2Z.inj_add. split; [reflexivity | lia].
Qed.

Lemma binary_round_aux_signed (sx : bool) (m : positive) (e : Z) (l : location) :
  2 ^ 52 <= Z.pos m < 2 ^ 54 -> SpecFloat.emin prec emax <= e ->
  signed sx (binary_round_aux prec emax sx (Z.pos m) e l).
Proof.
  intros Hm He. unfold binary_round_aux.
  destruct (shr_fexp_short m e l Hm He) as (m1 & r1 & s1 & n1 & -> & Hn1 & Hm1).
  cbn [shr_m].
  destruct (round_nearest_even_short m1 (loc_of_shr_record (Build_shr_record (Z.pos m1) r1 s1)) Hm1)
    as (m2 & -> & Hm2).
  destruct (shr_fexp_short m2 (e + n1) loc_Exact Hm2 ltac:(lia))
    as (m3 & r3 & s3 & n3 & -> & Hn3 & Hm3).
  cbn [shr_m].
  destruct (e + n1 + n3 <=? emax - prec); [left; eauto | right; reflexivity].
Qed.


Lemma binary_round_aux_exact (s : bool) (m : positive) (e : Z) :
  2 ^ 52 <= Z.pos m < 2 ^ 53 -> SpecFloat.emin prec emax <= e <= emax - prec ->
  binary_round_aux prec emax s (Z.pos m) e loc_Exact = S754_finite s m e.
Proof.
  intros Hm He. unfold binary_round_aux, shr_fexp, fexp. cbn [Zdigits2].
  rewrite (digits2_pos_unique m 53) by (change (53 - 1) with 52; exact Hm).
  replace (Z.max (53 + e - prec) (SpecFloat.emin prec emax) - e) with 0
    by (unfold prec, SpecFloat.emin, emax in *; lia).
  cbn [shr shr_record_of_loc shr_m loc_of_shr_record round_nearest_even Zdigits2].
  rewrite (digits2_pos_unique m 53) by (change (53 - 1) with 52; exact Hm).
  replace (Z.max (53 + e - prec) (SpecFloat.emin prec emax) - e) with 0
    by (unfold prec, SpecFloat.emin, emax in *; lia).
  cbn [shr shr_record_of_loc shr_m].
  destruct (Z.leb_spec e (emax - prec)); [reflexivity | lia].
Qed.

Lemma iter_xO_value (p k : positive) :
  Z.pos (Pos.iter xO p k) = Z.pos p * 2 ^ Z.pos k.
Proof.
  induction k as [| k IH] using Pos.peano_ind.
  - simpl. lia.
  - rewrite Pos.iter_succ, Pos2Z.inj_xO, IH, Pos2Z.inj_succ, Z.pow_succ_r by lia. lia.
Qed.

(** The double of an integer below 2^53 in absolute value is that integer:
    a mantissa of 53 bits and an exponent between -52 and 0 that denote it. *)
Lemma binary_round_integer (s : bool) (p : positive) :
  Z.pos p < 2 ^ 53 ->
  exists m e,
    binary_round prec emax s p 0 = S754_finite s m e /\
    2 ^ 52 <= Z.pos m < 2 ^ 53 /\ -52 <= e <= 0 /\
    Z.pos m = Z.pos p * 2 ^ (- e).
Proof.
  intros Hp. unfold binary_round, fexp.
  pose proof (digits2_pos_bounds p) as [Dlo Dhi].
  set (d := Z.pos (digits2_pos p)) in *.
  assert (1 <= d <= 53) as Hd.
  { split; [unfold d; lia |].
    destruct (Z.leb_spec d 53); [assumption |].
    assert (2 ^ 53 <= 2 ^ (d - 1)) by (apply Z.pow_le_mono_r; lia). lia. }
  replace (Z.max (d + 0 - prec) (SpecFloat.emin prec emax)) with (d - 53)
    by (unfold prec, SpecFloat.emin, emax; lia).
  unfold shl_align. rewrite Z.sub_0_r.
  destruct (d - 53) as [| k | k] eqn:Ek; [| lia |].
  - assert (d = 53) as E by lia. rewrite E in Dlo. change (53 - 1) with 52 in Dlo.
    exists p, 0. split; [| split; [lia | split; [lia | simpl; lia]]].
    apply binary_round_aux_exact; [lia |]. unfold prec, SpecFloat.emin, emax; lia.
  - assert (Z.pos k = 53 - d) as Hk by lia.
    assert (2 ^ 52 <= Z.pos (Pos.iter xO p k) < 2 ^ 53) as Hm.
    { rewrite iter_xO_value, Hk.
      assert (2 ^ 52 = 2 ^ (d - 1) * 2 ^ (53 - d)) as ->
        by (rewrite <- Z.pow_add_r by lia; f_equal; lia).
      assert (2 ^ 53 = 2 ^ d * 2 ^ (53 - d)) as ->
        by (rewrite <- Z.pow_add_r by lia; f_equal; lia).
      assert (0 < 2 ^ (53 - d)) by (apply Z.pow_pos_nonneg; lia).
      split; [apply Z.mul_le_mono_nonneg_r; lia | apply Z.mul_lt_mono_pos_r; lia]. }
    exists (Pos.iter xO p k), (Z.neg k).
    split; [| split; [exact Hm | split; [lia | apply iter_xO_value]]].
    apply binary_round_aux_exact; [exact Hm |]. unfold prec, SpecFloat.emin, emax; lia.
Qed.

Lemma Prim2SF_of_Z (z : Z) :
  - 2 ^ 53 < z < 2 ^ 53 -> z <> 0 ->
  exists m e,
    Prim2SF (Binary64.of_Z z) = S754_finite (z <? 0) m e /\
    2 ^ 52 <= Z.pos m < 2 ^ 53 /\ -52 <= e <= 0 /\
    Z.pos m = Z.abs z * 2 ^ (- e).
Proof.
  intros Hz Hne. unfold Binary64.of_Z.
  destruct z as [| p | p]; [congruence | |]; cbn [binary_normalize].
  - destruct (binary_round_integer false p) as (m & e & E & Hm & He & Hv); [lia |].
    exists m, e. rewrite E. split; [| split; [| split]; assumption].
    apply Prim2SF_SF2Prim. cbn [valid_binary]. unfold bounded, canonical_mantissa, fexp.
    rewrite (digits2_pos_unique m 53) by (change (53 - 1) with 52; exact Hm).
    apply andb_true_intro. split.
    + apply Z.eqb_eq. unfold prec, SpecFloat.emin, emax. lia.
    + apply Z.leb_le. unfold prec, emax. lia.
  - destruct (binary_round_integer true p) as (m & e & E & Hm & He & Hv); [lia |].
    exists m, e. rewrite E. split; [| split; [| split]; assumption].
    apply Prim2SF_SF2Prim. cbn [valid_binary]. unfold bounded, canonical_mantissa, fexp.
    rewrite (digits2_pos_unique m 53) by (change (53 - 1) with 52; exact Hm).
    apply andb_true_intro. split.
    + apply Z.eqb_eq. unfold prec, SpecFloat.emin, emax. lia.
    + apply Z.leb_le. unfold prec, emax. lia.
Qed.

(** Dividing such a double by 1000 gives neither a zero nor a [NaN], and
    keeps the sign. *)
Lemma SFdiv_1000_signed (s : bool) (m : positive) (e : Z) :
  2 ^ 52 <= Z.pos m < 2 ^ 53 -> -52 <= e <= 0 ->
  signed s (SF64div (S754_finite s m e) (Prim2SF 1000%float)).
Proof.
  intros Hm He.
  replace (Prim2SF 1000%float) with (S754_finite false 8796093022208000 (-43))
    by (vm_compute; reflexivity).
  unfold SF64div, SFdiv, SFdiv_core_binary, fexp. cbn [Zdigits2].
  rewrite (digits2_pos_unique m 53) by (change (53 - 1) with 52; exact Hm).
  change (Z.pos (digits2_pos 8796093022208000)) with 53.
  replace (Z.min (Z.max (53 + e - (53 + -43) - prec) (SpecFloat.emin prec emax)) (e - -43))
    with (e - 10) by (unfold prec, SpecFloat.emin, emax; lia).
  replace (e - -43 - (e - 10)) with 53 by lia.
  cbv iota. rewrite Z.shiftl_mul_pow2 by lia.
  destruct (Z.div_eucl (Z.pos m * 2 ^ 53) 8796093022208000) as [q r] eqn:E.
  assert (q = Z.pos m * 2 ^ 53 / 8796093022208000) as Hq
    by (unfold Z.div; rewrite E; reflexivity).
  assert (2 ^ 52 <= q < 2 ^ 54) as Hb.
  { rewrite Hq. split.
    - apply Z.div_le_lower_bound; [lia |].
      change (2 ^ 52) with 4503599627370496 in *.
      change (2 ^ 53) with 9007199254740992 in *. lia.
    - apply Z.div_lt_upper_bound; [lia |].
      change (2 ^ 54) with 18014398509481984.
      change (2 ^ 53) with 9007199254740992 in *. lia. }
  destruct q as [| q | q]; [simpl in Hb; lia | | lia].
  rewrite xorb_false_r.
  apply binary_round_aux_signed; [exact Hb |]. unfold prec, SpecFloat.emin, emax. lia.
Qed.

(** [timeSpan > 0] holds exactly when the later timestamp is the greater. *)
Lemma timeSpan_positive (z : Z) :
  - 2 ^ 53 < z < 2 ^ 53 -> (0 <? Binary64.of_Z z / 1000)%float = (0 <? z).
Proof.
  intros Hz. destruct (Z.eq_dec z 0) as [-> | Hne]; [vm_compute; reflexivity |].
  rewrite FloatAxioms.ltb_spec, FloatAxioms.div_spec.
  destruct (Prim2SF_of_Z z Hz Hne) as (m & e & -> & Hm & He & _).
  destruct (SFdiv_1000_signed (z <? 0) m e Hm He) as [(m' & e' & ->) | ->];
    replace (Prim2SF 0%float) with (S754_zero false) by (vm_compute; reflexivity);
    unfold SFltb, SFcompare;
    destruct (Z.ltb_spec z 0), (Z.ltb_spec 0 z); try reflexivity; lia.
Qed.

(** [Math.round] on doubles: halves go up, also below zero, where a zero
    result keeps the sign; the greatest double below a half goes down; a
    double beyond 2^52 is an integer already. *)
Example Math_round_binary64_cases :
  Binary64.Math_round 2.5%float = 3%float /\
  Binary64.Math_round (-2.5)%float = (-2)%float /\
  Binary64.Math_round (-0.5)%float = (-0)%float /\
  Binary64.Math_round 0x1.fffffffffffffp-2%float = 0%float /\
  Binary64.Math_round 102040.75%float = 102041%float /\
  Binary64.Math_round (3.125 * 100)%float = 313%float /\
  Binary64.Math_round (7 / (2240 / 1000) * 100)%float = 312%float /\
  Binary64.Math_round 4503599627370497%float = 4503599627370497%float.
Proof. repeat split; vm_compute; reflexivity. Qed.

(** Where the two models of the rounding part.  Seven requests over 2240 ms
    are 3.125 per second; the quotient of the doubles lies just below, so the
    code rounds it to 3.12 and exact arithmetic to 3.13.  Likewise for 23
    hits and 137 misses: 14.37 in binary64, 14.38 exactly. *)
Example binary64_rounds_below_ties :
  Binary64.throughput (Binary64.calculateStats seven_requests)
    = (Binary64.of_Z 312 / 100)%float /\
  (throughput (calculateStats seven_requests) == 313 # 100)%Q /\
  Binary64.cacheHitRatio (Binary64.calculateStats seven_requests)
    = (Binary64.of_Z 1437 / 100)%float /\
  (cacheHitRatio (calculateStats seven_requests) == 1438 # 100)%Q.
Proof. repeat split; vm_compute; reflexivity. Qed.

(** C1, as stated, fails: two samples one second apart give a throughput of
    2 per second, in exact and in binary64 arithmetic alike, where the claim
    has (2 - 1) / 1 = 1. *)
Lemma throughput_counterexample :
  (throughput (calculateStats two_requests) == 2)%Q /\
  Binary64.throughput (Binary64.calculateStats two_requests) = 2%float /\
  (throughput_claimed (requests two_requests) == 1)%Q /\
  ~ (throughput (calculateStats two_requests)
     == throughput_claimed (requests two_requests))%Q.
Proof.
  split; [reflexivity |]. split; [vm_compute; reflexivity |]. split; [reflexivity |].
  vm_compute. discriminate.
Qed.

(** C1, amended: the throughput is the sample count (not the count minus
    one) over the elapsed seconds between the first and the last sample,
    rounded to two decimals, all in binary64 arithmetic; it is 0 with fewer
    than two samples, and 0 when the elapsed time is zero or negative.  The
    timestamps are those of [Date.now()]: their difference is below 2^53. *)
Theorem throughput_counts_every_sample (s : metrics) :
  ((length (requests s) < 2)%nat ->
   Binary64.throughput (Binary64.calculateStats s) = 0%float) /\
  (forall first mid lst,
     requests s = first :: mid ++ [lst] ->
     let elapsed := timestamp lst - timestamp first in
     - 2 ^ 53 < elapsed < 2 ^ 53 ->
     (elapsed <= 0 -> Binary64.throughput (Binary64.calculateStats s) = 0%float) /\
     (0 < elapsed ->
      Binary64.throughput (Binary64.calculateStats s)
      = Binary64.round2
          (Binary64.of_nat (length (requests s)) / (Binary64.of_Z elapsed / 1000))%float)).
Proof.
  split.
  - intros Hlen. destruct (requests s) eqn:E.
    + unfold Binary64.calculateStats. rewrite E. reflexivity.
    + rewrite calculateStats_binary64_cons by congruence. cbn [Binary64.throughput].
      rewrite throughput_raw_binary64_short by (rewrite E; exact Hlen).
      apply round2_binary64_zero.
  - intros first mid lst E elapsed Hrange.
    rewrite calculateStats_binary64_cons by congruence. cbn [Binary64.throughput].
    rewrite E, throughput_raw_binary64_span. fold elapsed.
    rewrite (timeSpan_positive elapsed Hrange).
    destruct (Z.ltb_spec 0 elapsed) as [Hpos | Hle].
    + split; [intros Hneg; exfalso; lia | reflexivity].
    + split; [intros _; apply round2_binary64_zero | intros Hpos; exfalso; lia].
Qed.

(** One sample gives 0; two samples one second apart give 2 / 1; seven
    samples over 2240 ms give 3.12. *)
Lemma throughput_counts_every_sample_witness :
  (length (requests one_request) < 2)%nat /\
  Binary64.throughput (Binary64.calculateStats one_request) = 0%float /\
  requests two_requests = sample 5 0 200 :: [] ++ [sample 7 1000 200] /\
  - 2 ^ 53 < 1000 - 0 < 2 ^ 53 /\ 0 < 1000 - 0 /\
  Binary64.throughput (Binary64.calculateStats two_requests)
    = Binary64.round2 (Binary64.of_nat 2 / (Binary64.of_Z (1000 - 0) / 1000))%float /\
  Binary64.throughput (Binary64.calculateStats two_requests) = 2%float /\
  Binary64.throughput (Binary64.calculateStats seven_requests)
    = Binary64.round2 (Binary64.of_nat 7 / (Binary64.of_Z (2240 - 0) / 1000))%float /\
  Binary64.throughput (Binary64.calculateStats seven_requests)
    = (Binary64.of_Z 312 / 100)%float.
Proof.
  assert (- 2 ^ 53 < 1000 - 0 < 2 ^ 53) as R1 by (vm_compute; split; reflexivity).
  assert (- 2 ^ 53 < 2240 - 0 < 2 ^ 53) as R2 by (vm_compute; split; reflexivity).
  split; [simpl; lia |].
  split; [apply (proj1 (throughput_counts_every_sample one_request)); simpl; lia |].
  split; [reflexivity |]. split; [exact R1 |]. split; [lia |].
  split; [| split; [vm_compute; reflexivity | split; [| vm_compute; reflexivity]]].
  - apply (proj2 (throughput_counts_every_sample two_requests)
             (sample 5 0 200) [] (sample 7 1000 200) eq_refl R1).
    reflexivity.
  - apply (proj2 (throughput_counts_every_sample seven_requests)
             (sample 5 0 200)
             (map (fun t => sample 5 t 200) [400; 800; 1200; 1600; 2000])
             (sample 5 2240 200) eq_refl R2).
    reflexivity.
Defined.

(** C3: with N >= 1 recorded requests the p95 of the snapshot is the value at
    index ceil(0.95 N) - 1 of the durations in ascending order; that index
    already lies in [0, N - 1], so clamping leaves it as it is. *)
Theorem p95_nearest_rank (s : metrics) :
  requests s <> [] ->
  let n := length (requests s) in
  let k := clamp 0 (Z.of_nat n - 1) (rank95 n) in
  exists (sorted : list Z) (v : Z) (q : Q),
    sorted ≡ₚ map duration (requests s) /\
    Sorted Z.le sorted /\
    k = rank95 n /\
    sorted !! Z.to_nat k = Some v /\
    p95Latency (calculateStats s) = Some q /\ (q == inject_Z v)%Q.
Proof.
  intros H n k.
  set (sorted := sort_numeric (map duration (requests s))).
  assert (length sorted = n) as Hlen.
  { unfold sorted. rewrite (Permutation_length (sort_numeric_Permutation _)).
    apply length_map. }
  assert (0 < n)%nat as Hn.
  { unfold n. destruct (requests s); [congruence | simpl; lia]. }
  pose proof (rank95_in_range n Hn) as R.
  assert (k = rank95 n) as Hk by (unfold k, clamp; lia).
  destruct (lookup_lt_is_Some_2 sorted (Z.to_nat k)) as [v Hv]; [lia |].
  exists sorted, v, (round2 (inject_Z v)).
  split; [apply sort_numeric_Permutation |].
  split; [apply sort_numeric_Sorted |].
  split; [exact Hk |]. split; [exact Hv |].
  split; [| apply round2_inject_Z].
  rewrite (calculateStats_cons s H). cbn [p95Latency]. fold sorted.
  rewrite percentile_95.
  - rewrite Hlen, <- Hk, Hv. reflexivity.
  - intros E. rewrite E in Hlen. simpl in Hlen. lia.
Qed.

Lemma p95_nearest_rank_witness :
  requests two_requests <> [] /\
  exists (sorted : list Z) (v : Z) (q : Q),
    sorted ≡ₚ map duration (requests two_requests) /\
    Sorted Z.le sorted /\
    clamp 0 (Z.of_nat 2 - 1) (rank95 2) = rank95 2 /\
    sorted !! Z.to_nat (clamp 0 (Z.of_nat 2 - 1) (rank95 2)) = Some v /\
    p95Latency (calculateStats two_requests) = Some q /\ (q == inject_Z v)%Q.
Proof.
  split; [discriminate |].
  apply (p95_nearest_rank two_requests). discriminate.
Defined.

(** C9, as stated, fails: with 3 hits and 7 misses counted and no request
    recorded yet, the ratio of the snapshot is 0, not 30. *)
Lemma hit_ratio_counterexample :
  (hit_ratio_claimed 3 7 == 30)%Q /\
  (cacheHitRatio (calculateStats no_request) == 0)%Q /\
  Binary64.cacheHitRatio (Binary64.calculateStats no_request) = 0%float /\
  ~ (cacheHitRatio (calculateStats no_request)
     == hit_ratio_claimed (cacheHits no_request) (cacheMisses no_request))%Q.
Proof.
  split; [reflexivity |]. split; [reflexivity |]. split; [reflexivity |].
  vm_compute. discriminate.
Qed.

(** C9, amended: once at least one request has been recorded, the ratio of
    the snapshot is hits / (hits + misses) x 100 rounded to two decimals, in
    binary64 arithmetic, and 0 when no cache operation occurred; with 3 hits
    and 7 misses it is 30. *)
Theorem hit_ratio_with_requests (s : metrics) :
  requests s <> [] ->
  Binary64.cacheHitRatio (Binary64.calculateStats s)
    = Binary64.round2
        (if (0 <? cacheHits s + cacheMisses s)%nat
         then (Binary64.of_nat (cacheHits s)
               / Binary64.of_nat (cacheHits s + cacheMisses s) * 100)%float
         else 0%float) /\
  ((cacheHits s + cacheMisses s = 0)%nat ->
   Binary64.cacheHitRatio (Binary64.calculateStats s) = 0%float) /\
  (cacheHits s = 3%nat -> cacheMisses s = 7%nat ->
   Binary64.cacheHitRatio (Binary64.calculateStats s) = 30%float).
Proof.
  intros H. rewrite (calculateStats_binary64_cons s H). cbn [Binary64.cacheHitRatio].
  split; [reflexivity |]. split.
  - intros ->. apply round2_binary64_zero.
  - intros -> ->. vm_compute. reflexivity.
Qed.

(** Three hits and seven misses with one request recorded: 30; 23 hits and
    137 misses: 14.37. *)
Lemma hit_ratio_with_requests_witness :
  requests one_request <> [] /\
  cacheHits one_request = 3%nat /\ cacheMisses one_request = 7%nat /\
  Binary64.cacheHitRatio (Binary64.calculateStats one_request) = 30%float /\
  requests seven_requests <> [] /\
  cacheHits seven_requests = 23%nat /\ cacheMisses seven_requests = 137%nat /\
  Binary64.cacheHitRatio (Binary64.calculateStats seven_requests)
    = (Binary64.of_Z 1437 / 100)%float.
Proof.
  split; [discriminate |]. split; [reflexivity |]. split; [reflexivity |].
  split.
  - apply (proj2 (proj2 (hit_ratio_with_requests one_request ltac:(discriminate))));
      reflexivity.
  - split; [discriminate |]. split; [reflexivity |]. split; [reflexivity |].
    rewrite (proj1 (hit_ratio_with_requests seven_requests ltac:(discriminate))).
    vm_compute. reflexivity.
Defined.

(** C10: with no request recorded, every field of the snapshot is 0,
    whatever queries were recorded and whatever the hit and miss counters
    are. *)
Theorem calculateStats_empty_series (s : metrics) :
  requests s = [] ->
  requestCount (calculateStats s) = 0%nat /\
  errorCount (calculateStats s) = 0%nat /\
  avgLatency (calculateStats s) = 0%Q /\
  p95Latency (calculateStats s) = Some 0%Q /\
  throughput (calculateStats s) = 0%Q /\
  avgDbTime (calculateStats s) = 0%Q /\
  cacheHitRatio (calculateStats s) = 0%Q.
Proof.
  intros H. unfold calculateStats. rewrite H. repeat split.
Qed.

Lemma calculateStats_empty_series_witness :
  requests no_request = [] /\
  dbQueries no_request <> [] /\ cacheHits no_request = 3%nat /\
  cacheMisses no_request = 7%nat /\
  avgDbTime (calculateStats no_request) = 0%Q /\
  cacheHitRatio (calculateStats no_request) = 0%Q.
Proof.
  split; [reflexivity |]. split; [discriminate |]. split; [reflexivity |].
  split; [reflexivity |].
  destruct (calculateStats_empty_series no_request eq_refl)
    as (_ & _ & _ & _ & _ & Hdb & Hratio).
  split; assumption.
Defined.

(** ** Mode selection *)

Lemma checkout_is_optimized_mode (env : Env) :
  checkout_is_optimized env = mode_default env.
Proof.
  unfold checkout_is_optimized, mode_default, APP_VERSION, env_is.
  destruct (env !! "APP_VERSION") as [v |]; [| reflexivity].
  destruct (bool_decide_reflect (v = "")) as [-> | Hv]; [reflexivity |].
  apply bool_decide_ext. split; congruence.
Qed.

Lemma resolved_or (c : Capability) (env : Env) :
  resolved c env =
  match switch c with
  | Some name => env_is env name "1" || mode_default env
  | None => mode_default env
  end.
Proof. destruct c; try reflexivity. apply checkout_is_optimized_mode. Qed.

Lemma optimized_enables_cache (env : Env) :
  checkout_is_optimized env = true -> ENABLE_REDIS_CACHE env = true.
Proof.
  rewrite checkout_is_optimized_mode. unfold ENABLE_REDIS_CACHE, mode_default.
  intros ->. apply orb_true_r.
Qed.

(** C6, as stated, fails: with the mode optimized and the cache switch set
    to 0, the cache is still enabled. *)
Lemma override_counterexample :
  env_cache_off !! "ENABLE_REDIS_CACHE" = Some "0" /\
  override_value "0" = false /\
  mode_default env_cache_off = true /\
  resolved RedisCache env_cache_off = true /\
  resolved RedisCache env_cache_off
    <> resolve_with_precedence env_cache_off "ENABLE_REDIS_CACHE".
Proof.
  split; [vm_compute; reflexivity |]. split; [reflexivity |].
  split; [vm_compute; reflexivity |].
  split; [vm_compute; reflexivity |]. vm_compute. discriminate.
Qed.

(** C6, amended: a capability is enabled exactly when its switch is '1' or
    the mode is optimized.  A switch set to '1' enables it in either mode; a
    switch set to anything else, or not set, leaves the decision to the mode
    and so cannot disable what the optimized mode enables; the write path
    has no switch and follows the mode. *)
Theorem switch_only_enables (c : Capability) (env : Env) :
  (forall name v,
     switch c = Some name -> env !! name = Some v ->
     (override_value v = true -> resolved c env = true) /\
     (override_value v = false -> resolved c env = mode_default env)) /\
  (forall name,
     switch c = Some name -> env !! name = None ->
     resolved c env = mode_default env) /\
  (switch c = None -> resolved c env = mode_default env).
Proof.
  rewrite resolved_or. split; [| split].
  - intros name v -> Hv. unfold env_is, override_value. rewrite Hv. split.
    + intros H. apply bool_decide_eq_true in H. subst v.
      rewrite bool_decide_eq_true_2 by reflexivity. reflexivity.
    + intros H. apply bool_decide_eq_false in H.
      rewrite bool_decide_eq_false_2 by congruence. reflexivity.
  - intros name ->. unfold env_is. intros ->.
    rewrite bool_decide_eq_false_2 by discriminate. reflexivity.
  - intros ->. reflexivity.
Qed.

Lemma switch_only_enables_witness :
  switch RedisCache = Some "ENABLE_REDIS_CACHE" /\
  env_cache_off !! "ENABLE_REDIS_CACHE" = Some "0" /\
  override_value "0" = false /\
  resolved RedisCache env_cache_off = mode_default env_cache_off /\
  switch BatchWrite = None /\
  resolved BatchWrite env_cache_off = mode_default env_cache_off.
Proof.
  split; [reflexivity |].
  assert (env_cache_off !! "ENABLE_REDIS_CACHE" = Some "0") as E
    by (vm_compute; reflexivity).
  split; [exact E |]. split; [reflexivity |].
  split.
  - apply (proj1 (switch_only_enables RedisCache env_cache_off)
             "ENABLE_REDIS_CACHE" "0" eq_refl E).
    reflexivity.
  - split; [reflexivity |].
    apply (proj2 (proj2 (switch_only_enables BatchWrite env_cache_off))).
    reflexivity.
Defined.

(** ** Running the handlers *)

Lemma await_ok {A} (op : M A) (w : World) :
  faults w (trips w) = false -> await op w = op (tick w).
Proof. intros H. unfold await. rewrite H. reflexivity. Qed.

Lemma tick_db (w : World) : db (tick w) = db w.
Proof. reflexivity. Qed.

Ltac simp_world H :=
  cbn [trips faults set_trips db txn set_txn set_db orders_id_seq set_orders_id_seq
       redis_store redis_ready set_redis_store collected set_collected now set_now
       latency tick client_tables set_client_tables fst snd] in H.

(** Case analysis on the next round-trip of a run. *)
Ltac fault_case H :=
  match type of H with
  | context [if faults ?w ?k then _ else _] =>
      let F := fresh "F" in destruct (faults w k) eqn:F; simp_world H
  end.

Lemma checkout_baseline_route (env : Env) :
  checkout_is_optimized env = false -> checkout env = checkout_baseline.
Proof. intros H. unfold checkout. rewrite H. reflexivity. Qed.

Lemma checkout_optimized_route (env : Env) :
  checkout_is_optimized env = true -> checkout env = checkout_optimized env.
Proof. intros H. unfold checkout. rewrite H. reflexivity. Qed.

(** *** Existence of products *)

Lemma has_product_rows (d : Db) (id : Z) :
  has_product d id = true ->
  exists price rest,
    map product_price (List.filter (fun p => product_id p =? id) (products d))
    = price :: rest.
Proof.
  unfold has_product. induction (products d) as [| p ps IH]; simpl; [discriminate |].
  destruct (product_id p =? id); simpl; [intros _; eauto | exact IH].
Qed.

Lemma has_product_no_rows (d : Db) (id : Z) :
  has_product d id = false ->
  map product_price (List.filter (fun p => product_id p =? id) (products d)) = [].
Proof.
  unfold has_product. induction (products d) as [| p ps IH]; simpl; [reflexivity |].
  destruct (product_id p =? id); simpl; [discriminate | exact IH].
Qed.

Lemma has_product_false (d : Db) (id : Z) :
  has_product d id = false <-> Forall (fun p => product_id p <> id) (products d).
Proof.
  unfold has_product. rewrite <- not_true_iff_false, existsb_exists, Forall_forall.
  split.
  - intros H p Hp E. apply H. exists p. split; [apply list_elem_of_In; exact Hp | lia].
  - intros H (p & Hp & E). apply (H p); [apply list_elem_of_In; exact Hp | lia].
Qed.

Lemma productMap_of_fold (rows : list Product) (m : gmap Z Q) (k : Z) :
  fold_left (fun m p => <[product_id p := product_price p]> m) rows m !! k = None <->
  m !! k = None /\ Forall (fun p => product_id p <> k) rows.
Proof.
  revert m. induction rows as [| p rows IH]; intros m; simpl.
  - split; [intros H; split; [exact H | constructor] | intros [H _]; exact H].
  - rewrite IH. rewrite lookup_insert_None, Forall_cons. tauto.
Qed.

Lemma productMap_of_None (rows : list Product) (k : Z) :
  productMap_of rows !! k = None <-> Forall (fun p => product_id p <> k) rows.
Proof.
  unfold productMap_of. rewrite productMap_of_fold, lookup_empty. tauto.
Qed.

(** A requested product is absent from the price map exactly when it is
    absent from the table. *)
Lemma selected_lookup_None (d : Db) (l : list Item) (k : Z) :
  k ∈ map productId l ->
  selected d l !! k = None <-> has_product d k = false.
Proof.
  intros Hk. unfold selected.
  rewrite productMap_of_None, has_product_false, !Forall_forall.
  split.
  - intros H p Hp E. apply (H p); [| exact E].
    apply list_elem_of_In, filter_In. split; [apply list_elem_of_In; exact Hp |].
    apply bool_decide_eq_true. rewrite E. exact Hk.
  - intros H p Hp. apply H. apply list_elem_of_In, filter_In in Hp.
    apply list_elem_of_In. tauto.
Qed.

Lemma all_products_exist_selected (d : Db) (l : list Item) :
  all_products_exist d l = true <->
  Forall (fun i => selected d l !! productId i <> None) l.
Proof.
  unfold all_products_exist. rewrite forallb_forall, Forall_forall.
  split; intros H i Hi.
  - assert (productId i ∈ map productId l) as Hin
      by (apply list_elem_of_fmap; exists i; split; [reflexivity | exact Hi]).
    rewrite (selected_lookup_None d _ _ Hin).
    rewrite (H i) by (apply list_elem_of_In; exact Hi). discriminate.
  - apply list_elem_of_In in Hi.
    assert (productId i ∈ map productId l) as Hin
      by (apply list_elem_of_fmap; exists i; split; [reflexivity | exact Hi]).
    specialize (H i Hi).
    rewrite (selected_lookup_None d _ _ Hin) in H.
    destruct (has_product d (productId i)); congruence.
Qed.

Lemma validate_products_passes (m : gmap Z Q) (l : list Item) (w : World) :
  Forall (fun i => m !! productId i <> None) l <->
  validate_products m l w = (Returned tt, w).
Proof.
  induction l as [| i l IH]; simpl.
  - split; [reflexivity | constructor].
  - rewrite Forall_cons. destruct (m !! productId i) eqn:E.
    + rewrite <- IH. split; [tauto | intros; split; [discriminate | assumption]].
    + split; [intros [H _]; congruence | discriminate].
Qed.

(** The validation loop leaves the world alone: it passes or it throws. *)
Lemma validate_products_cases (m : gmap Z Q) (l : list Item) (w : World) :
  validate_products m l w = (Returned tt, w) \/
  exists e, validate_products m l w = (Thrown e, w).
Proof.
  induction l as [| i l IH]; simpl; [left; reflexivity |].
  destruct (m !! productId i); [exact IH | right; eexists; reflexivity].
Qed.

Lemma validate_selected_passes (d : Db) (l : list Item) (w : World) :
  validate_products (selected d l) l w = (Returned tt, w) ->
  all_products_exist d l = true.
Proof.
  intros H. apply all_products_exist_selected.
  apply (validate_products_passes _ _ w). exact H.
Qed.

Lemma validate_selected_throws (d : Db) (l : list Item) (w : World) (e : string) :
  validate_products (selected d l) l w = (Thrown e, w) ->
  all_products_exist d l = false.
Proof.
  intros H. destruct (all_products_exist d l) eqn:E; [| reflexivity].
  apply all_products_exist_selected in E.
  apply (validate_products_passes _ _ w) in E. congruence.
Qed.

(** *** The baseline checkout *)

(** The first loop stops at the first absent product, after one lookup per
    item before it and one for the item itself. *)
Lemma baseline_total_rejects (pre post : list Item) (bad : Item) (w : World) (total : Q) :
  all_products_exist (db w) pre = true ->
  has_product (db w) (productId bad) = false ->
  (forall k, (k <= length pre)%nat -> faults w (trips w + k) = false) ->
  baseline_total (pre ++ bad :: post) total w =
  (Returned (inl {| status := 400; body := error_body (not_found (productId bad)) |}),
   Nat.iter (length pre + 1) tick w).
Proof.
  revert w total. induction pre as [| i pre IH]; intros w total Hall Hbad Hq.
  - simpl. unfold bind, pool_select_price.
    rewrite await_ok by (rewrite <- (Nat.add_0_r (trips w)); apply Hq; simpl; lia).
    rewrite tick_db, (has_product_no_rows _ _ Hbad). reflexivity.
  - simpl in Hall. apply andb_prop in Hall as [Hi Hall].
    destruct (has_product_rows _ _ Hi) as (price & rest & Hrows).
    simpl. unfold bind at 1. unfold pool_select_price.
    rewrite await_ok by (rewrite <- (Nat.add_0_r (trips w)); apply Hq; simpl; lia).
    rewrite tick_db, Hrows.
    rewrite IH.
    + rewrite <- Nat.iter_succ_r. reflexivity.
    + rewrite tick_db. exact Hall.
    + rewrite tick_db. exact Hbad.
    + intros k Hk. cbn [trips faults tick set_now set_trips].
      replace (S (trips w) + k)%nat with (trips w + S k)%nat by lia.
      apply Hq. simpl. lia.
Qed.

(** C2, as stated, fails: five items, the third naming the absent product 3.
    The baseline route answers 400 after three price lookups and has written
    neither the order nor any row. *)
Lemma naive_partial_write_counterexample :
  checkout env_baseline five_items_body world0 =
    (Returned {| status := 400; body := error_body "Product 3 not found" |},
     Nat.iter 3 tick world0) /\
  orders (db (snd (checkout env_baseline five_items_body world0))) = [] /\
  order_items (db (snd (checkout env_baseline five_items_body world0))) = [] /\
  ~ first_two_persisted five_items (db world0)
      (db (snd (checkout env_baseline five_items_body world0))).
Proof.
  assert (checkout env_baseline five_items_body world0 =
    (Returned {| status := 400; body := error_body "Product 3 not found" |},
     Nat.iter 3 tick world0)) as E by (vm_compute; reflexivity).
  rewrite E. split; [reflexivity |]. split; [reflexivity |]. split; [reflexivity |].
  unfold first_two_persisted. simpl. discriminate.
Qed.

(** C2, amended: in naive mode a checkout whose items name an absent product
    is rejected with status 400 during the price-lookup pass, after one lookup
    for each item before the absent one and one for that item; this happens
    before the order or any item is written, so the world only differs by the
    round-trips made.  (For five items with the third absent: three lookups,
    nothing persisted.) *)
Theorem naive_rejects_before_any_write
    (env : Env) (uid : Z) (pre post : list Item) (bad : Item) (w : World) :
  checkout_is_optimized env = false ->
  uid <> 0 ->
  all_products_exist (db w) pre = true ->
  has_product (db w) (productId bad) = false ->
  (forall k, (k <= length pre)%nat -> faults w (trips w + k) = false) ->
  checkout env {| userId := Some uid; items := Some (pre ++ bad :: post) |} w =
  (Returned {| status := 400; body := error_body (not_found (productId bad)) |},
   Nat.iter (length pre + 1) tick w).
Proof.
  intros Henv Huid Hall Hbad Hq.
  rewrite (checkout_baseline_route env Henv). unfold checkout_baseline.
  assert (accepted {| userId := Some uid; items := Some (pre ++ bad :: post) |}
          = Some (uid, pre ++ bad :: post)) as ->.
  { unfold accepted. cbn [userId items].
    destruct (Z.eqb_spec uid 0); [contradiction |].
    destruct pre; reflexivity. }
  unfold try_catch, bind at 1.
  rewrite (baseline_total_rejects pre post bad w 0 Hall Hbad Hq). reflexivity.
Qed.

Lemma naive_rejects_before_any_write_witness :
  checkout_is_optimized env_baseline = false /\ 7 <> 0 /\
  all_products_exist (db world0) [item 1 1; item 2 1] = true /\
  has_product (db world0) (productId (item 3 1)) = false /\
  checkout env_baseline five_items_body world0 =
  (Returned {| status := 400; body := error_body (not_found 3) |},
   Nat.iter (2 + 1) tick world0).
Proof.
  split; [reflexivity |]. split; [discriminate |].
  split; [reflexivity |]. split; [reflexivity |].
  apply (naive_rejects_before_any_write env_baseline 7
           [item 1 1; item 2 1] [item 4 1; item 5 1] (item 3 1) world0);
    [reflexivity | discriminate | reflexivity | reflexivity | intros; reflexivity].
Defined.

(** Where the baseline route does leave a partial write: a round-trip that
    rejects during the insert loop.  Here the insert of the third row is
    rejected; the order and two rows stay. *)
Example naive_partial_write_on_fault :
  fst (checkout env_baseline all_present_body world_item_fault) =
    Returned internal_error /\
  map order_id
    (orders (db (snd (checkout env_baseline all_present_body world_item_fault)))) = [1] /\
  map item_product_id
    (order_items (db (snd (checkout env_baseline all_present_body world_item_fault))))
    = [1; 2].
Proof. vm_compute. repeat split. Qed.

(** *** The optimized checkout *)

(** Every run of the optimized handler either leaves the committed tables
    and the cache as they were and does not answer 200 (one of the six
    round-trips up to COMMIT was rejected, or a product is absent), or
    commits the order with all its rows; in the second case the cache entry
    of the user is deleted when Redis is available and that round-trip is
    not rejected. *)
Lemma checkout_optimized_outcome env b uid l w r w' :
  accepted b = Some (uid, l) ->
  txn w = None ->
  checkout_optimized env b w = (r, w') ->
  let t := trips w in
  let available := ENABLE_REDIS_CACHE env && redis_ready w in
  (db w' = db w /\ redis_store w' = redis_store w /\
   (forall resp, r = Returned resp -> status resp = 500) /\
   ((exists k, (k <= 5)%nat /\ faults w (t + k) = true) \/
    all_products_exist (db w) l = false))
  \/
  ((forall k, (k <= 5)%nat -> faults w (t + k) = false) /\
   all_products_exist (db w) l = true /\
   db w' = committed w uid l /\ txn w' = None /\
   ((r = Returned {| status := 200;
                     body := order_body (orders_id_seq w)
                               (optimized_total (selected (db w) l) l) |} /\
     redis_store w' =
       (if available then delete (cacheKey uid) (redis_store w) else redis_store w) /\
     (available = true -> faults w (t + 6) = false))
    \/
    (available = true /\ faults w (t + 6) = true /\
     redis_store w' = redis_store w /\
     (forall resp, r = Returned resp -> status resp = 500)))).
Proof.
  intros Hacc Htxn Hrun t available.
  replace (faults w (t + 6)) with (faults w (S (S (S (S (S (S (trips w))))))))
    by (f_equal; unfold t; lia).
  assert (forall j, (j <= 5)%nat -> faults w (t + j) = true ->
            exists k, (k <= 5)%nat /\ faults w (t + k) = true) as Hex
    by (intros j Hj Hf; exists j; split; assumption).
  unfold checkout_optimized in Hrun. rewrite Hacc in Hrun.
  unfold checkout_optimized_try, try_catch, bind, pool_connect, client_BEGIN,
    client_select_products, client_insert_order, client_insert_order_items,
    client_COMMIT, client_ROLLBACK, isRedisAvailable, redis_del, await, ret in Hrun.
  simp_world Hrun.
  fault_case Hrun.
  { injection Hrun as <- <-. left. repeat split; try discriminate.
    left. apply (Hex 0%nat); [lia |]. unfold t. rewrite Nat.add_0_r. exact F. }
  rewrite Htxn in Hrun. simp_world Hrun.
  fault_case Hrun.
  { assert (exists k, (k <= 5)%nat /\ faults w (t + k) = true) as Hk.
    { apply (Hex 1%nat); [lia |]. unfold t. rewrite Nat.add_1_r. exact F0. }
    fault_case Hrun; injection Hrun as <- <-; left;
      (split; [reflexivity |]); (split; [reflexivity |]);
      (split; [intros resp [= <-]; reflexivity || discriminate | left; exact Hk]). }
  fault_case Hrun.
  { assert (exists k, (k <= 5)%nat /\ faults w (t + k) = true) as Hk.
    { apply (Hex 2%nat); [lia |]. unfold t.
      replace (trips w + 2)%nat with (S (S (trips w))) by lia. exact F1. }
    fault_case Hrun; injection Hrun as <- <-; left;
      (split; [reflexivity |]); (split; [reflexivity |]);
      (split; [intros resp [= <-]; reflexivity || discriminate | left; exact Hk]). }
  fold (selected (db w) l) in Hrun.
  match type of Hrun with context [validate_products ?m ?l ?w] =>
    destruct (validate_products_cases m l w) as [Hv | [e Hv]]; rewrite Hv in Hrun
  end; simp_world Hrun.
  2:{ apply validate_selected_throws in Hv.
      fault_case Hrun; injection Hrun as <- <-; left;
      (split; [reflexivity |]); (split; [reflexivity |]);
      (split; [intros resp [= <-]; reflexivity || discriminate | right; exact Hv]). }
  apply validate_selected_passes in Hv.
  fault_case Hrun.
  { assert (exists k, (k <= 5)%nat /\ faults w (t + k) = true) as Hk.
    { apply (Hex 3%nat); [lia |]. unfold t.
      replace (trips w + 3)%nat with (S (S (S (trips w)))) by lia. exact F2. }
    fault_case Hrun; injection Hrun as <- <-; left;
      (split; [reflexivity |]); (split; [reflexivity |]);
      (split; [intros resp [= <-]; reflexivity || discriminate | left; exact Hk]). }
  fault_case Hrun.
  { assert (exists k, (k <= 5)%nat /\ faults w (t + k) = true) as Hk.
    { apply (Hex 4%nat); [lia |]. unfold t.
      replace (trips w + 4)%nat with (S (S (S (S (trips w))))) by lia. exact F3. }
    fault_case Hrun; injection Hrun as <- <-; left;
      (split; [reflexivity |]); (split; [reflexivity |]);
      (split; [intros resp [= <-]; reflexivity || discriminate | left; exact Hk]). }
  fault_case Hrun.
  { assert (exists k, (k <= 5)%nat /\ faults w (t + k) = true) as Hk.
    { apply (Hex 5%nat); [lia |]. unfold t.
      replace (trips w + 5)%nat with (S (S (S (S (S (trips w)))))) by lia. exact F4. }
    fault_case Hrun; injection Hrun as <- <-; left;
      (split; [reflexivity |]); (split; [reflexivity |]);
      (split; [intros resp [= <-]; reflexivity || discriminate | left; exact Hk]). }
  right.
  assert (forall k, (k <= 5)%nat -> faults w (t + k) = false) as Hnone.
  { intros k Hk. unfold t.
    destruct k as [| [| [| [| [| [| k]]]]]]; try lia;
      [ replace (trips w + 0)%nat with (trips w) by lia
      | replace (trips w + 1)%nat with (S (trips w)) by lia
      | replace (trips w + 2)%nat with (S (S (trips w))) by lia
      | replace (trips w + 3)%nat with (S (S (S (trips w)))) by lia
      | replace (trips w + 4)%nat with (S (S (S (S (trips w))))) by lia
      | replace (trips w + 5)%nat with (S (S (S (S (S (trips w)))))) by lia ];
      assumption. }
  split; [exact Hnone |]. split; [exact Hv |].
  fold available in Hrun.
  destruct available eqn:Eav; simp_world Hrun.
  - fault_case Hrun.
    + fault_case Hrun; injection Hrun as <- <-;
        (split; [reflexivity |]); (split; [reflexivity |]); right;
        (split; [reflexivity |]); (split; [reflexivity |]);
        (split; [reflexivity |]); intros resp [= <-]; reflexivity || discriminate.
    + injection Hrun as <- <-.
      split; [reflexivity |]. split; [reflexivity |]. left.
      split; [reflexivity |]. split; [reflexivity |]. reflexivity.
  - injection Hrun as <- <-.
    split; [reflexivity |]. split; [reflexivity |]. left.
    split; [reflexivity |]. split; [reflexivity |]. discriminate.
Qed.

Ltac books_leaf :=
  cbn; repeat split; eauto; try lia; try congruence; try discriminate.

(** What every run of the optimized handler leaves alone, and what it costs. *)
Lemma checkout_optimized_books env b w r w' :
  txn w = None ->
  checkout_optimized env b w = (r, w') ->
  collected w' = collected w /\
  products (db w') = products (db w) /\
  redis_ready w' = redis_ready w /\
  (trips w' <= trips w + 8)%nat /\
  (forall resp, r = Returned resp -> txn w' = None) /\
  (forall resp, r = Returned resp -> status resp = 200 ->
   trips w' = (trips w + (if ENABLE_REDIS_CACHE env && redis_ready w then 7 else 6))%nat) /\
  (forall key, redis_store w' !! key = redis_store w !! key \/
               (redis_store w' !! key = None /\ exists uid, userId b = Some uid /\
                                                 key = cacheKey uid)).
Proof.
  intros Htxn Hrun.
  unfold checkout_optimized in Hrun.
  destruct (accepted b) as [[uid l] |] eqn:Hacc.
  2:{ injection Hrun as <- <-. books_leaf.
      intros resp [= <-]. discriminate. }
  assert (userId b = Some uid) as Huid.
  { unfold accepted in Hacc. destruct (userId b) as [u |]; [| discriminate].
    destruct (items b) as [[| i l'] |]; try discriminate.
    destruct (u =? 0); [discriminate |]. congruence. }
  unfold checkout_optimized_try, try_catch, bind, pool_connect, client_BEGIN,
    client_select_products, client_insert_order, client_insert_order_items,
    client_COMMIT, client_ROLLBACK, isRedisAvailable, redis_del, await, ret in Hrun.
  simp_world Hrun.
  fault_case Hrun.
  { injection Hrun as <- <-. books_leaf. }
  rewrite Htxn in Hrun. simp_world Hrun.
  fault_case Hrun.
  { fault_case Hrun; injection Hrun as <- <-; books_leaf;
      intros resp [= <-]; discriminate. }
  fault_case Hrun.
  { fault_case Hrun; injection Hrun as <- <-; books_leaf;
      intros resp [= <-]; discriminate. }
  match type of Hrun with context [validate_products ?m ?l ?w] =>
    destruct (validate_products_cases m l w) as [Hv | [e Hv]]; rewrite Hv in Hrun
  end; simp_world Hrun.
  2:{ fault_case Hrun; injection Hrun as <- <-; books_leaf;
      intros resp [= <-]; discriminate. }
  fault_case Hrun.
  { fault_case Hrun; injection Hrun as <- <-; books_leaf;
      intros resp [= <-]; discriminate. }
  fault_case Hrun.
  { fault_case Hrun; injection Hrun as <- <-; books_leaf;
      intros resp [= <-]; discriminate. }
  fault_case Hrun.
  { fault_case Hrun; injection Hrun as <- <-; books_leaf;
      intros resp [= <-]; discriminate. }
  destruct (ENABLE_REDIS_CACHE env && redis_ready w) eqn:Eav; simp_world Hrun.
  - fault_case Hrun.
    + fault_case Hrun; injection Hrun as <- <-; books_leaf;
        intros resp [= <-]; discriminate.
    + injection Hrun as <- <-. books_leaf.
      intros key. destruct (decide (key = cacheKey uid)) as [-> | Hne].
      * right. split; [apply lookup_delete_eq | eauto].
      * left. apply lookup_delete_ne. congruence.
  - injection Hrun as <- <-. books_leaf.
Qed.

(** The optimized handler leaves a request unanswered only when its last
    round-trip, the connect or the ROLLBACK, was rejected. *)
Lemma checkout_optimized_unanswered env b w r w' e :
  txn w = None ->
  checkout_optimized env b w = (r, w') ->
  r = Thrown e ->
  faults w (pred (trips w')) = true.
Proof.
  intros Htxn Hrun Hr. subst r.
  unfold checkout_optimized in Hrun.
  destruct (accepted b) as [[uid l] |] eqn:Hacc; [| discriminate Hrun].
  unfold checkout_optimized_try, try_catch, bind, pool_connect, client_BEGIN,
    client_select_products, client_insert_order, client_insert_order_items,
    client_COMMIT, client_ROLLBACK, isRedisAvailable, redis_del, await, ret in Hrun.
  simp_world Hrun.
  fault_case Hrun.
  { injection Hrun as _ <-. cbn. exact F. }
  rewrite Htxn in Hrun. simp_world Hrun.
  fault_case Hrun.
  { fault_case Hrun; [injection Hrun as _ <-; cbn; assumption | discriminate Hrun]. }
  fault_case Hrun.
  { fault_case Hrun; [injection Hrun as _ <-; cbn; assumption | discriminate Hrun]. }
  match type of Hrun with context [validate_products ?m ?l ?w] =>
    destruct (validate_products_cases m l w) as [Hv | [e' Hv]]; rewrite Hv in Hrun
  end; simp_world Hrun.
  2:{ fault_case Hrun; [injection Hrun as _ <-; cbn; assumption | discriminate Hrun]. }
  fault_case Hrun.
  { fault_case Hrun; [injection Hrun as _ <-; cbn; assumption | discriminate Hrun]. }
  fault_case Hrun.
  { fault_case Hrun; [injection Hrun as _ <-; cbn; assumption | discriminate Hrun]. }
  fault_case Hrun.
  { fault_case Hrun; [injection Hrun as _ <-; cbn; assumption | discriminate Hrun]. }
  destruct (ENABLE_REDIS_CACHE env && redis_ready w) eqn:Eav; simp_world Hrun.
  - fault_case Hrun.
    + fault_case Hrun; [injection Hrun as _ <-; cbn; assumption | discriminate Hrun].
    + discriminate Hrun.
  - discriminate Hrun.
Qed.

(** C4: in optimized mode, when the existence read is rejected, a named
    product is absent, the order insert is rejected or the items insert is
    rejected, the committed orders and order rows are what they were before
    the request; a request that is answered is answered with status 500 and
    its transaction is closed, the working copy with whatever was inserted
    discarded; a request stays unanswered only when its last round-trip,
    the ROLLBACK (or the connect), was itself rejected. *)
Theorem optimized_checkout_is_atomic
    (env : Env) (b : CheckoutBody) (uid : Z) (l : list Item)
    (w w' : World) (r : Outcome Response) :
  checkout_is_optimized env = true ->
  accepted b = Some (uid, l) ->
  txn w = None ->
  checkout env b w = (r, w') ->
  (faults w (trips w + 2) = true \/
   all_products_exist (db w) l = false \/
   faults w (trips w + 3) = true \/
   faults w (trips w + 4) = true) ->
  orders (db w') = orders (db w) /\
  order_items (db w') = order_items (db w) /\
  (forall resp, r = Returned resp -> status resp = 500 /\ txn w' = None) /\
  (forall e, r = Thrown e -> faults w (pred (trips w')) = true).
Proof.
  intros Henv Hacc Htxn Hrun Hfail.
  rewrite (checkout_optimized_route env Henv) in Hrun.
  destruct (checkout_optimized_outcome env b uid l w r w' Hacc Htxn Hrun)
    as [(Hdb & _ & Hresp & _) | (Hnone & Hall & _)].
  - destruct (checkout_optimized_books env b w r w' Htxn Hrun)
      as (_ & _ & _ & _ & Hclosed & _).
    rewrite Hdb. split; [reflexivity |]. split; [reflexivity |]. split.
    + intros resp Hr. split; [exact (Hresp resp Hr) | exact (Hclosed resp Hr)].
    + intros e Hr. exact (checkout_optimized_unanswered env b w r w' e Htxn Hrun Hr).
  - exfalso. destruct Hfail as [F | [F | [F | F]]].
    + rewrite Hnone in F by lia. discriminate.
    + congruence.
    + rewrite Hnone in F by lia. discriminate.
    + rewrite Hnone in F by lia. discriminate.
Qed.

(** The items insert (fifth round-trip) is rejected after the order was
    inserted: the request is answered 500, nothing is persisted and no
    transaction is left open. *)
Lemma optimized_checkout_is_atomic_witness :
  let run := checkout env_optimized two_items_body world_items_fault in
  checkout_is_optimized env_optimized = true /\
  accepted two_items_body = Some (7, [item 1 1; item 2 3]) /\
  txn world_items_fault = None /\
  faults world_items_fault (trips world_items_fault + 4) = true /\
  fst run = Returned internal_error /\
  orders (db (snd run)) = [] /\
  order_items (db (snd run)) = [] /\
  txn (snd run) = None.
Proof.
  intros run.
  assert (fst run = Returned internal_error) as Hr by (vm_compute; reflexivity).
  split; [reflexivity |]. split; [reflexivity |]. split; [reflexivity |].
  split; [reflexivity |]. split; [exact Hr |].
  destruct (optimized_checkout_is_atomic env_optimized two_items_body 7
              [item 1 1; item 2 3] world_items_fault (snd run) (fst run)
              eq_refl eq_refl eq_refl (surjective_pairing run)
              (or_intror (or_intror (or_intror eq_refl))))
    as (Ho & Hi & Hclosed & _).
  split; [exact Ho |]. split; [exact Hi |].
  exact (proj2 (Hclosed internal_error Hr)).
Defined.

(** What the ROLLBACK discards: when it is rejected as well, the open
    transaction still holds the order inserted before the failure; when it
    goes through, the transaction is closed. *)
Example rollback_discards_the_inserted_order :
  let run := checkout env_optimized two_items_body world_rollback_fault in
  fst run = Thrown "rejected" /\
  orders (db (snd run)) = [] /\
  option_map (fun t => map order_id (orders t)) (txn (snd run)) = Some [1] /\
  txn (snd (checkout env_optimized two_items_body world_items_fault)) = None.
Proof. vm_compute. repeat split. Qed.

(** C5, the code at the failing input: in optimized mode the five-item
    checkout naming the absent product 3 is answered with status 500 after
    four round-trips (connect, BEGIN, the existence read, ROLLBACK) and no
    write; the baseline route answers the same request with status 400. *)
Theorem optimized_missing_product_answers_500 :
  checkout env_optimized five_items_body world0 =
    (Returned {| status := 500; body := error_body "Internal server error" |},
     Nat.iter 4 tick world0) /\
  fst (checkout env_baseline five_items_body world0) =
    Returned {| status := 400; body := error_body "Product 3 not found" |}.
Proof. split; vm_compute; reflexivity. Qed.

(** *** The recommendations route *)

Lemma recommendations_cached_route sql iso (env : Env) :
  ENABLE_REDIS_CACHE env = true ->
  recommendations sql iso env = recommendations_cached sql iso env.
Proof. intros H. unfold recommendations. rewrite H. reflexivity. Qed.

Lemma recommendations_baseline_route sql iso (env : Env) :
  ENABLE_REDIS_CACHE env = false ->
  recommendations sql iso env = recommendations_baseline sql iso.
Proof. intros H. unfold recommendations. rewrite H. reflexivity. Qed.

Section RecommendationRuns.

Variable sql : Db -> Z -> list ProductRow.
Variable iso : Z -> string.

(** The cache-disabled branch: one round-trip. *)
Lemma recommendations_baseline_run (uid : Z) (w : World) :
  recommendations_baseline sql iso uid w =
  if faults w (trips w) then (Returned internal_error, tick w)
  else (Returned {| status := 200;
                    body := JObj (computed_fields sql iso (db w) uid (now (tick w))) |},
        set_collected
          (recordDbQuery recommendations_sql (now (tick w) - now w) (now (tick w))
             (collected w))
          (tick w)).
Proof.
  unfold recommendations_baseline, timed_query, pool_recommendations, try_catch, bind,
    record, Date_now, await, ret.
  destruct (faults w (trips w)); reflexivity.
Qed.

(** The cache-enabled branch: a hit, a computed response, or a failure. *)
Lemma recommendations_cached_outcome (env : Env) (uid : Z) (w w' : World)
    (r : Outcome Response) :
  recommendations_cached sql iso env uid w = (r, w') ->
  let available := ENABLE_REDIS_CACHE env && redis_ready w in
  (available = true /\ faults w (trips w) = false /\
   exists v, live_entry (tick w) (cacheKey uid) = Some v /\
     r = Returned {| status := 200; body := v |} /\
     w' = set_collected (recordCacheHit (collected w)) (tick w))
  \/
  ((available = false \/
    (available = true /\ faults w (trips w) = false /\
     live_entry (tick w) (cacheKey uid) = None)) /\
   cacheHits (collected w') = cacheHits (collected w) /\
   cacheMisses (collected w') =
     (if available then S (cacheMisses (collected w)) else cacheMisses (collected w)) /\
   db w' = db w /\
   exists t,
     r = Returned {| status := 200;
                     body := JObj (computed_fields sql iso (db w) uid t
                                   ++ [("cached", JBool false)]) |} /\
     (available = true ->
      exists e, redis_store w' = <[cacheKey uid := e]> (redis_store w) /\
        cached_value e = JObj (computed_fields sql iso (db w) uid t
                               ++ [("cached", JBool false)])))
  \/
  (r = Returned internal_error /\
   cacheHits (collected w') = cacheHits (collected w) /\
   redis_store w' = redis_store w /\ db w' = db w /\
   (available = true -> faults w (trips w) = false ->
    live_entry (tick w) (cacheKey uid) = None ->
    cacheMisses (collected w') = S (cacheMisses (collected w)))).
Proof.
  intros Hrun available.
  unfold recommendations_cached, timed_query, pool_recommendations, try_catch, bind,
    isRedisAvailable, redis_get, redis_setEx, record, Date_now, await, ret in Hrun.
  simp_world Hrun. fold available in Hrun.
  destruct available eqn:Eav; simp_world Hrun.
  - fault_case Hrun.
    { injection Hrun as <- <-. right. right. repeat split; congruence. }
    change (match redis_store w !! cacheKey uid with
            | Some e => if now w + latency w (trips w) <? expires_at e
                        then Some (cached_value e) else None
            | None => None end)
      with (live_entry (tick w) (cacheKey uid)) in Hrun.
    destruct (live_entry (tick w) (cacheKey uid)) as [v |] eqn:Elive; simp_world Hrun.
    { injection Hrun as <- <-. left. split; [reflexivity |]. split; [reflexivity |].
      exists v. repeat split. }
    fault_case Hrun.
    { injection Hrun as <- <-. right. right. repeat split; congruence. }
    unfold available in Eav. rewrite Eav in Hrun. simp_world Hrun.
    fault_case Hrun.
    { injection Hrun as <- <-. right. right. repeat split; congruence. }
    injection Hrun as <- <-. right. left.
    split; [right; repeat split |]. split; [reflexivity |]. split; [reflexivity |].
    split; [reflexivity |].
    eexists. split; [reflexivity |]. intros _. eexists. split; reflexivity.
  - fault_case Hrun.
    { injection Hrun as <- <-. right. right. repeat split; congruence. }
    unfold available in Eav. rewrite Eav in Hrun. simp_world Hrun.
    injection Hrun as <- <-. right. left.
    split; [left; reflexivity |]. split; [reflexivity |]. split; [reflexivity |].
    split; [reflexivity |].
    eexists. split; [reflexivity |]. discriminate.
Qed.

(** A response computed by the cache-enabled branch carries the instant at
    which its query returned: after the lookup and the query when the cache
    is reachable, after the query alone when it is not; it is what the
    branch stores, for 300 seconds from the end of the write. *)
Lemma recommendations_cached_computed (env : Env) (uid : Z) (w w' : World)
    (resp : Response) :
  recommendations_cached sql iso env uid w = (Returned resp, w') ->
  status resp = 200 ->
  cacheHits (collected w') = cacheHits (collected w) ->
  let available := ENABLE_REDIS_CACHE env && redis_ready w in
  body resp =
    JObj (computed_fields sql iso (db w) uid
            (now (if available then tick (tick w) else tick w))
          ++ [("cached", JBool false)]) /\
  (available = true ->
   redis_store w' !! cacheKey uid
   = Some {| cached_value := body resp; expires_at := now w' + 300 * 1000 |}).
Proof.
  intros Hrun Hst Hhits available.
  unfold recommendations_cached, timed_query, pool_recommendations, try_catch, bind,
    isRedisAvailable, redis_get, redis_setEx, record, Date_now, await, ret in Hrun.
  simp_world Hrun. fold available in Hrun.
  destruct available eqn:Eav; simp_world Hrun.
  - fault_case Hrun.
    { injection Hrun as <- <-. discriminate Hst. }
    destruct (match redis_store w !! cacheKey uid with
              | Some e => if now w + latency w (trips w) <? expires_at e
                          then Some (cached_value e) else None
              | None => None end) as [v |] eqn:Elive; simp_world Hrun.
    { injection Hrun as <- <-. cbn in Hhits. lia. }
    fault_case Hrun.
    { injection Hrun as <- <-. discriminate Hst. }
    unfold available in Eav. rewrite Eav in Hrun. simp_world Hrun.
    fault_case Hrun.
    { injection Hrun as <- <-. discriminate Hst. }
    injection Hrun as <- <-. cbn. split; [reflexivity |].
    intros _. apply lookup_insert_eq.
  - fault_case Hrun.
    { injection Hrun as <- <-. discriminate Hst. }
    unfold available in Eav. rewrite Eav in Hrun. simp_world Hrun.
    injection Hrun as <- <-. cbn. split; [reflexivity | discriminate].
Qed.

End RecommendationRuns.

(** C7, as stated, fails: on the same tables, an empty cache and a clock
    that reads the same instant throughout, the two routes compute the same
    [recommendations] and the same [generatedAt], and the response of the
    cache-enabled route still differs: it has the field [cached], which the
    response of the cache-disabled route does not have. *)
Lemma cached_content_counterexample :
  exists r1 r2,
    fst (recommendations sample_rows sample_iso env_optimized 7 world_instant)
      = Returned r1 /\
    fst (recommendations sample_rows sample_iso env_baseline 7 world_instant)
      = Returned r2 /\
    status r1 = 200 /\ status r2 = 200 /\
    cacheMisses (collected (snd (recommendations sample_rows sample_iso
                                   env_optimized 7 world_instant))) = 1%nat /\
    body r2 = JObj (computed_fields sample_rows sample_iso shop 7 1000) /\
    body r1 = JObj (computed_fields sample_rows sample_iso shop 7 1000
                    ++ [("cached", JBool false)]) /\
    body r1 <> body r2.
Proof.
  eexists. eexists.
  split; [vm_compute; reflexivity |]. split; [vm_compute; reflexivity |].
  split; [reflexivity |]. split; [reflexivity |]. split; [vm_compute; reflexivity |].
  split; [reflexivity |]. split; [reflexivity |].
  cbn [body]. intros H. discriminate H.
Qed.

(** C7, amended: run from the same world, the cache-enabled route on a miss
    and the cache-disabled route answer with the same [recommendations]
    array, each with the instant at which its own query returned as
    [generatedAt] (one round-trip after the start for the cache-disabled
    route, two for the cache-enabled route when Redis is ready); the
    cache-enabled response has one more field, [cached: false], and is what
    is stored when Redis is ready.  On a hit the response is the live stored
    value, unchanged, and the store is left as it was. *)
Theorem cached_response_adds_flag
    (sql : Db -> Z -> list ProductRow) (iso : Z -> string)
    (on off : Env) (uid : Z) (w w1 w2 : World) (r1 r2 : Response) :
  ENABLE_REDIS_CACHE on = true ->
  ENABLE_REDIS_CACHE off = false ->
  recommendations sql iso on uid w = (Returned r1, w1) ->
  recommendations sql iso off uid w = (Returned r2, w2) ->
  status r2 = 200 ->
  (status r1 = 200 ->
   cacheHits (collected w1) = cacheHits (collected w) ->
   body r2 = JObj [("recommendations", JArr (map with_score (sql (db w) uid)));
                   ("generatedAt", JStr (iso (now (tick w))))] /\
   body r1 = JObj [("recommendations", JArr (map with_score (sql (db w) uid)));
                   ("generatedAt",
                    JStr (iso (now (if redis_ready w then tick (tick w) else tick w))));
                   ("cached", JBool false)] /\
   (redis_ready w = true ->
    redis_store w1 !! cacheKey uid
    = Some {| cached_value := body r1; expires_at := now w1 + 300 * 1000 |})) /\
  (cacheHits (collected w1) <> cacheHits (collected w) ->
   live_entry (tick w) (cacheKey uid) = Some (body r1) /\ status r1 = 200 /\
   redis_store w1 = redis_store w).
Proof.
  intros Hon Hoff Hrun1 Hrun2 Hst2.
  rewrite (recommendations_cached_route sql iso on Hon) in Hrun1.
  rewrite (recommendations_baseline_route sql iso off Hoff) in Hrun2.
  rewrite recommendations_baseline_run in Hrun2.
  destruct (faults w (trips w)) eqn:F; injection Hrun2 as <- <-; [discriminate Hst2 |].
  split.
  - intros Hst1 Hhits.
    destruct (recommendations_cached_computed sql iso on uid w w1 r1 Hrun1 Hst1 Hhits)
      as (Hbody & Hstore).
    rewrite Hon in Hbody, Hstore. cbn [andb] in Hbody, Hstore.
    split; [reflexivity |]. split; [exact Hbody | exact Hstore].
  - intros Hne.
    destruct (recommendations_cached_outcome sql iso on uid w w1 _ Hrun1)
      as [(Hav & _ & v & Hlive & [= ->] & ->)
         | [(_ & Hhits & _) | (_ & Hhits & _)]]; [| contradiction | contradiction].
    split; [exact Hlive |]. split; reflexivity.
Qed.

(** An empty cache and round-trips of 5 ms from instant 1000: the
    cache-disabled response is stamped 1005, the cache-enabled one 1010. *)
Lemma cached_response_adds_flag_witness :
  let run1 := recommendations sample_rows sample_iso env_optimized 7 world0 in
  let run2 := recommendations sample_rows sample_iso env_baseline 7 world0 in
  ENABLE_REDIS_CACHE env_optimized = true /\
  ENABLE_REDIS_CACHE env_baseline = false /\
  exists r1 r2,
    fst run1 = Returned r1 /\ fst run2 = Returned r2 /\
    status r2 = 200 /\ status r1 = 200 /\
    cacheHits (collected (snd run1)) = cacheHits (collected world0) /\
    body r2 = JObj [("recommendations", JArr (map with_score (sample_rows shop 7)));
                    ("generatedAt", JStr (sample_iso 1005))] /\
    body r1 = JObj [("recommendations", JArr (map with_score (sample_rows shop 7)));
                    ("generatedAt", JStr (sample_iso 1010));
                    ("cached", JBool false)] /\
    redis_store (snd run1) !! cacheKey 7
    = Some {| cached_value := body r1; expires_at := 1015 + 300 * 1000 |}.
Proof.
  intros run1 run2.
  split; [reflexivity |]. split; [reflexivity |].
  destruct run1 as [o1 w1] eqn:E1. destruct run2 as [o2 w2] eqn:E2.
  unfold run1 in E1. unfold run2 in E2.
  destruct o1 as [r1 | e1]; [| vm_compute in E1; discriminate E1].
  destruct o2 as [r2 | e2]; [| vm_compute in E2; discriminate E2].
  assert (status r1 = 200) as S1 by (vm_compute in E1; injection E1 as <- _; reflexivity).
  assert (status r2 = 200) as S2 by (vm_compute in E2; injection E2 as <- _; reflexivity).
  assert (cacheHits (collected w1) = cacheHits (collected world0)) as Hh
    by (vm_compute in E1; injection E1 as _ <-; reflexivity).
  assert (now w1 = 1015) as Hn
    by (vm_compute in E1; injection E1 as _ <-; reflexivity).
  exists r1, r2. cbn [fst snd]. split; [reflexivity |]. split; [reflexivity |].
  split; [exact S2 |]. split; [exact S1 |]. split; [exact Hh |].
  destruct (proj1 (cached_response_adds_flag sample_rows sample_iso
                     env_optimized env_baseline 7 world0 w1 w2 r1 r2
                     eq_refl eq_refl E1 E2 S2) S1 Hh)
    as (Hb2 & Hb1 & Hs).
  split; [exact Hb2 |]. split; [exact Hb1 |].
  rewrite <- Hn. apply Hs. reflexivity.
Defined.

(** C8, as stated, fails: a checkout made while the Redis client is not
    ready succeeds and leaves the user's entry in the store; once the client
    is ready again, the next read is a hit that returns the content stored
    before the write. *)
Lemma invalidation_counterexample :
  exists resp w1 w2,
    checkout env_optimized two_items_body world_redis_down = (Returned resp, w1) /\
    status resp = 200 /\
    map item_product_id (order_items (db w1)) = [1; 2] /\
    redis_store w1 !! cacheKey 7 = Some stale_entry /\
    recommendations sample_rows sample_iso env_optimized 7 (set_redis_ready true w1)
      = (Returned {| status := 200; body := cached_value stale_entry |}, w2) /\
    cacheHits (collected w2) = 1%nat /\ cacheMisses (collected w2) = 0%nat.
Proof.
  eexists. eexists. eexists.
  split; [vm_compute; reflexivity |]. split; [reflexivity |].
  split; [reflexivity |]. split; [vm_compute; reflexivity |].
  split; [vm_compute; reflexivity |]. split; reflexivity.
Qed.

(** C8, amended: after a successful optimized-mode checkout for a user made
    while the Redis client is ready, the store has no entry under that user's
    key; a recommendations read for that user made on that store is not a
    hit: it counts a miss when the cache is reachable, and a successful
    response is computed from the tables as they are at the read. *)
Theorem checkout_invalidates_when_cache_ready
    (sql : Db -> Z -> list ProductRow) (iso : Z -> string)
    (env : Env) (b : CheckoutBody) (uid : Z) (l : list Item)
    (w w1 : World) (resp : Response) :
  checkout_is_optimized env = true ->
  accepted b = Some (uid, l) ->
  txn w = None ->
  redis_ready w = true ->
  checkout env b w = (Returned resp, w1) ->
  status resp = 200 ->
  redis_store w1 !! cacheKey uid = None /\
  forall (w2 w3 : World) (r : Outcome Response),
    redis_store w2 = redis_store w1 ->
    recommendations sql iso env uid w2 = (r, w3) ->
    cacheHits (collected w3) = cacheHits (collected w2) /\
    (redis_ready w2 = true -> faults w2 (trips w2) = false ->
     cacheMisses (collected w3) = S (cacheMisses (collected w2))) /\
    (forall resp2, r = Returned resp2 -> status resp2 = 200 ->
     exists t,
       body resp2 =
       JObj [("recommendations", JArr (map with_score (sql (db w2) uid)));
             ("generatedAt", JStr (iso t)); ("cached", JBool false)]).
Proof.
  intros Henv Hacc Htxn Hready Hrun Hst.
  pose proof (optimized_enables_cache env Henv) as Hcache.
  rewrite (checkout_optimized_route env Henv) in Hrun.
  assert (redis_store w1 !! cacheKey uid = None) as Hgone.
  { destruct (checkout_optimized_outcome env b uid l w _ w1 Hacc Htxn Hrun)
      as [(_ & _ & H500 & _) | (_ & _ & _ & _ & [(_ & Hstore & _) | (_ & _ & _ & H500)])].
    - specialize (H500 resp eq_refl). lia.
    - rewrite Hstore, Hcache, Hready. apply lookup_delete_eq.
    - specialize (H500 resp eq_refl). lia. }
  split; [exact Hgone |].
  intros w2 w3 r Hsame Hread.
  rewrite (recommendations_cached_route sql iso env Hcache) in Hread.
  assert (live_entry (tick w2) (cacheKey uid) = None) as Hlive.
  { unfold live_entry. cbn [redis_store tick set_now set_trips].
    rewrite Hsame, Hgone. reflexivity. }
  destruct (recommendations_cached_outcome sql iso env uid w2 w3 r Hread)
    as [(_ & _ & v & Hv & _)
       | [(Hwhy & Hhits & Hmiss & _ & t & -> & _)
         | (-> & Hhits & _ & _ & Hmiss)]].
  - congruence.
  - split; [exact Hhits |]. split.
    + intros Hr2 _. rewrite Hmiss, Hcache, Hr2. reflexivity.
    + intros resp2 [= <-] _. exists t. reflexivity.
  - split; [exact Hhits |]. split.
    + intros Hr2 Hf.
      apply Hmiss; [rewrite Hcache, Hr2; reflexivity | exact Hf | exact Hlive].
    + intros resp2 [= <-]. discriminate.
Qed.

(** The same checkout with the client ready: the stale entry is gone and the
    next read counts a miss. *)
Lemma checkout_invalidates_when_cache_ready_witness :
  checkout_is_optimized env_optimized = true /\
  accepted two_items_body = Some (7, [item 1 1; item 2 3]) /\
  txn world_cached = None /\
  redis_ready world_cached = true /\
  redis_store world_cached !! cacheKey 7 = Some stale_entry /\
  exists resp w1,
    checkout env_optimized two_items_body world_cached = (Returned resp, w1) /\
    status resp = 200 /\
    redis_store w1 !! cacheKey 7 = None /\
    cacheHits (collected (snd (recommendations sample_rows sample_iso
                                 env_optimized 7 w1))) = cacheHits (collected w1) /\
    cacheMisses (collected (snd (recommendations sample_rows sample_iso
                                   env_optimized 7 w1))) = S (cacheMisses (collected w1)).
Proof.
  split; [reflexivity |]. split; [reflexivity |]. split; [reflexivity |].
  split; [reflexivity |]. split; [vm_compute; reflexivity |].
  destruct (checkout env_optimized two_items_body world_cached) as [o w1] eqn:E.
  destruct o as [resp | e]; [| vm_compute in E; discriminate E].
  assert (status resp = 200) as Hst by (vm_compute in E; injection E as <- _; reflexivity).
  assert (redis_ready w1 = true) as Hr by (vm_compute in E; injection E as _ <-; reflexivity).
  assert (faults w1 (trips w1) = false) as Hf
    by (vm_compute in E; injection E as _ <-; reflexivity).
  exists resp, w1. split; [reflexivity |]. split; [exact Hst |].
  destruct (checkout_invalidates_when_cache_ready sample_rows sample_iso
              env_optimized two_items_body 7 [item 1 1; item 2 3]
              world_cached w1 resp eq_refl eq_refl eq_refl eq_refl E Hst)
    as (Hgone & Hnext).
  split; [exact Hgone |].
  destruct (Hnext w1
              (snd (recommendations sample_rows sample_iso env_optimized 7 w1))
              (fst (recommendations sample_rows sample_iso env_optimized 7 w1))
              eq_refl (surjective_pairing _))
    as (Hhits & Hmiss & _).
  split; [exact Hhits | exact (Hmiss Hr Hf)].
Defined.

(** * Further properties *)

Lemma sorted_prefix_le (l : list Z) (k : nat) (v : Z) :
  Sorted Z.le l -> l !! k = Some v -> Forall (fun d => d <= v) (take (S k) l).
Proof.
  intros Hs. apply (Sorted_StronglySorted Z.le) in Hs.
  revert k. induction Hs as [| x l Hl IH Hx]; intros k Hk; [discriminate |].
  destruct k as [| k]; simpl in *.
  - injection Hk as ->. constructor; [lia | constructor].
  - constructor.
    + rewrite Forall_forall in Hx. apply Hx. eapply list_elem_of_lookup_2. exact Hk.
    + apply IH. exact Hk.
Qed.

Lemma sorted_suffix_ge (l : list Z) (k : nat) (v : Z) :
  Sorted Z.le l -> l !! k = Some v -> Forall (fun d => v <= d) (drop k l).
Proof.
  intros Hs. apply (Sorted_StronglySorted Z.le) in Hs.
  revert k. induction Hs as [| x l Hl IH Hx]; intros k Hk; [discriminate |].
  destruct k as [| k]; simpl in *.
  - injection Hk as ->. constructor; [lia | exact Hx].
  - apply IH. exact Hk.
Qed.

Lemma filter_all (P : Z -> Prop) `{forall x, Decision (P x)} (l : list Z) :
  Forall P l -> filter P l = l.
Proof.
  induction 1 as [| x l Hx Hl IH]; [reflexivity |].
  rewrite filter_cons_True by exact Hx. rewrite IH. reflexivity.
Qed.

Lemma count_prefix (P : Z -> Prop) `{forall x, Decision (P x)} (l : list Z) (n : nat) :
  Forall P (take n l) -> (n <= length l)%nat -> (n <= length (filter P l))%nat.
Proof.
  intros Hall Hn. rewrite <- (take_drop n l) at 1.
  rewrite filter_app, length_app, (filter_all P _ Hall), length_take. lia.
Qed.

Lemma count_suffix (P : Z -> Prop) `{forall x, Decision (P x)} (l : list Z) (n : nat) :
  Forall P (drop n l) -> (length l - n <= length (filter P l))%nat.
Proof.
  intros Hall. rewrite <- (take_drop n l) at 2.
  rewrite filter_app, length_app, (filter_all P _ Hall), length_drop. lia.
Qed.

Lemma p95_value (s : metrics) :
  requests s <> [] ->
  exists v : Z,
    sort_numeric (map duration (requests s)) !! Z.to_nat (rank95 (length (requests s)))
      = Some v /\
    p95Latency (calculateStats s) = Some (round2 (inject_Z v)).
Proof.
  intros H.
  set (sorted := sort_numeric (map duration (requests s))).
  assert (length sorted = length (requests s)) as Hlen.
  { unfold sorted. rewrite (Permutation_length (sort_numeric_Permutation _)).
    apply length_map. }
  assert (0 < length (requests s))%nat as Hn
    by (destruct (requests s); [congruence | simpl; lia]).
  pose proof (rank95_in_range _ Hn) as R.
  destruct (lookup_lt_is_Some_2 sorted (Z.to_nat (rank95 (length (requests s)))))
    as [v Hv]; [lia |].
  exists v. split; [exact Hv |].
  rewrite (calculateStats_cons s H). cbn [p95Latency]. fold sorted.
  rewrite percentile_95 by (intros E; rewrite E in Hlen; simpl in Hlen; lia).
  rewrite Hlen, Hv. reflexivity.
Qed.

(** X1.  With at least one recorded request, the 95th percentile of the
    snapshot is one of the recorded durations (unchanged by the rounding to
    two decimals); at least 95 percent of the recorded requests took at most
    that long and at least 5 percent took at least that long. *)
Theorem p95_covers_95_percent (s : metrics) :
  requests s <> [] ->
  exists v : Z,
    p95Latency (calculateStats s) = Some (round2 (inject_Z v)) /\
    v ∈ map duration (requests s) /\
    (95 * Z.of_nat (length (requests s)) <= 100 * Z.of_nat (at_most v s)) /\
    (5 * Z.of_nat (length (requests s)) <= 100 * Z.of_nat (at_least v s)).
Proof.
  intros H. destruct (p95_value s H) as (v & Hv & Hp).
  set (n := length (requests s)) in *.
  set (sorted := sort_numeric (map duration (requests s))) in *.
  assert (sorted ≡ₚ map duration (requests s)) as Hperm
    by apply sort_numeric_Permutation.
  assert (length sorted = n) as Hlen
    by (rewrite (Permutation_length Hperm); apply length_map).
  assert (0 < n)%nat as Hn
    by (unfold n; destruct (requests s); [congruence | simpl; lia]).
  pose proof (rank95_in_range n Hn) as R.
  pose proof (rank95_eq n) as Req.
  exists v. split; [exact Hp |]. split.
  - rewrite <- Hperm. eapply list_elem_of_lookup_2. exact Hv.
  - pose proof (sort_numeric_Sorted (map duration (requests s))) as Hs.
    fold sorted in Hs.
    pose proof (count_prefix (fun d => d <= v) sorted _
                  (sorted_prefix_le _ _ _ Hs Hv)) as Hlow.
    pose proof (count_suffix (fun d => v <= d) sorted _
                  (sorted_suffix_ge _ _ _ Hs Hv)) as Hhigh.
    unfold at_most, at_least. rewrite <- !Hperm.
    split.
    + specialize (Hlow ltac:(lia)).
      revert Req. Z.to_euclidean_division_equations. lia.
    + revert Req. Z.to_euclidean_division_equations. lia.
Qed.

Lemma p95_covers_95_percent_witness :
  requests fifty <> [] /\
  exists v : Z,
    p95Latency (calculateStats fifty) = Some (round2 (inject_Z v)) /\
    v ∈ map duration (requests fifty) /\
    (95 * Z.of_nat (length (requests fifty)) <= 100 * Z.of_nat (at_most v fifty)) /\
    (5 * Z.of_nat (length (requests fifty)) <= 100 * Z.of_nat (at_least v fifty)).
Proof.
  split; [discriminate |]. apply (p95_covers_95_percent fifty). discriminate.
Defined.

Lemma sort_numeric_perm (l1 l2 : list Z) :
  l1 ≡ₚ l2 -> sort_numeric l1 = sort_numeric l2.
Proof.
  intros H. apply (Sorted_unique Z.le); try apply sort_numeric_Sorted.
  rewrite !sort_numeric_Permutation. exact H.
Qed.

Lemma error_count_perm (l1 l2 : list RequestSample) :
  l1 ≡ₚ l2 ->
  length (List.filter (fun r => 400 <=? statusCode r) l1)
  = length (List.filter (fun r => 400 <=? statusCode r) l2).
Proof.
  induction 1 as [| x l l' H IH | x y l | l l' l'' H1 IH1 H2 IH2]; simpl.
  - reflexivity.
  - destruct (400 <=? statusCode x); simpl; congruence.
  - destruct (400 <=? statusCode x), (400 <=? statusCode y); reflexivity.
  - congruence.
Qed.

(** X2.  The request count, the error count, the average latency and the
    95th percentile of the snapshot do not depend on the order in which the
    requests were recorded: two collectors holding the same samples in
    different orders report the same four values.  (The throughput does
    depend on it: it reads the first and the last sample.) *)
Theorem snapshot_ignores_request_order (s1 s2 : metrics) :
  requests s1 ≡ₚ requests s2 ->
  requestCount (calculateStats s1) = requestCount (calculateStats s2) /\
  errorCount (calculateStats s1) = errorCount (calculateStats s2) /\
  avgLatency (calculateStats s1) = avgLatency (calculateStats s2) /\
  p95Latency (calculateStats s1) = p95Latency (calculateStats s2).
Proof.
  intros H.
  destruct (requests s1) as [| r1 l1] eqn:E1.
  - apply Permutation_nil in H.
    unfold calculateStats. rewrite E1, H. repeat split.
  - assert (requests s2 <> []) as N2.
    { intros E2. rewrite E2 in H. symmetry in H. apply Permutation_nil in H.
      discriminate. }
    rewrite <- E1 in H.
    rewrite (calculateStats_cons s1) by congruence.
    rewrite (calculateStats_cons s2) by exact N2.
    cbn [requestCount errorCount avgLatency p95Latency].
    rewrite (sort_numeric_perm (map duration (requests s1)) (map duration (requests s2)))
      by (apply Permutation_map; exact H).
    rewrite (error_count_perm _ _ H), (Permutation_length H).
    repeat split.
Qed.



Lemma snapshot_ignores_request_order_witness :
  requests two_requests ≡ₚ requests two_requests_swapped /\
  avgLatency (calculateStats two_requests)
    = avgLatency (calculateStats two_requests_swapped) /\
  p95Latency (calculateStats two_requests)
    = p95Latency (calculateStats two_requests_swapped) /\
  ~ (throughput (calculateStats two_requests)
     == throughput (calculateStats two_requests_swapped))%Q.
Proof.
  assert (requests two_requests ≡ₚ requests two_requests_swapped) as P
    by apply perm_swap.
  split; [exact P |].
  destruct (snapshot_ignores_request_order two_requests two_requests_swapped P)
    as (_ & _ & Ha & Hp).
  split; [exact Ha |]. split; [exact Hp |].
  vm_compute. discriminate.
Defined.

Lemma round2_le (x y : Q) : (x <= y)%Q -> (round2 x <= round2 y)%Q.
Proof.
  intros H. unfold round2, Math_round, Qdiv.
  apply Qmult_le_compat_r; [| discriminate].
  rewrite <- Zle_Qle. apply Qfloor_resp_le. lra.
Qed.

Lemma round2_bounds (x : Q) (lo hi : Z) :
  (inject_Z lo <= x)%Q -> (x <= inject_Z hi)%Q ->
  (inject_Z lo <= round2 x)%Q /\ (round2 x <= inject_Z hi)%Q.
Proof.
  intros Hlo Hhi. split.
  - rewrite <- (round2_inject_Z lo). apply round2_le. exact Hlo.
  - rewrite <- (round2_inject_Z hi). apply round2_le. exact Hhi.
Qed.

Lemma sum_of_fold_bounds (l : list Z) (lo hi a : Z) :
  Forall (fun d => lo <= d <= hi) l ->
  a + Z.of_nat (length l) * lo <= fold_left Z.add l a <= a + Z.of_nat (length l) * hi.
Proof.
  intros H. revert a. induction H as [| d l Hd Hl IH]; intros a; simpl fold_left.
  - simpl. lia.
  - specialize (IH (a + d)). rewrite length_cons, Nat2Z.inj_succ. lia.
Qed.

Lemma mean_bounds (l : list Z) (lo hi : Z) :
  l <> [] -> Forall (fun d => lo <= d <= hi) l ->
  (inject_Z lo <= inject_Z (sum_of l) / Qnat (length l))%Q /\
  (inject_Z (sum_of l) / Qnat (length l) <= inject_Z hi)%Q.
Proof.
  intros Hne H. pose proof (sum_of_fold_bounds l lo hi 0 H) as B.
  fold (sum_of l) in B.
  assert (0 < Z.of_nat (length l)) as Hn by (destruct l; [congruence | simpl; lia]).
  assert (0 < Qnat (length l))%Q as Hq by (unfold Qnat; rewrite <- (Zlt_Qlt 0); exact Hn).
  split.
  - apply Qle_shift_div_l; [exact Hq |].
    unfold Qnat. rewrite <- inject_Z_mult, <- Zle_Qle. lia.
  - apply Qle_shift_div_r; [exact Hq |].
    unfold Qnat. rewrite <- inject_Z_mult, <- Zle_Qle. lia.
Qed.

(** X3.  With at least one recorded request whose durations all lie between
    [lo] and [hi], the average latency and the 95th percentile of the
    snapshot lie between [lo] and [hi] too: sorting, summing and rounding to
    two decimals never leave the range of what was measured. *)
Theorem latencies_within_recorded_range (s : metrics) (lo hi : Z) :
  requests s <> [] ->
  Forall (fun r => lo <= duration r <= hi) (requests s) ->
  (inject_Z lo <= avgLatency (calculateStats s))%Q /\
  (avgLatency (calculateStats s) <= inject_Z hi)%Q /\
  exists q, p95Latency (calculateStats s) = Some q /\
    (inject_Z lo <= q)%Q /\ (q <= inject_Z hi)%Q.
Proof.
  intros Hne Hall.
  assert (Forall (fun d => lo <= d <= hi) (map duration (requests s))) as Hd
    by (apply Forall_map; exact Hall).
  assert (Forall (fun d => lo <= d <= hi) (sort_numeric (map duration (requests s))))
    as Hs by (rewrite sort_numeric_Permutation; exact Hd).
  assert (sort_numeric (map duration (requests s)) <> []) as Hsne.
  { intros E. pose proof (Permutation_length (sort_numeric_Permutation
                                               (map duration (requests s)))) as L.
    rewrite E, length_map in L. destruct (requests s); [congruence | discriminate]. }
  destruct (mean_bounds _ lo hi Hsne Hs) as [M1 M2].
  destruct (round2_bounds _ lo hi M1 M2) as [A1 A2].
  rewrite (calculateStats_cons s Hne). cbn [avgLatency p95Latency].
  split; [exact A1 |]. split; [exact A2 |].
  destruct (p95_value s Hne) as (v & Hv & Hp).
  rewrite (calculateStats_cons s Hne) in Hp. cbn [p95Latency] in Hp.
  eexists. split; [exact Hp |].
  assert (lo <= v <= hi) as Hb.
  { rewrite Forall_forall in Hs. apply Hs. eapply list_elem_of_lookup_2. exact Hv. }
  rewrite round2_inject_Z, <- !Zle_Qle. lia.
Qed.

Lemma latencies_within_recorded_range_witness :
  requests two_requests <> [] /\
  Forall (fun r => 5 <= duration r <= 7) (requests two_requests) /\
  (inject_Z 5 <= avgLatency (calculateStats two_requests))%Q /\
  (avgLatency (calculateStats two_requests) <= inject_Z 7)%Q.
Proof.
  assert (Forall (fun r => 5 <= duration r <= 7) (requests two_requests)) as F
    by (repeat constructor; simpl; lia).
  split; [discriminate |]. split; [exact F |].
  destruct (latencies_within_recorded_range two_requests 5 7
              ltac:(discriminate) F) as (A1 & A2 & _).
  split; assumption.
Defined.

Lemma hit_ratio_raw_bounds (h m : nat) :
  (0 < h + m)%nat ->
  (0 <= Qnat h / Qnat (h + m) * 100)%Q /\ (Qnat h / Qnat (h + m) * 100 <= 100)%Q.
Proof.
  intros H.
  assert (0 < Qnat (h + m))%Q as Hq by (unfold Qnat; rewrite <- (Zlt_Qlt 0); lia).
  assert (0 <= Qnat h / Qnat (h + m))%Q as L.
  { apply Qle_shift_div_l; [exact Hq |]. unfold Qnat.
    rewrite Qmult_0_l, <- (Zle_Qle 0). lia. }
  assert (Qnat h / Qnat (h + m) <= 1)%Q as U.
  { apply Qle_shift_div_r; [exact Hq |]. unfold Qnat.
    rewrite Qmult_1_l, <- Zle_Qle. lia. }
  split; lra.
Qed.

Lemma throughput_raw_nonneg (reqs : list RequestSample) : (0 <= throughput_raw reqs)%Q.
Proof.
  unfold throughput_raw. destruct reqs as [| a [| b l]]; try discriminate.
  destruct (Qlt_le_dec 0 _) as [Hpos | _]; [| discriminate].
  apply Qle_shift_div_l; [exact Hpos |].
  rewrite Qmult_0_l. unfold Qnat. rewrite <- (Zle_Qle 0). lia.
Qed.

Lemma error_count_le (l : list RequestSample) :
  (length (List.filter (fun r => (400 <=? statusCode r)%Z) l) <= length l)%nat.
Proof.
  induction l as [| r l IH]; simpl; [lia |].
  destruct (400 <=? statusCode r)%Z; simpl; lia.
Qed.

(** X4.  Whatever was recorded, the snapshot is well formed: the request
    count is the number of samples, the error count does not exceed it, the
    cache hit ratio lies between 0 and 100, the throughput is not negative,
    and the 95th percentile is a number (never the [undefined] of an
    out-of-range array read). *)
Theorem snapshot_fields_in_range (s : metrics) :
  requestCount (calculateStats s) = length (requests s) /\
  (errorCount (calculateStats s) <= requestCount (calculateStats s))%nat /\
  (0 <= cacheHitRatio (calculateStats s))%Q /\
  (cacheHitRatio (calculateStats s) <= 100)%Q /\
  (0 <= throughput (calculateStats s))%Q /\
  exists q : Q, p95Latency (calculateStats s) = Some q.
Proof.
  destruct (requests s) as [| r l] eqn:E.
  - unfold calculateStats. rewrite E. repeat split; try discriminate; [simpl; lia |].
    eexists. reflexivity.
  - assert (exists q : Q, p95Latency (calculateStats s) = Some q) as P.
    { destruct (p95_value s) as (v & _ & Hv); [congruence | eauto]. }
    revert P.
    rewrite (calculateStats_cons s) by congruence.
    cbn [requestCount errorCount cacheHitRatio throughput]. rewrite E. intros P.
    split; [reflexivity |]. split; [apply error_count_le |].
    assert ((inject_Z 0 <= round2 (throughput_raw (r :: l)))%Q) as T.
    { rewrite <- (round2_inject_Z 0). apply round2_le. apply throughput_raw_nonneg. }
    destruct (0 <? cacheHits s + cacheMisses s)%nat eqn:C.
    + apply Nat.ltb_lt in C.
      destruct (hit_ratio_raw_bounds _ _ C) as [L U].
      destruct (round2_bounds _ 0 100 L U) as [L' U'].
      split; [exact L' |]. split; [exact U' |]. split; [exact T | exact P].
    + split; [discriminate |]. split; [discriminate |]. split; [exact T | exact P].
Qed.

Lemma substring_prefix (n : nat) (s : string) :
  exists rest, s = String.substring 0 n s +:+ rest /\
    String.length (String.substring 0 n s) = Nat.min n (String.length s).
Proof.
  revert s. induction n as [| n IH]; intros s.
  - exists s. destruct s; split; reflexivity.
  - destruct s as [| c s]; [exists ""; split; reflexivity |].
    destruct (IH s) as (rest & E & L). exists rest. simpl. split.
    + change (String c s = String c (String.substring 0 n s +:+ rest)).
      rewrite <- E. reflexivity.
    + rewrite L. reflexivity.
Qed.

Lemma substring_short (n : nat) (s : string) :
  (String.length s <= n)%nat -> String.substring 0 n s = s.
Proof.
  revert s. induction n as [| n IH]; intros s H.
  - destruct s; [reflexivity | simpl in H; lia].
  - destruct s as [| c s]; [reflexivity |]. simpl in *.
    rewrite IH by lia. reflexivity.
Qed.

(** X5.  [recordDbQuery] appends one sample whose text is a prefix of the
    reported query: the whole text when it has at most 100 characters, its
    first 100 characters otherwise; the samples recorded before stay. *)
Theorem recordDbQuery_truncates (q : string) (d t : Z) (s : metrics) :
  exists stored rest,
    dbQueries (recordDbQuery q d t s)
      = dbQueries s ++ [{| query := stored; q_duration := d; q_timestamp := t |}] /\
    q = stored +:+ rest /\
    if (String.length q <=? 100)%nat then stored = q
    else String.length stored = 100%nat.
Proof.
  destruct (substring_prefix 100 q) as (rest & E & L).
  exists (String.substring 0 100 q), rest.
  split; [reflexivity |]. split; [exact E |].
  destruct (Nat.leb_spec (String.length q) 100) as [Hle | Hgt].
  - apply substring_short. exact Hle.
  - rewrite L. lia.
Qed.

Lemma replay_state (evs : list Event) (s : metrics) :
  requests (replay evs s) = requests s ++ finished_samples evs /\
  length (dbQueries (replay evs s)) = (length (dbQueries s) + count_queries evs)%nat /\
  cacheHits (replay evs s) = (cacheHits s + count_hits evs)%nat /\
  cacheMisses (replay evs s) = (cacheMisses s + count_misses evs)%nat.
Proof.
  revert s. induction evs as [| e evs IH]; intros s.
  - unfold count_queries, count_hits, count_misses. simpl. rewrite app_nil_r.
    repeat split; lia.
  - unfold replay in *. simpl fold_left.
    destruct (IH (apply_event s e)) as (R & Q & H & M).
    rewrite R, Q, H, M. unfold count_queries, count_hits, count_misses.
    destruct e; simpl; rewrite <- ?app_assoc, ?length_app; simpl; repeat split; lia.
Qed.

(** X6.  Recording composes with the snapshot.  After any history of
    events on the initial collector, the recorded requests are those the
    middleware saw finish, in order, each with the time between its entry
    and its finish as duration; the snapshot counts them, counts those
    answered with a status of 400 or more as errors, and, as soon as one
    request finished, reports the hit ratio of the hits and misses of the
    history, computed and rounded in binary64. *)
Theorem snapshot_after_replay (evs : list Event) :
  finished_samples evs <> [] ->
  let s := replay evs initial in
  requests s = finished_samples evs /\
  length (dbQueries s) = count_queries evs /\
  requestCount (calculateStats s) = length (finished_samples evs) /\
  errorCount (calculateStats s)
    = length (List.filter (fun r => 400 <=? statusCode r) (finished_samples evs)) /\
  Binary64.requestCount (Binary64.calculateStats s) = length (finished_samples evs) /\
  Binary64.errorCount (Binary64.calculateStats s)
    = length (List.filter (fun r => 400 <=? statusCode r) (finished_samples evs)) /\
  Binary64.cacheHitRatio (Binary64.calculateStats s)
    = Binary64.round2
        (if (0 <? count_hits evs + count_misses evs)%nat
         then (Binary64.of_nat (count_hits evs)
               / Binary64.of_nat (count_hits evs + count_misses evs) * 100)%float
         else 0%float).
Proof.
  intros Hne s. destruct (replay_state evs initial) as (R & Qs & H & M).
  fold s in R, Qs, H, M. simpl in R, Qs, H, M.
  split; [exact R |]. split; [exact Qs |].
  rewrite (calculateStats_cons s) by (rewrite R; exact Hne).
  rewrite (calculateStats_binary64_cons s) by (rewrite R; exact Hne).
  cbn [requestCount errorCount Binary64.requestCount Binary64.errorCount
       Binary64.cacheHitRatio].
  rewrite R, H, M. repeat split.
Qed.

(** Two finished requests, one of them failed, one hit and one miss: two
    requests, one error, a ratio of 50. *)
Lemma snapshot_after_replay_witness :
  finished_samples history <> [] /\
  requestCount (calculateStats (replay history initial)) = 2%nat /\
  errorCount (calculateStats (replay history initial)) = 1%nat /\
  Binary64.cacheHitRatio (Binary64.calculateStats (replay history initial)) = 50%float.
Proof.
  split; [discriminate |].
  destruct (snapshot_after_replay history ltac:(discriminate))
    as (_ & _ & Hc & He & _ & _ & Hr).
  split; [exact Hc |]. split; [exact He |]. rewrite Hr. vm_compute. reflexivity.
Defined.

Ltac effects_leaf :=
  cbn; repeat split; eauto; try lia; try congruence; try discriminate;
  try (intros resp [= <-]; cbn; intros; first [reflexivity | discriminate | lia]).

Section CacheRuns.
Variable sql : Db -> Z -> list ProductRow.
Variable iso : Z -> string.

(** Everything a run of the cache-enabled branch does to the world. *)
Lemma recommendations_cached_effects (env : Env) (uid : Z) (w w' : World)
    (r : Outcome Response) :
  recommendations_cached sql iso env uid w = (r, w') ->
  let available := ENABLE_REDIS_CACHE env && redis_ready w in
  (exists resp, r = Returned resp) /\
  db w' = db w /\ txn w' = txn w /\ orders_id_seq w' = orders_id_seq w /\
  (trips w < trips w' <= trips w + 3)%nat /\
  (available = false ->
   cacheHits (collected w') = cacheHits (collected w) /\
   cacheMisses (collected w') = cacheMisses (collected w) /\
   redis_store w' = redis_store w /\ trips w' = S (trips w)) /\
  (available = true -> faults w (trips w) = false ->
   (cacheHits (collected w') + cacheMisses (collected w')
    = S (cacheHits (collected w) + cacheMisses (collected w)))%nat) /\
  (available = true -> faults w (trips w) = true ->
   r = Returned internal_error /\ w' = tick w) /\
  (cacheHits (collected w') <> cacheHits (collected w) ->
   cacheHits (collected w') = S (cacheHits (collected w)) /\
   dbQueries (collected w') = dbQueries (collected w) /\
   redis_store w' = redis_store w /\ trips w' = S (trips w)) /\
  (forall resp,
     r = Returned resp -> status resp = 200 ->
     cacheHits (collected w') = cacheHits (collected w) ->
     available = true ->
     redis_store w' =
       <[cacheKey uid := {| cached_value := body resp;
                            expires_at := now w' + 300 * 1000 |}]> (redis_store w)).
Proof.
  intros Hrun available.
  unfold recommendations_cached, timed_query, pool_recommendations, try_catch, bind,
    isRedisAvailable, redis_get, redis_setEx, record, Date_now, await, ret in Hrun.
  simp_world Hrun. fold available in Hrun.
  destruct available eqn:Eav; simp_world Hrun.
  - fault_case Hrun.
    { injection Hrun as <- <-. effects_leaf. }
    destruct (match redis_store w !! cacheKey uid with
              | Some e => if now w + latency w (trips w) <? expires_at e
                          then Some (cached_value e) else None
              | None => None end) as [v |] eqn:Elive; simp_world Hrun.
    { injection Hrun as <- <-. effects_leaf. }
    fault_case Hrun.
    { injection Hrun as <- <-. effects_leaf. }
    unfold available in Eav. rewrite Eav in Hrun. simp_world Hrun.
    fault_case Hrun.
    { injection Hrun as <- <-. effects_leaf. }
    injection Hrun as <- <-. effects_leaf.
  - fault_case Hrun.
    { injection Hrun as <- <-. effects_leaf. }
    unfold available in Eav. rewrite Eav in Hrun. simp_world Hrun.
    injection Hrun as <- <-. effects_leaf.
Qed.

(** A live entry is served as it is stored. *)
Lemma recommendations_cached_hit (env : Env) (uid : Z) (w : World) (v : Json) :
  ENABLE_REDIS_CACHE env && redis_ready w = true ->
  faults w (trips w) = false ->
  live_entry (tick w) (cacheKey uid) = Some v ->
  recommendations_cached sql iso env uid w =
  (Returned {| status := 200; body := v |},
   set_collected (recordCacheHit (collected w)) (tick w)).
Proof.
  intros Hav F Hlive.
  unfold recommendations_cached, try_catch, bind at 1 2, isRedisAvailable.
  rewrite Hav. unfold bind at 1, redis_get. rewrite (await_ok _ w F).
  fold (live_entry (tick w) (cacheKey uid)). rewrite Hlive. reflexivity.
Qed.

(** Without a live entry the branch does not answer from the cache. *)
Lemma recommendations_cached_no_hit (env : Env) (uid : Z) (w w' : World)
    (r : Outcome Response) :
  live_entry (tick w) (cacheKey uid) = None ->
  recommendations_cached sql iso env uid w = (r, w') ->
  cacheHits (collected w') = cacheHits (collected w).
Proof.
  intros Hlive Hrun.
  destruct (recommendations_cached_outcome sql iso env uid w w' r Hrun)
    as [(_ & _ & v & Hv & _) | [(_ & H & _) | (_ & H & _)]];
    [congruence | exact H | exact H].
Qed.

End CacheRuns.

(** X7.  The recommendations route always answers (no error escapes the
    handler), whatever the switches, the cache state and the failures of its
    round-trips; it never changes the tables, never opens a transaction,
    never draws an order id, and makes between one and three round-trips. *)
Theorem recommendations_only_reads
    (sql : Db -> Z -> list ProductRow) (iso : Z -> string)
    (env : Env) (uid : Z) (w : World) :
  (exists resp, fst (recommendations sql iso env uid w) = Returned resp) /\
  db (snd (recommendations sql iso env uid w)) = db w /\
  txn (snd (recommendations sql iso env uid w)) = txn w /\
  orders_id_seq (snd (recommendations sql iso env uid w)) = orders_id_seq w /\
  (trips w < trips (snd (recommendations sql iso env uid w)) <= trips w + 3)%nat.
Proof.
  unfold recommendations. destruct (ENABLE_REDIS_CACHE env).
  - destruct (recommendations_cached sql iso env uid w) as [r w'] eqn:E.
    destruct (recommendations_cached_effects sql iso env uid w w' r E)
      as (Hr & Hdb & Htxn & Hseq & Htrips & _).
    cbn [fst snd]. rewrite Hdb, Htxn, Hseq. repeat split; assumption || lia.
  - rewrite recommendations_baseline_run.
    destruct (faults w (trips w)); cbn; repeat split; eauto; lia.
Qed.

(** X8.  With the cache enabled and the client ready, a recommendations
    request whose [redis.get] is not rejected counts exactly one cache
    operation, a hit or a miss; when it is a hit, no query is reported, the
    store is left as it was and the request made a single round-trip. *)
Theorem cache_lookup_accounting
    (sql : Db -> Z -> list ProductRow) (iso : Z -> string)
    (env : Env) (uid : Z) (w w' : World) (r : Outcome Response) :
  ENABLE_REDIS_CACHE env = true ->
  redis_ready w = true ->
  faults w (trips w) = false ->
  recommendations sql iso env uid w = (r, w') ->
  (cacheHits (collected w') + cacheMisses (collected w')
   = S (cacheHits (collected w) + cacheMisses (collected w)))%nat /\
  (cacheHits (collected w') <> cacheHits (collected w) ->
   dbQueries (collected w') = dbQueries (collected w) /\
   redis_store w' = redis_store w /\ trips w' = S (trips w)).
Proof.
  intros Hon Hready F Hrun.
  rewrite (recommendations_cached_route sql iso env Hon) in Hrun.
  destruct (recommendations_cached_effects sql iso env uid w w' r Hrun)
    as (_ & _ & _ & _ & _ & _ & Hcount & _ & Hhit & _).
  rewrite Hon, Hready in Hcount. split; [apply Hcount; reflexivity || exact F |].
  intros Hne. destruct (Hhit Hne) as (_ & Hq & Hs & Ht). repeat split; assumption.
Qed.

Lemma cache_lookup_accounting_witness :
  let run := recommendations sample_rows sample_iso env_optimized 7 world_cached in
  ENABLE_REDIS_CACHE env_optimized = true /\
  redis_ready world_cached = true /\
  faults world_cached (trips world_cached) = false /\
  (cacheHits (collected (snd run)) + cacheMisses (collected (snd run))
   = S (cacheHits (collected world_cached) + cacheMisses (collected world_cached)))%nat.
Proof.
  intros run. split; [reflexivity |]. split; [reflexivity |]. split; [reflexivity |].
  exact (proj1 (cache_lookup_accounting sample_rows sample_iso env_optimized 7
                  world_cached (snd run) (fst run) eq_refl eq_refl eq_refl
                  (surjective_pairing run))).
Defined.

(** X9.  With the cache enabled but the client not ready, the
    recommendations route degrades to the plain query: it leaves the world
    exactly as the cache-disabled route does, counts neither a hit nor a
    miss, does not touch the store, and, when the query is not rejected,
    answers 200 with the computed fields followed by [cached: false]. *)
Theorem cache_unavailable_degrades
    (sql : Db -> Z -> list ProductRow) (iso : Z -> string)
    (on off : Env) (uid : Z) (w : World) :
  ENABLE_REDIS_CACHE on = true ->
  ENABLE_REDIS_CACHE off = false ->
  redis_ready w = false ->
  snd (recommendations sql iso on uid w) = snd (recommendations sql iso off uid w) /\
  cacheHits (collected (snd (recommendations sql iso on uid w))) = cacheHits (collected w) /\
  cacheMisses (collected (snd (recommendations sql iso on uid w)))
    = cacheMisses (collected w) /\
  redis_store (snd (recommendations sql iso on uid w)) = redis_store w /\
  (faults w (trips w) = false ->
   fst (recommendations sql iso on uid w) =
   Returned {| status := 200;
               body := JObj (computed_fields sql iso (db w) uid (now (tick w))
                             ++ [("cached", JBool false)]) |}).
Proof.
  intros Hon Hoff Hready.
  rewrite (recommendations_cached_route sql iso on Hon).
  rewrite (recommendations_baseline_route sql iso off Hoff).
  rewrite recommendations_baseline_run.
  unfold recommendations_cached, timed_query, pool_recommendations, try_catch, bind,
    isRedisAvailable, record, Date_now, await, ret.
  rewrite Hon, Hready. cbn [andb].
  destruct (faults w (trips w)); cbn; rewrite ?Hon, ?Hready; cbn;
    repeat split; discriminate || reflexivity.
Qed.

Lemma cache_unavailable_degrades_witness :
  let run := recommendations sample_rows sample_iso env_optimized 7 world_redis_down in
  ENABLE_REDIS_CACHE env_optimized = true /\
  ENABLE_REDIS_CACHE env_baseline = false /\
  redis_ready world_redis_down = false /\
  faults world_redis_down (trips world_redis_down) = false /\
  snd run = snd (recommendations sample_rows sample_iso env_baseline 7 world_redis_down) /\
  redis_store (snd run) = redis_store world_redis_down /\
  fst run =
    Returned {| status := 200;
                body := JObj (computed_fields sample_rows sample_iso shop 7 1005
                              ++ [("cached", JBool false)]) |}.
Proof.
  intros run. split; [reflexivity |]. split; [reflexivity |]. split; [reflexivity |].
  split; [reflexivity |].
  destruct (cache_unavailable_degrades sample_rows sample_iso env_optimized
              env_baseline 7 world_redis_down eq_refl eq_refl eq_refl)
    as (Hw & _ & _ & Hs & Hf).
  split; [exact Hw |]. split; [exact Hs |]. apply Hf. reflexivity.
Defined.

(** X10.  With the cache enabled and the client ready, a rejected Redis
    call fails the request although the database could answer: a rejected
    [redis.get] is answered with status 500 after that single round-trip,
    and a rejected [redis.setEx] is answered with status 500 after the query
    ran and was reported, with nothing stored. *)
Theorem rejected_cache_call_answers_500
    (sql : Db -> Z -> list ProductRow) (iso : Z -> string)
    (env : Env) (uid : Z) (w : World) :
  ENABLE_REDIS_CACHE env = true ->
  redis_ready w = true ->
  (faults w (trips w) = true ->
   recommendations sql iso env uid w = (Returned internal_error, tick w)) /\
  (faults w (trips w) = false ->
   live_entry (tick w) (cacheKey uid) = None ->
   faults w (S (trips w)) = false ->
   faults w (S (S (trips w))) = true ->
   fst (recommendations sql iso env uid w) = Returned internal_error /\
   redis_store (snd (recommendations sql iso env uid w)) = redis_store w /\
   length (dbQueries (collected (snd (recommendations sql iso env uid w))))
     = S (length (dbQueries (collected w)))).
Proof.
  intros Hon Hready.
  rewrite (recommendations_cached_route sql iso env Hon).
  split.
  - intros F.
    destruct (recommendations_cached sql iso env uid w) as [r w'] eqn:E.
    destruct (recommendations_cached_effects sql iso env uid w w' r E)
      as (_ & _ & _ & _ & _ & _ & _ & Hrej & _).
    rewrite Hon, Hready in Hrej. destruct (Hrej eq_refl F) as [-> ->]. reflexivity.
  - intros F0 Hlive F1 F2.
    unfold recommendations_cached, timed_query, pool_recommendations, try_catch, bind,
      isRedisAvailable, redis_get, redis_setEx, record, Date_now, await, ret.
    rewrite Hon, Hready. cbn [andb]. rewrite F0.
    fold (live_entry (tick w) (cacheKey uid)). rewrite Hlive.
    cbn [trips faults set_trips db txn set_txn set_db redis_store redis_ready
         set_redis_store collected set_collected now set_now latency tick fst snd].
    rewrite F1.
    cbn [trips faults set_trips db txn set_txn set_db redis_store redis_ready
         set_redis_store collected set_collected now set_now latency tick fst snd].
    rewrite ?Hon, ?Hready. cbn [andb].
    cbn [trips faults set_trips db txn set_txn set_db redis_store redis_ready
         set_redis_store collected set_collected now set_now latency tick fst snd].
    rewrite F2. cbn. rewrite length_app. simpl. repeat split. lia.
Qed.

Lemma rejected_cache_call_answers_500_witness :
  ENABLE_REDIS_CACHE env_optimized = true /\
  redis_ready world_get_rejected = true /\
  faults world_get_rejected (trips world_get_rejected) = true /\
  recommendations sample_rows sample_iso env_optimized 7 world_get_rejected
    = (Returned internal_error, tick world_get_rejected) /\
  faults world_setEx_rejected (S (S (trips world_setEx_rejected))) = true /\
  fst (recommendations sample_rows sample_iso env_optimized 7 world_setEx_rejected)
    = Returned internal_error.
Proof.
  split; [reflexivity |]. split; [reflexivity |]. split; [reflexivity |].
  split.
  - apply (proj1 (rejected_cache_call_answers_500 sample_rows sample_iso
                    env_optimized 7 world_get_rejected eq_refl eq_refl)).
    reflexivity.
  - split; [reflexivity |].
    apply (proj2 (rejected_cache_call_answers_500 sample_rows sample_iso
                    env_optimized 7 world_setEx_rejected eq_refl eq_refl));
      [reflexivity | vm_compute; reflexivity | reflexivity | reflexivity].
Defined.

(** X11.  Round trip through the cache.  With the cache enabled and the
    client ready, a request answered 200 from the database stores its
    response; a later request of the same user on that store is answered
    with the very same response as long as it reads the cache less than 300
    seconds after the write, and is a miss from then on. *)
Theorem cache_round_trip
    (sql : Db -> Z -> list ProductRow) (iso : Z -> string)
    (env : Env) (uid : Z) (w w1 : World) (r1 : Response) :
  ENABLE_REDIS_CACHE env = true ->
  redis_ready w = true ->
  recommendations sql iso env uid w = (Returned r1, w1) ->
  status r1 = 200 ->
  cacheHits (collected w1) = cacheHits (collected w) ->
  forall w2 : World,
    redis_store w2 = redis_store w1 ->
    redis_ready w2 = true ->
    faults w2 (trips w2) = false ->
    (now (tick w2) < now w1 + 300 * 1000 ->
     recommendations sql iso env uid w2 =
     (Returned r1, set_collected (recordCacheHit (collected w2)) (tick w2))) /\
    (now w1 + 300 * 1000 <= now (tick w2) ->
     cacheHits (collected (snd (recommendations sql iso env uid w2)))
       = cacheHits (collected w2) /\
     cacheMisses (collected (snd (recommendations sql iso env uid w2)))
       = S (cacheMisses (collected w2))).
Proof.
  intros Hon Hready Hrun Hst Hhits w2 Hstore Hready2 F2.
  rewrite (recommendations_cached_route sql iso env Hon) in *.
  destruct (recommendations_cached_effects sql iso env uid w w1 _ Hrun)
    as (_ & _ & _ & _ & _ & _ & _ & _ & _ & Hstored).
  specialize (Hstored r1 eq_refl Hst Hhits). rewrite Hon, Hready in Hstored.
  specialize (Hstored eq_refl).
  assert (redis_store (tick w2) !! cacheKey uid
          = Some {| cached_value := body r1; expires_at := now w1 + 300 * 1000 |}) as Hk.
  { cbn [redis_store tick set_now set_trips]. rewrite Hstore, Hstored.
    apply lookup_insert_eq. }
  split.
  - intros Hin.
    rewrite (recommendations_cached_hit sql iso env uid w2 (body r1)).
    + destruct r1 as [st bd]. cbn in Hst. subst st. reflexivity.
    + rewrite Hon, Hready2. reflexivity.
    + exact F2.
    + unfold live_entry. rewrite Hk. cbn [expires_at cached_value].
      destruct (Z.ltb_spec (now (tick w2)) (now w1 + 300 * 1000)); [reflexivity | lia].
  - intros Hout.
    assert (live_entry (tick w2) (cacheKey uid) = None) as Hlive.
    { unfold live_entry. rewrite Hk. cbn [expires_at cached_value].
      destruct (Z.ltb_spec (now (tick w2)) (now w1 + 300 * 1000)); [lia | reflexivity]. }
    destruct (recommendations_cached sql iso env uid w2) as [r2 w3] eqn:E2.
    cbn [snd].
    pose proof (recommendations_cached_no_hit sql iso env uid w2 w3 r2 Hlive E2) as Hh.
    destruct (recommendations_cached_effects sql iso env uid w2 w3 r2 E2)
      as (_ & _ & _ & _ & _ & _ & Hcount & _).
    rewrite Hon, Hready2 in Hcount. specialize (Hcount eq_refl F2).
    split; [exact Hh | lia].
Qed.

Lemma cache_round_trip_witness :
  let w1 := snd (recommendations sample_rows sample_iso env_optimized 7 world0) in
  ENABLE_REDIS_CACHE env_optimized = true /\
  redis_ready world0 = true /\
  recommendations sample_rows sample_iso env_optimized 7 world0
    = (Returned first_answer, w1) /\
  status first_answer = 200 /\
  now (tick w1) < now w1 + 300 * 1000 /\
  recommendations sample_rows sample_iso env_optimized 7 w1
    = (Returned first_answer, set_collected (recordCacheHit (collected w1)) (tick w1)).
Proof.
  intros w1.
  assert (recommendations sample_rows sample_iso env_optimized 7 world0
          = (Returned first_answer, w1)) as Hrun
    by (apply injective_projections; [vm_compute; reflexivity | reflexivity]).
  assert (now (tick w1) < now w1 + 300 * 1000) as Hin by (vm_compute; reflexivity).
  split; [reflexivity |]. split; [reflexivity |]. split; [exact Hrun |].
  split; [reflexivity |]. split; [exact Hin |].
  apply (proj1 (cache_round_trip sample_rows sample_iso env_optimized 7 world0 w1
                  first_answer eq_refl eq_refl Hrun eq_refl
                  ltac:(vm_compute; reflexivity) w1 eq_refl
                  ltac:(vm_compute; reflexivity) ltac:(vm_compute; reflexivity))).
  exact Hin.
Defined.



Lemma cacheKey_inj (u v : Z) : cacheKey u = cacheKey v -> u = v.
Proof.
  unfold cacheKey. intros H. apply (inj (String.app "recommendations:")) in H.
  apply (inj pretty) in H. exact H.
Qed.

(** ** What the checkout handlers leave alone *)

Section Keeps.
Variable R : relation World.
Hypothesis R_refl : forall w, R w w.
Hypothesis R_trans : forall a b c, R a b -> R b c -> R a c.

Lemma keeps_ret {A} (a : A) : keeps R (ret a).
Proof. intros w. apply R_refl. Qed.

Lemma keeps_throw {A} (e : string) : keeps R (@throw A e).
Proof. intros w. apply R_refl. Qed.

Lemma keeps_bind {A B} (c : M A) (k : A -> M B) :
  keeps R c -> (forall a, keeps R (k a)) -> keeps R (bind c k).
Proof.
  intros Hc Hk w. unfold bind. specialize (Hc w).
  destruct (c w) as [[a | e] w1]; cbn [snd] in *; [| exact Hc].
  eapply R_trans; [exact Hc | apply Hk].
Qed.

Lemma keeps_try_catch {A} (c : M A) (h : string -> M A) :
  keeps R c -> (forall e, keeps R (h e)) -> keeps R (try_catch c h).
Proof.
  intros Hc Hh w. unfold try_catch. specialize (Hc w).
  destruct (c w) as [[a | e] w1]; cbn [snd] in *; [exact Hc |].
  eapply R_trans; [exact Hc | apply Hh].
Qed.

Lemma keeps_await {A} (op : M A) :
  (forall w, R w (tick w)) -> keeps R op -> keeps R (await op).
Proof.
  intros Ht Hop w. unfold await. destruct (faults w (trips w)); cbn [snd].
  - apply Ht.
  - eapply R_trans; [apply Ht | apply Hop].
Qed.

End Keeps.

Lemma baseline_frame_refl (w : World) : baseline_frame w w.
Proof. unfold baseline_frame. repeat split; lia. Qed.

Lemma baseline_frame_trans (a b c : World) :
  baseline_frame a b -> baseline_frame b c -> baseline_frame a c.
Proof.
  intros (H1 & H2 & H3 & H4 & H5 & H6 & H7 & H8) (G1 & G2 & G3 & G4 & G5 & G6 & G7 & G8).
  unfold baseline_frame. repeat split; try congruence. lia.
Qed.

Lemma baseline_frame_tick (w : World) : baseline_frame w (tick w).
Proof. unfold baseline_frame. cbn. repeat split; lia. Qed.

Lemma keeps_pool_select_price (id : Z) : keeps baseline_frame (pool_select_price id).
Proof.
  apply (keeps_await baseline_frame baseline_frame_trans); [apply baseline_frame_tick |]. intros w.
  apply baseline_frame_refl.
Qed.

Lemma keeps_pool_insert_order (u : Z) (t : Q) (st : string) :
  keeps baseline_frame (pool_insert_order u t st).
Proof.
  apply (keeps_await baseline_frame baseline_frame_trans); [apply baseline_frame_tick |]. intros w.
  unfold baseline_frame. cbn. repeat split; lia.
Qed.

Lemma keeps_pool_insert_order_item (i : OrderItem) :
  keeps baseline_frame (pool_insert_order_item i).
Proof.
  apply (keeps_await baseline_frame baseline_frame_trans); [apply baseline_frame_tick |]. intros w.
  unfold baseline_frame. cbn. repeat split; lia.
Qed.

Lemma keeps_baseline_total (l : list Item) (total : Q) :
  keeps baseline_frame (baseline_total l total).
Proof.
  revert total. induction l as [| i l IH]; intros total; simpl.
  - apply (keeps_ret baseline_frame baseline_frame_refl).
  - apply (keeps_bind baseline_frame baseline_frame_trans); [apply keeps_pool_select_price |].
    intros [| p rows]; [apply (keeps_ret baseline_frame baseline_frame_refl) | apply IH].
Qed.

Lemma keeps_baseline_insert_items (oid : Z) (l : list Item) :
  keeps baseline_frame (baseline_insert_items oid l).
Proof.
  induction l as [| i l IH]; simpl.
  - apply (keeps_ret baseline_frame baseline_frame_refl).
  - apply (keeps_bind baseline_frame baseline_frame_trans); [apply keeps_pool_select_price |].
    intros [| p rows]; [apply (keeps_throw baseline_frame baseline_frame_refl) |].
    apply (keeps_bind baseline_frame baseline_frame_trans);
      [apply keeps_pool_insert_order_item | intros _; exact IH].
Qed.

Lemma keeps_checkout_baseline (b : CheckoutBody) :
  keeps baseline_frame (checkout_baseline b).
Proof.
  unfold checkout_baseline.
  destruct (accepted b) as [[uid l] |];
    [| apply (keeps_ret baseline_frame baseline_frame_refl)].
  apply (keeps_try_catch baseline_frame baseline_frame_trans);
    [| intros e; apply (keeps_ret baseline_frame baseline_frame_refl)].
  apply (keeps_bind baseline_frame baseline_frame_trans); [apply keeps_baseline_total |].
  intros [early | total]; [apply (keeps_ret baseline_frame baseline_frame_refl) |].
  apply (keeps_bind baseline_frame baseline_frame_trans); [apply keeps_pool_insert_order |]. intros oid.
  apply (keeps_bind baseline_frame baseline_frame_trans);
    [apply keeps_baseline_insert_items |].
  intros _. apply (keeps_ret baseline_frame baseline_frame_refl).
Qed.

(** X12.  No checkout, in either mode and whatever fails, reports anything
    to the metrics collector or changes the product table; the baseline
    handler in addition never touches the cache store. *)
Theorem checkout_leaves_metrics_alone (env : Env) (b : CheckoutBody) (w : World) :
  txn w = None ->
  collected (snd (checkout env b w)) = collected w /\
  products (db (snd (checkout env b w))) = products (db w) /\
  (checkout_is_optimized env = false ->
   redis_store (snd (checkout env b w)) = redis_store w).
Proof.
  intros Htxn. unfold checkout. destruct (checkout_is_optimized env).
  - destruct (checkout_optimized env b w) as [r w'] eqn:E.
    destruct (checkout_optimized_books env b w r w' Htxn E) as (H1 & H2 & _).
    cbn [snd]. repeat split; try assumption. discriminate.
  - destruct (keeps_checkout_baseline b w) as (H1 & H2 & H3 & _).
    split; [exact H2 |]. split; [exact H3 | intros _; exact H1].
Qed.

Lemma checkout_leaves_metrics_alone_witness :
  txn world0 = None /\
  collected (snd (checkout env_optimized two_items_body world0)) = collected world0 /\
  products (db (snd (checkout env_optimized two_items_body world0)))
    = products (db world0).
Proof.
  split; [reflexivity |].
  destruct (checkout_leaves_metrics_alone env_optimized two_items_body world0 eq_refl)
    as (Hc & Hp & _).
  split; [exact Hc | exact Hp].
Defined.

(** ** The baseline checkout without failure *)

Lemma iter_tick_frame (k : nat) (w : World) :
  db (Nat.iter k tick w) = db w /\ faults (Nat.iter k tick w) = faults w /\
  trips (Nat.iter k tick w) = (trips w + k)%nat /\
  orders_id_seq (Nat.iter k tick w) = orders_id_seq w /\
  txn (Nat.iter k tick w) = txn w /\ latency (Nat.iter k tick w) = latency w.
Proof.
  induction k as [| k (H1 & H2 & H3 & H4 & H5 & H6)]; simpl.
  - repeat split; lia.
  - cbn [db faults trips orders_id_seq txn latency tick set_now set_trips].
    repeat split; try assumption. lia.
Qed.

Lemma iter_tick_set_db (k : nat) (d : Db) (w : World) :
  Nat.iter k tick (set_db d w) = set_db d (Nat.iter k tick w).
Proof.
  induction k as [| k IH]; simpl; [reflexivity |]. rewrite IH. reflexivity.
Qed.

Lemma iter_tick_set_seq (k : nat) (n : Z) (w : World) :
  Nat.iter k tick (set_orders_id_seq n w) = set_orders_id_seq n (Nat.iter k tick w).
Proof.
  induction k as [| k IH]; simpl; [reflexivity |]. rewrite IH. reflexivity.
Qed.

Lemma iter_tick_add (j k : nat) (w : World) :
  Nat.iter j tick (Nat.iter k tick w) = Nat.iter (k + j) tick w.
Proof.
  induction j as [| j IH]; simpl.
  - rewrite Nat.add_0_r. reflexivity.
  - rewrite IH, Nat.add_succ_r. reflexivity.
Qed.

Lemma calm_tick (n : nat) (w : World) : calm (S n) w -> calm n (tick w).
Proof.
  intros H k Hk. cbn [faults trips tick set_now set_trips].
  replace (S (trips w) + k)%nat with (trips w + S k)%nat by lia. apply H. lia.
Qed.

Lemma calm_head (n : nat) (w : World) : calm (S n) w -> faults w (trips w) = false.
Proof. intros H. rewrite <- (Nat.add_0_r (trips w)). apply H. lia. Qed.

Lemma calm_weaken (n m : nat) (w : World) : (m <= n)%nat -> calm n w -> calm m w.
Proof. intros Hle H k Hk. apply H. lia. Qed.

Lemma calm_iter (n j : nat) (w : World) : calm (j + n) w -> calm n (Nat.iter j tick w).
Proof.
  intros H k Hk. destruct (iter_tick_frame j w) as (_ & Hf & Ht & _).
  rewrite Hf, Ht. rewrite <- Nat.add_assoc. apply H. lia.
Qed.

Lemma calm_set_db (n : nat) (d : Db) (w : World) : calm n w -> calm n (set_db d w).
Proof. intros H. exact H. Qed.

Lemma has_product_first_price (d : Db) (id : Z) :
  has_product d id = true ->
  exists rest,
    map product_price (List.filter (fun p => product_id p =? id) (products d))
    = first_price (products d) id :: rest.
Proof.
  intros H. destruct (has_product_rows d id H) as (price & rest & E).
  exists rest. unfold first_price. rewrite E. reflexivity.
Qed.

Lemma baseline_total_passes (l : list Item) (w : World) (total : Q) :
  all_products_exist (db w) l = true ->
  calm (length l) w ->
  baseline_total l total w =
  (Returned (inr (baseline_sum (products (db w)) l total)), Nat.iter (length l) tick w).
Proof.
  revert w total. induction l as [| i l IH]; intros w total Hall Hq.
  - reflexivity.
  - simpl in Hall. apply andb_prop in Hall as [Hi Hall].
    destruct (has_product_first_price _ _ Hi) as (rest & Hrows).
    simpl baseline_total. unfold bind at 1. unfold pool_select_price.
    rewrite (await_ok _ w (calm_head _ _ Hq)). rewrite tick_db, Hrows.
    rewrite IH; [| exact Hall | apply calm_tick; exact Hq].
    rewrite tick_db. simpl length. rewrite <- Nat.iter_succ_r. reflexivity.
Qed.

Lemma add_order_items_app (l1 l2 : list OrderItem) (d : Db) :
  add_order_items l2 (add_order_items l1 d) = add_order_items (l1 ++ l2) d.
Proof. unfold add_order_items. cbn. rewrite app_assoc. reflexivity. Qed.

Lemma has_product_add_order_items (rows : list OrderItem) (d : Db) (id : Z) :
  has_product (add_order_items rows d) id = has_product d id.
Proof. reflexivity. Qed.

Lemma baseline_insert_items_passes (oid : Z) (l : list Item) (w : World) :
  all_products_exist (db w) l = true ->
  calm (2 * length l) w ->
  baseline_insert_items oid l w =
  (Returned tt,
   set_db (add_order_items (baseline_rows (products (db w)) oid l) (db w))
     (Nat.iter (2 * length l) tick w)).
Proof.
  revert w. induction l as [| i l IH]; intros w Hall Hq.
  - simpl. unfold ret, add_order_items. cbn. rewrite app_nil_r.
    destruct w as [[] ? ? ? ? ? ? ? ? ?]; reflexivity.
  - simpl in Hall. apply andb_prop in Hall as [Hi Hall].
    destruct (has_product_first_price _ _ Hi) as (rest & Hrows).
    replace (2 * length (i :: l))%nat with (S (S (2 * length l))) in * by (simpl; lia).
    simpl baseline_insert_items. unfold bind at 1. unfold pool_select_price.
    rewrite (await_ok _ w (calm_head _ _ Hq)). rewrite tick_db, Hrows.
    unfold bind at 1. unfold pool_insert_order_item.
    rewrite (await_ok _ (tick w) (calm_head _ _ (calm_tick _ _ Hq))).
    rewrite IH.
    + cbn [db set_db tick set_now set_trips products add_order_items].
      rewrite iter_tick_set_db. cbn [set_db db].
      rewrite <- !Nat.iter_succ_r.
      unfold add_order_items. cbn [products orders order_items].
      rewrite <- app_assoc. reflexivity.
    + exact Hall.
    + apply calm_set_db. apply calm_tick, calm_tick. exact Hq.
Qed.

Lemma checkout_baseline_success (b : CheckoutBody) (uid : Z) (l : list Item) (w : World) :
  accepted b = Some (uid, l) ->
  all_products_exist (db w) l = true ->
  calm (3 * length l + 1) w ->
  checkout_baseline b w =
  (Returned {| status := 200;
               body := order_body (orders_id_seq w)
                         (baseline_sum (products (db w)) l 0) |},
   set_db (baseline_committed w uid l)
     (set_orders_id_seq (orders_id_seq w + 1)
        (Nat.iter (3 * length l + 1) tick w))).
Proof.
  intros Hacc Hall Hq. unfold checkout_baseline. rewrite Hacc.
  unfold try_catch, bind at 1.
  rewrite baseline_total_passes;
    [| exact Hall | apply (calm_weaken (3 * length l + 1)); [lia | exact Hq]].
  set (wn := Nat.iter (length l) tick w).
  destruct (iter_tick_frame (length l) w) as (Hdb & Hf & Ht & Hs & _). fold wn in Hdb, Hf, Ht, Hs.
  assert (calm (2 * length l + 1) wn) as Hqn.
  { apply calm_iter. replace (length l + (2 * length l + 1))%nat
      with (3 * length l + 1)%nat by lia. exact Hq. }
  unfold bind at 1. unfold pool_insert_order.
  rewrite (await_ok _ wn); [| apply (calm_head (2 * length l)); 
    replace (S (2 * length l)) with (2 * length l + 1)%nat by lia; exact Hqn].
  cbn [orders_id_seq tick set_now set_trips db].
  unfold bind at 1.
  rewrite baseline_insert_items_passes.
  - cbn [db set_db set_orders_id_seq products add_order orders_id_seq tick set_now set_trips].
    rewrite Hdb, Hs.
    rewrite iter_tick_set_db, iter_tick_set_seq.
    replace (Nat.iter (2 * length l) tick (tick wn))
      with (Nat.iter (3 * length l + 1) tick w).
    + reflexivity.
    + unfold wn. rewrite <- Nat.iter_succ, iter_tick_add. f_equal. lia.
  - cbn [db set_db]. rewrite Hdb. exact Hall.
  - apply calm_set_db. intros k Hk.
    cbn [faults trips set_orders_id_seq tick set_now set_trips].
    replace (S (trips wn) + k)%nat with (trips wn + S k)%nat by lia.
    apply Hqn. lia.
Qed.

Lemma checkout_optimized_success env b uid l w r w' :
  accepted b = Some (uid, l) ->
  txn w = None ->
  all_products_exist (db w) l = true ->
  calm 7 w ->
  checkout_optimized env b w = (r, w') ->
  r = Returned {| status := 200;
                  body := order_body (orders_id_seq w)
                            (optimized_total (selected (db w) l) l) |} /\
  db w' = committed w uid l /\ txn w' = None /\
  redis_store w' =
    (if ENABLE_REDIS_CACHE env && redis_ready w
     then delete (cacheKey uid) (redis_store w) else redis_store w).
Proof.
  intros Hacc Htxn Hall Hq Hrun.
  destruct (checkout_optimized_outcome env b uid l w r w' Hacc Htxn Hrun)
    as [(_ & _ & _ & [(k & Hk & F) | Hmiss])
       | (_ & _ & Hdb & Ht & [(Hr & Hs & _) | (_ & F & _)])].
  - rewrite Hq in F by lia. discriminate.
  - congruence.
  - repeat split; assumption.
  - rewrite Hq in F by lia. discriminate.
Qed.

(** ** Prices under unique product ids *)

Lemma fold_insert_other (rows : list Product) (m : gmap Z Q) (k : Z) :
  k ∉ map product_id rows ->
  fold_left (fun m p => <[product_id p := product_price p]> m) rows m !! k = m !! k.
Proof.
  revert m. induction rows as [| p rows IH]; intros m Hk; simpl; [reflexivity |].
  simpl in Hk. apply not_elem_of_cons in Hk as [Hne Hk].
  rewrite IH by exact Hk. apply lookup_insert_ne. congruence.
Qed.

Lemma productMap_of_unique (rows : list Product) (p : Product) :
  NoDup (map product_id rows) -> p ∈ rows ->
  productMap_of rows !! product_id p = Some (product_price p).
Proof.
  unfold productMap_of. generalize (∅ : gmap Z Q).
  induction rows as [| q rows IH]; intros m Hnd Hp; [inversion Hp |].
  simpl in Hnd. apply NoDup_cons in Hnd as [Hq Hnd]. simpl.
  apply elem_of_cons in Hp as [-> | Hp].
  - rewrite fold_insert_other by exact Hq. apply lookup_insert_eq.
  - apply IH; assumption.
Qed.

Lemma NoDup_map_filter (P : Product -> bool) (ps : list Product) :
  NoDup (map product_id ps) -> NoDup (map product_id (List.filter P ps)).
Proof.
  induction ps as [| p ps IH]; simpl; intros H; [constructor |].
  apply NoDup_cons in H as [Hp Hnd]. destruct (P p); simpl; [| apply IH; exact Hnd].
  apply NoDup_cons. split; [| apply IH; exact Hnd].
  intros Hin. apply Hp. apply list_elem_of_fmap in Hin as (q & E & Hq).
  apply list_elem_of_fmap. exists q. split; [exact E |].
  apply list_elem_of_In. apply list_elem_of_In, filter_In in Hq. tauto.
Qed.

Lemma filter_none (ps : list Product) (k : Z) :
  k ∉ map product_id ps -> List.filter (fun q => product_id q =? k) ps = [].
Proof.
  induction ps as [| q ps IH]; intros Hk; [reflexivity |].
  simpl in Hk. apply not_elem_of_cons in Hk as [Hne Hk]. simpl.
  destruct (Z.eqb_spec (product_id q) k); [congruence | apply IH; exact Hk].
Qed.

Lemma filter_unique (ps : list Product) (p : Product) :
  NoDup (map product_id ps) -> p ∈ ps ->
  List.filter (fun q => product_id q =? product_id p) ps = [p].
Proof.
  induction ps as [| q ps IH]; intros Hnd Hp; [inversion Hp |].
  simpl in Hnd. apply NoDup_cons in Hnd as [Hq Hnd]. simpl.
  apply elem_of_cons in Hp as [-> | Hp].
  - rewrite Z.eqb_refl, filter_none by exact Hq. reflexivity.
  - destruct (Z.eqb_spec (product_id q) (product_id p)) as [E | _].
    + exfalso. apply Hq. rewrite E. apply list_elem_of_fmap. eauto.
    + apply IH; assumption.
Qed.

(** With unique product ids, the price map of the optimized handler and the
    first-row lookup of the baseline handler agree on every existing
    product that is requested. *)
Lemma selected_first_price (d : Db) (l : list Item) (id : Z) :
  NoDup (map product_id (products d)) ->
  id ∈ map productId l ->
  has_product d id = true ->
  productMap_get (selected d l) id = first_price (products d) id.
Proof.
  intros Hnd Hid Hhas.
  unfold has_product in Hhas. apply existsb_exists in Hhas as (p & Hp & E).
  apply Z.eqb_eq in E. subst id. apply list_elem_of_In in Hp.
  unfold first_price. rewrite (filter_unique _ p Hnd Hp). simpl.
  unfold productMap_get, selected.
  rewrite (productMap_of_unique _ p); [reflexivity | apply NoDup_map_filter; exact Hnd |].
  apply list_elem_of_In, filter_In. split; [apply list_elem_of_In; exact Hp |].
  apply bool_decide_eq_true. exact Hid.
Qed.

Lemma fold_left_ext_in {A B} (f g : A -> B -> A) (l : list B) (a : A) :
  (forall x, x ∈ l -> forall acc, f acc x = g acc x) ->
  fold_left f l a = fold_left g l a.
Proof.
  revert a. induction l as [| x l IH]; intros a H; simpl; [reflexivity |].
  rewrite H by (left). apply IH. intros y Hy. apply H. right. exact Hy.
Qed.

Lemma all_products_exist_elem (d : Db) (l : list Item) (i : Item) :
  all_products_exist d l = true -> i ∈ l -> has_product d (productId i) = true.
Proof.
  unfold all_products_exist. rewrite forallb_forall. intros H Hi.
  apply H. apply list_elem_of_In. exact Hi.
Qed.

Lemma same_total (d : Db) (l : list Item) :
  NoDup (map product_id (products d)) ->
  all_products_exist d l = true ->
  optimized_total (selected d l) l = baseline_sum (products d) l 0.
Proof.
  intros Hnd Hall. unfold optimized_total, baseline_sum.
  apply fold_left_ext_in. intros i Hi acc.
  rewrite selected_first_price;
    [reflexivity | exact Hnd | apply list_elem_of_fmap; eauto
    | apply (all_products_exist_elem d l); assumption].
Qed.

Lemma same_rows (d : Db) (oid : Z) (l : list Item) :
  NoDup (map product_id (products d)) ->
  all_products_exist d l = true ->
  optimized_rows (selected d l) oid l = baseline_rows (products d) oid l.
Proof.
  intros Hnd Hall. unfold optimized_rows, baseline_rows.
  apply map_ext_in. intros i Hi. apply list_elem_of_In in Hi.
  rewrite selected_first_price;
    [reflexivity | exact Hnd | apply list_elem_of_fmap; eauto
    | apply (all_products_exist_elem d l); assumption].
Qed.

(** X13.  When product ids are unique, every requested product exists and
    no round-trip is rejected, the two modes agree: the optimized handler
    and the baseline handler send the same response and leave the same
    tables, namely the old ones with one order and one row per item, priced
    by the product table. *)
Theorem modes_agree_without_failure
    (on off : Env) (b : CheckoutBody) (uid : Z) (l : list Item) (w : World) :
  checkout_is_optimized on = true ->
  checkout_is_optimized off = false ->
  accepted b = Some (uid, l) ->
  txn w = None ->
  NoDup (map product_id (products (db w))) ->
  all_products_exist (db w) l = true ->
  calm (3 * length l + 7) w ->
  fst (checkout on b w) = fst (checkout off b w) /\
  db (snd (checkout on b w)) = db (snd (checkout off b w)) /\
  db (snd (checkout off b w)) = baseline_committed w uid l /\
  fst (checkout off b w) =
    Returned {| status := 200;
                body := order_body (orders_id_seq w)
                          (baseline_sum (products (db w)) l 0) |}.
Proof.
  intros Hon Hoff Hacc Htxn Hnd Hall Hq.
  rewrite (checkout_optimized_route on Hon), (checkout_baseline_route off Hoff).
  rewrite (checkout_baseline_success b uid l w Hacc Hall)
    by (apply (calm_weaken (3 * length l + 7)); [lia | exact Hq]).
  destruct (checkout_optimized on b w) as [r w'] eqn:E.
  destruct (checkout_optimized_success on b uid l w r w' Hacc Htxn Hall
              (calm_weaken (3 * length l + 7) 7 w ltac:(lia) Hq) E) as (Hr & Hdb & _).
  cbn [fst snd db set_db]. rewrite Hr, Hdb.
  unfold committed, baseline_committed, placed_rows, placed_order, baseline_order.
  rewrite (same_total _ _ Hnd Hall), (same_rows _ _ _ Hnd Hall).
  repeat split.
Qed.

Lemma modes_agree_without_failure_witness :
  checkout_is_optimized env_optimized = true /\
  checkout_is_optimized env_baseline = false /\
  accepted two_items_body = Some (7, [item 1 1; item 2 3]) /\
  txn world0 = None /\
  NoDup (map product_id (products (db world0))) /\
  all_products_exist (db world0) [item 1 1; item 2 3] = true /\
  calm (3 * 2 + 7) world0 /\
  fst (checkout env_optimized two_items_body world0)
    = fst (checkout env_baseline two_items_body world0) /\
  db (snd (checkout env_optimized two_items_body world0))
    = db (snd (checkout env_baseline two_items_body world0)).
Proof.
  assert (NoDup (map product_id (products (db world0)))) as Hnd
    by (apply (bool_decide_unpack _); vm_compute; exact I).
  assert (calm (3 * 2 + 7) world0) as Hq by (intros k _; reflexivity).
  split; [reflexivity |]. split; [reflexivity |]. split; [reflexivity |].
  split; [reflexivity |]. split; [exact Hnd |]. split; [reflexivity |].
  split; [exact Hq |].
  destruct (modes_agree_without_failure env_optimized env_baseline two_items_body 7
              [item 1 1; item 2 3] world0 eq_refl eq_refl eq_refl eq_refl Hnd
              eq_refl Hq) as (Hr & Hd & _).
  split; [exact Hr | exact Hd].
Defined.

(** X14.  An optimized checkout makes at most 8 round-trips whatever the
    number of items; whenever it answers, no transaction is left open; and a
    checkout answered 200 made exactly 7 round-trips when the Redis client
    is ready and 6 when it is not. *)
Theorem optimized_checkout_bounded_cost
    (env : Env) (b : CheckoutBody) (w w' : World) (r : Outcome Response) :
  checkout_is_optimized env = true ->
  txn w = None ->
  checkout env b w = (r, w') ->
  (trips w' <= trips w + 8)%nat /\
  (forall resp, r = Returned resp -> txn w' = None) /\
  (forall resp, r = Returned resp -> status resp = 200 ->
   trips w' = (trips w + (if redis_ready w then 7 else 6))%nat).
Proof.
  intros Henv Htxn Hrun. rewrite (checkout_optimized_route env Henv) in Hrun.
  destruct (checkout_optimized_books env b w r w' Htxn Hrun)
    as (_ & _ & _ & Hle & Hclosed & Hcost & _).
  rewrite (optimized_enables_cache env Henv) in Hcost.
  split; [exact Hle |]. split; [exact Hclosed | exact Hcost].
Qed.

Lemma optimized_checkout_bounded_cost_witness :
  let run := checkout env_optimized two_items_body world_order_fault in
  checkout_is_optimized env_optimized = true /\
  txn world_order_fault = None /\
  (trips (snd run) <= trips world_order_fault + 8)%nat.
Proof.
  intros run. split; [reflexivity |]. split; [reflexivity |].
  exact (proj1 (optimized_checkout_bounded_cost env_optimized two_items_body
                  world_order_fault (snd run) (fst run) eq_refl eq_refl
                  (surjective_pairing run))).
Defined.

(** X15.  A baseline checkout of [n] existing items with no rejected
    round-trip answers 200 after exactly [3 n + 1] round-trips (each price
    is looked up twice), appends one order and [n] rows, and advances the
    order id sequence by one. *)
Theorem baseline_checkout_cost
    (env : Env) (b : CheckoutBody) (uid : Z) (l : list Item) (w : World) :
  checkout_is_optimized env = false ->
  accepted b = Some (uid, l) ->
  all_products_exist (db w) l = true ->
  calm (3 * length l + 1) w ->
  (exists resp, fst (checkout env b w) = Returned resp /\ status resp = 200) /\
  trips (snd (checkout env b w)) = (trips w + (3 * length l + 1))%nat /\
  orders (db (snd (checkout env b w))) = orders (db w) ++ [baseline_order w uid l] /\
  order_items (db (snd (checkout env b w)))
    = order_items (db w) ++ baseline_rows (products (db w)) (orders_id_seq w) l /\
  orders_id_seq (snd (checkout env b w)) = orders_id_seq w + 1.
Proof.
  intros Henv Hacc Hall Hq. rewrite (checkout_baseline_route env Henv).
  rewrite (checkout_baseline_success b uid l w Hacc Hall Hq).
  destruct (iter_tick_frame (3 * length l + 1) w) as (_ & _ & Ht & _).
  cbn [fst snd trips db set_db set_orders_id_seq orders_id_seq].
  split; [eexists; split; reflexivity |]. split; [exact Ht |]. repeat split.
Qed.

Lemma baseline_checkout_cost_witness :
  let l := [item 1 1; item 2 1; item 4 1; item 5 1; item 1 2] in
  checkout_is_optimized env_baseline = false /\
  accepted all_present_body = Some (7, l) /\
  all_products_exist (db world0) l = true /\
  calm (3 * length l + 1) world0 /\
  trips (snd (checkout env_baseline all_present_body world0)) = 16%nat.
Proof.
  intros l.
  assert (calm (3 * length l + 1) world0) as Hq by (intros k _; reflexivity).
  split; [reflexivity |]. split; [reflexivity |]. split; [reflexivity |].
  split; [exact Hq |].
  destruct (baseline_checkout_cost env_baseline all_present_body 7 l world0
              eq_refl eq_refl eq_refl Hq) as (_ & Ht & _).
  exact Ht.
Defined.

(** X16.  An optimized checkout never changes the cached recommendations
    of another user: whatever its outcome, the entry under the key of any
    user other than the one named in the request is as before. *)
Theorem invalidation_spares_other_users
    (env : Env) (b : CheckoutBody) (uid other : Z) (w w' : World)
    (r : Outcome Response) :
  checkout_is_optimized env = true ->
  txn w = None ->
  userId b = Some uid ->
  other <> uid ->
  checkout env b w = (r, w') ->
  redis_store w' !! cacheKey other = redis_store w !! cacheKey other.
Proof.
  intros Henv Htxn Hu Hne Hrun. rewrite (checkout_optimized_route env Henv) in Hrun.
  destruct (checkout_optimized_books env b w r w' Htxn Hrun)
    as (_ & _ & _ & _ & _ & _ & Hkeys).
  destruct (Hkeys (cacheKey other)) as [H | (_ & u & Hu' & E)]; [exact H |].
  exfalso. apply Hne. apply cacheKey_inj in E. congruence.
Qed.

Lemma invalidation_spares_other_users_witness :
  let run := checkout env_optimized two_items_body world_two_users in
  checkout_is_optimized env_optimized = true /\
  txn world_two_users = None /\
  userId two_items_body = Some 7 /\
  8 <> 7 /\
  redis_store (snd run) !! cacheKey 8 = redis_store world_two_users !! cacheKey 8.
Proof.
  intros run. split; [reflexivity |]. split; [reflexivity |]. split; [reflexivity |].
  split; [lia |].
  apply (invalidation_spares_other_users env_optimized two_items_body 7 8
           world_two_users (snd run) (fst run));
    [reflexivity | reflexivity | reflexivity | lia | apply surjective_pairing].
Defined.

(** X17.  In both modes a request without a user id (absent or 0), without
    an item list or with an empty item list is answered 400 "Invalid
    request" before any round-trip: the world is left exactly as it was. *)
Theorem malformed_checkout_rejected (env : Env) (b : CheckoutBody) (w : World) :
  (userId b = None \/ userId b = Some 0 \/ items b = None \/ items b = Some []) ->
  checkout env b w =
  (Returned {| status := 400; body := error_body "Invalid request" |}, w).
Proof.
  intros H.
  assert (accepted b = None) as Hacc.
  { unfold accepted. destruct H as [-> | [-> | [-> | ->]]]; try reflexivity.
    - destruct (items b) as [[| i l] |]; reflexivity.
    - destruct (userId b); reflexivity.
    - destruct (userId b); reflexivity. }
  unfold checkout.
  destruct (checkout_is_optimized env);
    unfold checkout_optimized, checkout_baseline; rewrite Hacc; reflexivity.
Qed.

Lemma malformed_checkout_rejected_witness :
  items empty_items_body = Some [] /\
  checkout env_optimized empty_items_body world0 =
  (Returned {| status := 400; body := error_body "Invalid request" |}, world0).
Proof.
  split; [reflexivity |].
  apply (malformed_checkout_rejected env_optimized empty_items_body world0).
  right. right. right. reflexivity.
Defined.

Lemma baseline_insert_items_app (oid : Z) (pre rest : list Item) (w : World) :
  baseline_insert_items oid (pre ++ rest) w =
  match baseline_insert_items oid pre w with
  | (Returned _, w1) => baseline_insert_items oid rest w1
  | (Thrown e, w1) => (Thrown e, w1)
  end.
Proof.
  revert w. induction pre as [| i pre IH]; intros w; [reflexivity |].
  simpl. unfold bind.
  destruct (pool_select_price (productId i) w) as [[[| p rows] | e] w1]; try reflexivity.
  destruct (pool_insert_order_item _ w1) as [[[] | e] w2]; [apply IH | reflexivity].
Qed.

Lemma baseline_insert_items_rejected (oid : Z) (it : Item) (post : list Item) (w : World) :
  has_product (db w) (productId it) = true ->
  (faults w (trips w) = true \/
   (faults w (trips w) = false /\ faults w (S (trips w)) = true)) ->
  exists j e,
    baseline_insert_items oid (it :: post) w = (Thrown e, Nat.iter j tick w).
Proof.
  intros Hhas [F | [F0 F1]]; simpl; unfold bind at 1; unfold pool_select_price, await.
  - rewrite F. exists 1%nat, "rejected". reflexivity.
  - rewrite F0. destruct (has_product_first_price _ _ Hhas) as (rest & Hrows).
    rewrite tick_db, Hrows. unfold bind at 1. unfold pool_insert_order_item, await.
    cbn [faults trips tick set_now set_trips]. rewrite F1.
    exists 2%nat, "rejected". reflexivity.
Qed.

Lemma all_products_exist_app (d : Db) (l1 l2 : list Item) :
  all_products_exist d (l1 ++ l2) = true ->
  all_products_exist d l1 = true /\ all_products_exist d l2 = true.
Proof.
  unfold all_products_exist. rewrite forallb_app. apply andb_prop.
Qed.

(** X18.  The baseline checkout is not atomic.  When all items exist and
    the first rejected round-trip is the price lookup or the insert of some
    item in the second loop, the request is answered 500 while the order
    header and the rows of all items before that one stay in the tables. *)
Theorem naive_checkout_is_not_atomic
    (env : Env) (b : CheckoutBody) (uid : Z) (l pre post : list Item) (it : Item)
    (w : World) (reached : nat) :
  l = pre ++ it :: post ->
  reached = (length l + 1 + 2 * length pre)%nat ->
  checkout_is_optimized env = false ->
  accepted b = Some (uid, l) ->
  all_products_exist (db w) l = true ->
  calm reached w ->
  (faults w (trips w + reached) = true \/
   (faults w (trips w + reached) = false /\ faults w (trips w + S reached) = true)) ->
  fst (checkout env b w) = Returned internal_error /\
  orders (db (snd (checkout env b w))) = orders (db w) ++ [baseline_order w uid l] /\
  order_items (db (snd (checkout env b w)))
    = order_items (db w) ++ baseline_rows (products (db w)) (orders_id_seq w) pre.
Proof.
  intros El Er Henv Hacc Hall Hq Hfault.
  rewrite (checkout_baseline_route env Henv).
  destruct (checkout_baseline b w) as [r w'] eqn:Hrun. cbn [fst snd].
  unfold checkout_baseline in Hrun. rewrite Hacc in Hrun.
  unfold try_catch, bind at 1 in Hrun.
  rewrite baseline_total_passes in Hrun;
    [| exact Hall | apply (calm_weaken reached); [lia | exact Hq]].
  set (wn := Nat.iter (length l) tick w) in *.
  destruct (iter_tick_frame (length l) w) as (Hdb & Hf & Ht & Hs & _).
  fold wn in Hdb, Hf, Ht, Hs.
  assert (forall k, (k < 1 + 2 * length pre)%nat -> faults wn (trips wn + k) = false)
    as Hqn.
  { intros k Hk. rewrite Hf, Ht, <- Nat.add_assoc. apply Hq. lia. }
  unfold bind at 1 in Hrun. unfold pool_insert_order in Hrun.
  rewrite (await_ok _ wn) in Hrun
    by (rewrite <- (Nat.add_0_r (trips wn)); apply Hqn; lia).
  cbn [orders_id_seq tick set_now set_trips db] in Hrun.
  set (wo := set_db _ _) in Hrun.
  assert (db wo = add_order (baseline_order w uid l) (db w)) as Hdbo.
  { unfold wo, baseline_order. cbn [db set_db]. rewrite Hdb, Hs. reflexivity. }
  assert (faults wo = faults w /\ trips wo = (trips w + length l + 1)%nat) as [Hfo Hto].
  { unfold wo. cbn [faults trips set_db set_orders_id_seq tick set_now set_trips].
    rewrite Hf, Ht. split; [reflexivity | lia]. }
  assert (all_products_exist (db w) pre = true /\
          has_product (db w) (productId it) = true) as [Hpre Hit].
  { rewrite El in Hall. destruct (all_products_exist_app _ _ _ Hall) as [Hp Hr].
    simpl in Hr. apply andb_prop in Hr as [Hi _]. split; assumption. }
  unfold bind at 1 in Hrun.
  replace (baseline_insert_items (orders_id_seq wn) l wo)
    with (baseline_insert_items (orders_id_seq wn) (pre ++ it :: post) wo) in Hrun
    by (rewrite El; reflexivity).
  rewrite baseline_insert_items_app in Hrun.
  rewrite baseline_insert_items_passes in Hrun.
  2:{ rewrite Hdbo. exact Hpre. }
  2:{ intros k Hk. rewrite Hfo, Hto.
      replace (trips w + length l + 1 + k)%nat with (trips w + (length l + 1 + k))%nat by lia.
      apply Hq. lia. }
  set (wp := set_db _ (Nat.iter (2 * length pre) tick wo)) in Hrun.
  destruct (iter_tick_frame (2 * length pre) wo) as (Hdbp & Hfp & Htp & _).
  assert (faults wp = faults w /\ trips wp = (trips w + reached)%nat) as [Hfw Htw].
  { unfold wp. cbn [faults trips set_db]. rewrite Hfp, Htp, Hfo, Hto.
    split; [reflexivity | lia]. }
  destruct (baseline_insert_items_rejected (orders_id_seq wn) it post wp)
    as (j & e & Hrej).
  { unfold wp. cbn [db set_db]. rewrite Hdbo. exact Hit. }
  { rewrite Hfw, Htw. rewrite Nat.add_succ_r in Hfault. exact Hfault. }
  rewrite Hrej in Hrun. cbv beta iota in Hrun. unfold ret in Hrun.
  injection Hrun as <- <-.
  destruct (iter_tick_frame j wp) as (Hdbj & _). rewrite Hdbj.
  unfold wp. cbn [db set_db]. rewrite Hdbo, Hs.
  repeat split.
Qed.

Lemma naive_checkout_is_not_atomic_witness :
  let pre := [item 1 1; item 2 1] in
  let post := [item 5 1; item 1 2] in
  let l := pre ++ item 4 1 :: post in
  let run := checkout env_baseline all_present_body world_item_fault in
  checkout_is_optimized env_baseline = false /\
  accepted all_present_body = Some (7, l) /\
  all_products_exist (db world_item_fault) l = true /\
  calm 10 world_item_fault /\
  faults world_item_fault (trips world_item_fault + 10) = false /\
  faults world_item_fault (trips world_item_fault + 11) = true /\
  fst run = Returned internal_error /\
  orders (db (snd run))
    = orders (db world_item_fault) ++ [baseline_order world_item_fault 7 l] /\
  order_items (db (snd run))
    = order_items (db world_item_fault)
      ++ baseline_rows (products (db world_item_fault))
           (orders_id_seq world_item_fault) pre.
Proof.
  intros pre post l run.
  assert (calm 10 world_item_fault) as Hq.
  { intros k Hk. cbn. apply Nat.eqb_neq. lia. }
  split; [reflexivity |]. split; [reflexivity |]. split; [reflexivity |].
  split; [exact Hq |]. split; [reflexivity |]. split; [reflexivity |].
  apply (naive_checkout_is_not_atomic env_baseline all_present_body 7 l pre post
           (item 4 1) world_item_fault 10);
    [reflexivity | reflexivity | reflexivity | reflexivity | reflexivity | exact Hq |].
  right. split; reflexivity.
Defined.

(** X19.  With the cache switched on while checkout runs in the baseline
    mode, a checkout invalidates nothing: an entry cached for the user
    before the checkout is still served afterwards, as a hit, until it
    expires. *)
Theorem cache_switch_without_invalidation
    (sql : Db -> Z -> list ProductRow) (iso : Z -> string)
    (env : Env) (b : CheckoutBody) (uid : Z) (e : CacheEntry) (w w2 : World) :
  checkout_is_optimized env = false ->
  ENABLE_REDIS_CACHE env = true ->
  redis_store w !! cacheKey uid = Some e ->
  redis_store w2 = redis_store (snd (checkout env b w)) ->
  redis_ready w2 = true ->
  faults w2 (trips w2) = false ->
  now (tick w2) < expires_at e ->
  recommendations sql iso env uid w2 =
  (Returned {| status := 200; body := cached_value e |},
   set_collected (recordCacheHit (collected w2)) (tick w2)).
Proof.
  intros Hmode Hon He Hstore Hready F Hlive.
  rewrite (checkout_baseline_route env Hmode) in Hstore.
  destruct (keeps_checkout_baseline b w) as (Hsame & _).
  rewrite Hsame in Hstore.
  rewrite (recommendations_cached_route sql iso env Hon).
  apply recommendations_cached_hit.
  - rewrite Hon, Hready. reflexivity.
  - exact F.
  - unfold live_entry. cbn [redis_store tick set_now set_trips].
    rewrite Hstore, He.
    destruct (Z.ltb_spec (now (tick w2)) (expires_at e)); [reflexivity | lia].
Qed.

Lemma cache_switch_without_invalidation_witness :
  let w2 := snd (checkout env_cache_in_baseline two_items_body world_cached) in
  checkout_is_optimized env_cache_in_baseline = false /\
  ENABLE_REDIS_CACHE env_cache_in_baseline = true /\
  redis_store world_cached !! cacheKey 7 = Some stale_entry /\
  redis_ready w2 = true /\
  faults w2 (trips w2) = false /\
  now (tick w2) < expires_at stale_entry /\
  recommendations sample_rows sample_iso env_cache_in_baseline 7 w2 =
  (Returned {| status := 200; body := cached_value stale_entry |},
   set_collected (recordCacheHit (collected w2)) (tick w2)).
Proof.
  intros w2.
  assert (redis_store world_cached !! cacheKey 7 = Some stale_entry) as He
    by (vm_compute; reflexivity).
  assert (redis_ready w2 = true) as Hr by (vm_compute; reflexivity).
  assert (faults w2 (trips w2) = false) as Hf by (vm_compute; reflexivity).
  assert (now (tick w2) < expires_at stale_entry) as Hl by (vm_compute; reflexivity).
  split; [reflexivity |]. split; [reflexivity |]. split; [exact He |].
  split; [exact Hr |]. split; [exact Hf |]. split; [exact Hl |].
  apply (cache_switch_without_invalidation sample_rows sample_iso
           env_cache_in_baseline two_items_body 7 stale_entry world_cached w2
           eq_refl eq_refl He eq_refl Hr Hf Hl).
Defined.



Lemma or_default_nonzero (x : option Z) (d : Z) : d <> 0 -> or_default x d <> 0.
Proof.
  intros Hd. unfold or_default. destruct x as [v |]; [| exact Hd].
  destruct (Z.eqb_spec v 0); [exact Hd | assumption].
Qed.

Lemma total_pages_spec (total lim : Z) :
  0 < lim ->
  lim * (total_pages total lim - 1) < total <= lim * total_pages total lim.
Proof.
  intros Hl. destruct lim as [| p | p]; try lia.
  unfold total_pages, Qceiling, Qfloor, Qdiv, Qmult, Qinv, Qopp, inject_Z. simpl.
  rewrite Z.mul_1_r. Z.to_euclidean_division_equations. nia.
Qed.

(** X20.  Pagination of the optimized product search.  The page number and
    the page size are never 0 (an absent, unparsable or zero parameter gives
    page 1 and size 20).  For a positive size, a page number of at least 1
    and [total] matching rows, the offset is not negative, the number of
    pages is 0 exactly when nothing matches, and a page starts before the
    end of the result exactly when its number is at most [totalPages]. *)
Theorem pagination_covers_all_rows (q : ProductsQuery) (total : Z) :
  page_param q <> 0 /\ limit_param q <> 0 /\
  (0 < limit_param q -> 0 <= total -> 1 <= page_param q ->
   let pages := total_pages total (limit_param q) in
   0 <= offset_param q /\ 0 <= pages /\
   (pages = 0 <-> total = 0) /\
   (offset_param q < total <-> page_param q <= pages)).
Proof.
  split; [apply or_default_nonzero; discriminate |].
  split; [apply or_default_nonzero; discriminate |].
  intros Hl Ht Hp pages.
  pose proof (total_pages_spec total (limit_param q) Hl) as S. fold pages in S.
  unfold offset_param. repeat split; try nia.
Qed.

Lemma pagination_covers_all_rows_witness :
  let q := third_page in
  limit_param q = 20 /\ page_param q = 3 /\
  0 < limit_param q /\ 0 <= 45 /\ 1 <= page_param q /\
  offset_param q = 40 /\ total_pages 45 (limit_param q) = 3 /\
  (offset_param q < 45 <-> page_param q <= total_pages 45 (limit_param q)).
Proof.
  intros q. split; [reflexivity |]. split; [reflexivity |].
  split; [reflexivity |]. split; [lia |]. split; [vm_compute; discriminate |].
  split; [reflexivity |]. split; [reflexivity |].
  apply (proj2 (proj2 (pagination_covers_all_rows q 45)));
    [reflexivity | lia | vm_compute; discriminate].
Defined.

Section SearchRuns.
Variable sql_page : Db -> string -> string -> Z -> Z -> list Json.
Variable sql_count : Db -> string -> string -> Z.
Variable sql_like : Db -> string -> list Json.

Lemma products_optimized_run (q : ProductsQuery) (w : World) :
  let w1 :=
    set_collected
      (recordDbQuery search_sql (now (tick w) - now w) (now (tick w)) (collected w))
      (tick w) in
  products_optimized sql_page sql_count q w =
  if faults w (trips w) then (Returned internal_error, tick w)
  else if faults w (S (trips w)) then (Returned internal_error, tick w1)
  else
    (Returned
       {| status := 200;
          body :=
            JObj [("products",
                   JArr (sql_page (db w) (search_param q) (pattern (search_param q))
                           (limit_param q) (offset_param q)));
                  ("pagination",
                   JObj [("page", JNum (inject_Z (page_param q)));
                         ("limit", JNum (inject_Z (limit_param q)));
                         ("total",
                          JNum (inject_Z (sql_count (db w) (search_param q)
                                            (pattern (search_param q)))));
                         ("totalPages",
                          JNum (inject_Z
                                  (total_pages
                                     (sql_count (db w) (search_param q)
                                        (pattern (search_param q)))
                                     (limit_param q))))])] |},
     tick w1).
Proof.
  intros w1. unfold w1.
  unfold products_optimized, try_catch, bind, record, Date_now, await, ret.
  destruct (faults w (trips w)) eqn:F0; [reflexivity |].
  cbn [faults trips tick set_now set_trips set_collected].
  destruct (faults w (S (trips w))) eqn:F1; reflexivity.
Qed.

Lemma products_baseline_run (q : ProductsQuery) (w : World) :
  products_baseline sql_like q w =
  if faults w (trips w) then (Returned internal_error, tick w)
  else
    (Returned
       {| status := 200;
          body :=
            JObj [("products", JArr (sql_like (db w) (pattern (search_param q))));
                  ("count",
                   JNum (Qnat (length (sql_like (db w) (pattern (search_param q))))))] |},
     set_collected
       (recordDbQuery like_sql (now (tick w) - now w) (now (tick w)) (collected w))
       (tick w)).
Proof.
  unfold products_baseline, try_catch, bind, record, Date_now, await, ret.
  destruct (faults w (trips w)); reflexivity.
Qed.

End SearchRuns.

Ltac search_leaf :=
  repeat match goal with
         | H : Returned _ = Returned _ |- _ => injection H as <-
         end;
  cbn in *; eauto; try lia; try discriminate; try congruence.

(** X21.  The product search never changes the tables or the cache and
    always answers, with status 200 or 500.  A search answered 200 made two
    round-trips in the optimized variant and one in the baseline variant,
    and reported exactly one query to the collector either way: the count
    query of the optimized variant is not timed.  When that count query is
    rejected the request is answered 500 although the page query was
    already reported. *)
Theorem product_search_times_one_query
    (sql_page : Db -> string -> string -> Z -> Z -> list Json)
    (sql_count : Db -> string -> string -> Z)
    (sql_like : Db -> string -> list Json)
    (env : Env) (q : ProductsQuery) (w w' : World) (r : Outcome Response) :
  products_route sql_page sql_count sql_like env q w = (r, w') ->
  db w' = db w /\ redis_store w' = redis_store w /\
  (exists resp, r = Returned resp /\ (status resp = 200 \/ status resp = 500)) /\
  (forall resp, r = Returned resp -> status resp = 200 ->
   trips w' = (trips w + (if ENABLE_OPT_SEARCH env then 2 else 1))%nat /\
   length (dbQueries (collected w')) = S (length (dbQueries (collected w)))) /\
  (ENABLE_OPT_SEARCH env = true ->
   faults w (trips w) = false -> faults w (S (trips w)) = true ->
   r = Returned internal_error /\
   length (dbQueries (collected w')) = S (length (dbQueries (collected w)))).
Proof.
  unfold products_route. destruct (ENABLE_OPT_SEARCH env).
  - rewrite products_optimized_run. cbv zeta.
    destruct (faults w (trips w)) eqn:F0; [| destruct (faults w (S (trips w))) eqn:F1];
      intros [= <- <-]; cbn; rewrite ?length_app; cbn;
      repeat split; intros; search_leaf.
  - rewrite products_baseline_run.
    destruct (faults w (trips w)) eqn:F0;
      intros [= <- <-]; cbn; rewrite ?length_app; cbn;
      repeat split; intros; search_leaf.
Qed.

Lemma product_search_times_one_query_witness :
  let run :=
    products_route sample_page sample_count sample_like env_optimized third_page
      world_count_rejected in
  ENABLE_OPT_SEARCH env_optimized = true /\
  faults world_count_rejected (trips world_count_rejected) = false /\
  faults world_count_rejected (S (trips world_count_rejected)) = true /\
  fst run = Returned internal_error /\
  length (dbQueries (collected (snd run)))
    = S (length (dbQueries (collected world_count_rejected))).
Proof.
  intros run. split; [reflexivity |]. split; [reflexivity |]. split; [reflexivity |].
  destruct (product_search_times_one_query sample_page sample_count sample_like
              env_optimized third_page world_count_rejected (snd run) (fst run)
              (surjective_pairing _)) as (_ & _ & _ & _ & H).
  apply H; reflexivity.
Defined.
